(** * GWFrames, [Code/Scri.cpp]: radiative data at null infinity

    A shallow embedding of the spin-weighted field classes ([DataGrid],
    [Modes]), the boost rotor, the per-slice bundle ([SliceModes]) and the
    BMS / Moreschi machinery ([Scri], [SuperMomenta]).

    Number model.  [double] is read as a real number ([R]): rounding,
    infinities and NaN are abstracted away, every other step of the code
    is kept.  Where the rounding of binary64 decides which branch is taken
    (the first test of [Boost]) the outcome of the test is taken from the
    machine, see [Binary64]; where the reals have a value and the source a
    NaN (a grid of one row, [M_PI/0.0]) the properties of values are stated
    for the other grids.  [int] is read as [Z]; signed overflow is
    undefined behaviour in C++, so no wrap-around is modelled, and [/] on
    [int] is the truncating [Z.quot].  [std::complex<double>] is a pair of
    reals.  [std::vector] is a list; reading past the end is undefined
    behaviour in the source and yields the default element here, writing
    past the end leaves the list unchanged; what is proved about a result
    is proved under conditions that keep every read inside its vector.
    The calls of GSL fail as its manual says, and a failure ends the
    program ([GSL_abort]). *)

From Stdlib Require Import Reals Lra Lia ZArith List Bool.
Import ListNotations.

Set Implicit Arguments.

(** ** Errors ([Errors.hpp]) and the exception monad *)

Inductive GWFrames_error : Set :=
| GWFrames_VectorSizeMismatch
| GWFrames_ValueError
| GWFrames_BadWaveformInformation
| GWFrames_NotYetImplemented
(** Not an exception of GWFrames: an error raised inside GSL.  [Scri.cpp]
    installs no handler, so the default one prints the error and aborts. *)
| GSL_abort.

Inductive result (A : Type) : Type :=
| Ok (a : A)
| Throw (e : GWFrames_error).

Arguments Ok {A} a.
Arguments Throw {A} e.

Definition bind {A B : Type} (c : result A) (k : A -> result B) : result B :=
  match c with
  | Ok a => k a
  | Throw e => Throw e
  end.

Notation "x <- c ;; k" := (bind c (fun x => k))
  (at level 61, c at next level, right associativity).

(** [mapM]: a loop that fills a vector and is left at the first throw. *)
Fixpoint mapM {A B : Type} (f : A -> result B) (l : list A) : result (list B) :=
  match l with
  | [] => Ok []
  | a :: l' => b <- f a ;; bs <- mapM f l' ;; Ok (b :: bs)
  end.

(** A loop whose body may raise: the first exception ends it. *)
Fixpoint foldM {A B : Type} (f : A -> B -> result A) (l : list B) (a : A) : result A :=
  match l with
  | [] => Ok a
  | b :: l' => a' <- f a b ;; foldM f l' a'
  end.

(** ** Comparisons on [double] *)

Definition Rlt_b (x y : R) : bool := if Rlt_dec x y then true else false.
Definition Rgt_b (x y : R) : bool := if Rgt_dec x y then true else false.
Definition Req_b (x y : R) : bool := if Req_dec_T x y then true else false.

(** ** [std::complex<double>] *)

Record complex : Type := mkC { real : R; imag : R }.

Definition zero : complex := mkC 0 0.
Definition complexi : complex := mkC 0 1.

Definition Cadd (a b : complex) : complex :=
  mkC (real a + real b) (imag a + imag b).
Definition Csub (a b : complex) : complex :=
  mkC (real a - real b) (imag a - imag b).
Definition Cneg (a : complex) : complex := mkC (- real a) (- imag a).
Definition Cmul (a b : complex) : complex :=
  mkC (real a * real b - imag a * imag b) (real a * imag b + imag a * real b).
Definition Cdiv (a b : complex) : complex :=
  let d := (real b * real b + imag b * imag b)%R in
  mkC ((real a * real b + imag a * imag b) / d)
      ((imag a * real b - real a * imag b) / d).
Definition conj (a : complex) : complex := mkC (real a) (- imag a).

(** Mixed [double]/[complex] operators. *)
Definition C_of_R (x : R) : complex := mkC x 0.
Definition RmulC (x : R) (a : complex) : complex := mkC (x * real a) (x * imag a).
Definition CdivR (a : complex) (x : R) : complex := mkC (real a / x) (imag a / x).
Definition RdivC (x : R) (a : complex) : complex := Cdiv (C_of_R x) a.
Definition RaddC (x : R) (a : complex) : complex := mkC (x + real a) (imag a).
Definition RsubC (x : R) (a : complex) : complex := mkC (x - real a) (- imag a).

(** [std::pow(z, p)] for an [int] exponent. *)
Fixpoint Cpow_nat (z : complex) (n : nat) : complex :=
  match n with
  | O => mkC 1 0
  | S n' => Cmul z (Cpow_nat z n')
  end.
Definition Cpow (z : complex) (p : Z) : complex :=
  if (p <? 0)%Z then RdivC 1 (Cpow_nat z (Z.to_nat (- p)))
  else Cpow_nat z (Z.to_nat p).

(** ** Vectors *)

Section Vectors.
Variable A : Type.
Variable d : A.

(** [v[i] = x] *)
Fixpoint upd (i : nat) (x : A) (v : list A) : list A :=
  match v, i with
  | [], _ => []
  | _ :: v', O => x :: v'
  | a :: v', S i' => a :: upd i' x v'
  end.

(** [for(i=0; i<B.size(); ++i) C[i] = f(B[i], A[i])], with [C] a copy of [B]. *)
Fixpoint pointwise (f : A -> A -> A) (B A' : list A) : list A :=
  match B with
  | [] => []
  | b :: B' => f b (hd d A') :: pointwise f B' (tl A')
  end.

(** [for(i=0; i<N; ++i) c[i] = f(c[i])] *)
Fixpoint map_upto (f : A -> A) (N : nat) (c : list A) : list A :=
  match N, c with
  | O, _ => c
  | _, [] => []
  | S N', a :: c' => f a :: map_upto f N' c'
  end.
End Vectors.

Definition ThreeVector : Type := list R.
Definition FourVector : Type := list R.

(** [v[i]] on a vector of doubles. *)
Definition vget (v : list R) (i : nat) : R := nth i v 0%R.
(** unary minus on a vector ([Utilities.hpp]). *)
Definition vneg (v : list R) : list R := map Ropp v.

(** [M[i]] on a vector of complex numbers. *)
Definition cget (v : list complex) (i : nat) : complex := nth i v zero.

(** ** Rotors

    Modelled from the spec: the quaternion class ([Quaternions.hpp]) is an
    external collaborator (a rotor algebra "supporting composition,
    conjugation, normalization, cross product, dot product, and
    exponential map"); it is given here by the usual Hamilton algebra over
    the reals. *)

Module Quaternions.
Local Open Scope R_scope.

Record Quaternion : Type := mkQ { qw : R; qx : R; qy : R; qz : R }.

Definition of_vec (v : list R) : Quaternion :=
  mkQ 0 (vget v 0) (vget v 1) (vget v 2).
Definition vec (q : Quaternion) : list R := [qx q; qy q; qz q].

(** [Quaternion(vartheta, varphi)]: [exp(varphi/2 z) * exp(vartheta/2 y)]. *)
Definition of_angles (vartheta varphi : R) : Quaternion :=
  mkQ (cos (vartheta / 2) * cos (varphi / 2))
      (- sin (vartheta / 2) * sin (varphi / 2))
      (sin (vartheta / 2) * cos (varphi / 2))
      (cos (vartheta / 2) * sin (varphi / 2)).

Definition mul (p q : Quaternion) : Quaternion :=
  mkQ (qw p * qw q - qx p * qx q - qy p * qy q - qz p * qz q)
      (qw p * qx q + qx p * qw q + qy p * qz q - qz p * qy q)
      (qw p * qy q - qx p * qz q + qy p * qw q + qz p * qx q)
      (qw p * qz q + qx p * qy q - qy p * qx q + qz p * qw q).
Definition conjugate (q : Quaternion) : Quaternion :=
  mkQ (qw q) (- qx q) (- qy q) (- qz q).
Definition dot (p q : Quaternion) : R :=
  qx p * qx q + qy p * qy q + qz p * qz q.
Definition cross (p q : Quaternion) : Quaternion :=
  mkQ 0 (qy p * qz q - qz p * qy q)
        (qz p * qx q - qx p * qz q)
        (qx p * qy q - qy p * qx q).
Definition abs (q : Quaternion) : R :=
  sqrt (qw q * qw q + qx q * qx q + qy q * qy q + qz q * qz q).
Definition scale (a : R) (q : Quaternion) : Quaternion :=
  mkQ (a * qw q) (a * qx q) (a * qy q) (a * qz q).
Definition normalized (q : Quaternion) : Quaternion := scale (/ abs q) q.
Definition exp (q : Quaternion) : Quaternion :=
  let b := sqrt (qx q * qx q + qy q * qy q + qz q * qz q) in
  let e := Rtrigo_def.exp (qw q) in
  let f := sin b / b in
  mkQ (e * cos b) (e * f * qx q) (e * f * qy q) (e * f * qz q).
End Quaternions.
Import Quaternions.

Definition zHat : Quaternion := mkQ 0 0 0 1.

(** ** The boost rotor *)

Section BoostRotor.
Local Open Scope R_scope.

(** [acosh] of [<math.h>]. *)
Definition acosh (x : R) : R := ln (x + sqrt (x * x - 1)).

(** [std::sqrt(v[0]*v[0]+v[1]*v[1]+v[2]*v[2])], written out at each use in
    the source. *)
Definition norm3 (v : list R) : R :=
  sqrt (vget v 0 * vget v 0 + vget v 1 * vget v 1 + vget v 2 * vget v 2).

Definition Rapidity (v : list R) : R :=
  let magv := norm3 v in
  acosh (1 / sqrt (1 - magv * magv)).

(** The test of the first [if] of [Boost],
    [absv<1.0e-14 || std::abs(1-std::exp(alpha))<1.0e-14], is decided by
    the rounding of binary64 and not by the real numbers.  With [magv] up
    to [2^-27] (about [7.45e-9]) the product [magv*magv] is at most
    [2^-54], half the distance from [1.0] to the double below it, so
    [1.0-magv*magv] of [Rapidity] is [1.0]; then [std::sqrt], the division
    and [acosh] give [1.0], [1.0] and [0.0], [std::exp(0.0)] is [1.0], and
    the second comparison holds: the test passes far above [1e-14].
    Beyond [2^-27] the difference is at most [1 - 2^-53], its root at most
    [1 - 2^-53], the quotient at least [1 + 2^-52], [alpha] at least
    [acosh(1 + 2^-52)], about [2.1e-8], and [|1 - exp(alpha)|] at least
    that; from [magv = 1] on the quotient is infinite or not a number and
    the comparison fails as well: the test fails.

    The outcome of the test is therefore taken from the machine; what is
    known of it is stated on either side of the rounding boundary, for
    [|v| <= 7e-9] and for [|v| >= 8e-9], and nothing is assumed between. *)
Record Binary64 : Type := mkBinary64 {
  (** [absv<1.0e-14 || std::abs(1-std::exp(alpha))<1.0e-14] *)
  Boost_negligible : ThreeVector -> bool;
  negligible_below : forall v, norm3 v <= 7e-9 -> Boost_negligible v = true;
  negligible_above : forall v, 8e-9 <= norm3 v -> Boost_negligible v = false
}.

Definition Boost (F : Binary64) (v n : ThreeVector) : result Quaternion :=
  let alpha := Rapidity v in
  let absv := norm3 v in
  if Boost_negligible F v then
    Ok (mkQ 1 0 0 0)
  else
    let v := [vget v 0 / absv; vget v 1 / absv; vget v 2 / absv] in
    let absn := norm3 n in
    if Req_b absn 0 then Throw GWFrames_ValueError
    else
      let n := [vget n 0 / absn; vget n 1 / absn; vget n 2 / absn] in
      let Theta := acos (vget n 0 * vget v 0 + vget n 1 * vget v 1 + vget n 2 * vget v 2) in
      let ThetaPrime := 2 * atan (Rtrigo_def.exp alpha * tan (0.5 * Theta)) in
      let vn := cross (of_vec v) (of_vec n) in
      let absvn := abs vn in
      if Rlt_b absvn 1.0e-14 then Ok (mkQ 1 0 0 0)
      else Ok (Quaternions.exp (scale (0.5 * (ThetaPrime - Theta)) (normalized vn))).
End BoostRotor.

(** ** The two representations of a spin-weighted field *)

(** [DataGrid]: values on an equiangular grid, row-major by theta then phi. *)
Record DataGrid : Type := mkDataGrid {
  dg_s : Z;
  n_theta : Z;
  n_phi : Z;
  dg_data : list complex
}.

(** [Modes]: spin-weighted spherical-harmonic coefficients up to [ellMax]. *)
Record Modes : Type := mkModes {
  m_s : Z;
  ellMax : Z;
  m_data : list complex
}.

Definition Spin (M : Modes) : Z := m_s M.
Definition EllMax (M : Modes) : Z := ellMax M.
Definition SetSpin (M : Modes) (s : Z) : Modes := mkModes s (ellMax M) (m_data M).
Definition SetEllMax (M : Modes) (L : Z) : Modes := mkModes (m_s M) L (m_data M).
Definition N_theta (D : DataGrid) : Z := n_theta D.
Definition N_phi (D : DataGrid) : Z := n_phi D.

(** Modelled from the spec: [Modes(const int size)] is declared in
    [Scri.hpp], which is not under src/; its uses in [Scri.cpp] index the
    new object up to [size], so it holds [size] value-initialised
    coefficients.  Spin and [ellMax] are set by the callers where they
    matter. *)
Definition Modes_of_size (size : Z) : Modes :=
  mkModes 0 0 (repeat zero (Z.to_nat size)).

(** Number of [(ell,m)] modes up to [lmax] and the index of a mode
    ([alm.h] of spinsfast); the loops of [Scri.cpp] run [ell] from [0] and
    [m] from [-ell] to [ell] over consecutive indices. *)
Definition N_lm (lmax : Z) : Z := lmax * (lmax + 2) + 1.
Definition lm_ind (l m lmax : Z) : Z := l * (l + 1) + m.

(** What [Scri.cpp] takes from outside: the spinsfast transform kernels,
    the spin-weighted harmonics, the GSL cubic spline, the members that
    are only declared in [Scri.hpp], and the arithmetic of the machine
    where it decides a branch.  A transform kernel fills a buffer the
    caller has sized; it is read here as the value it leaves at each
    index. *)
Record Externals : Type := mkExternals {
  (** the tests decided by the rounding of binary64 *)
  binary64 : Binary64;
  (** [spinsfast_salm2map(alm, map, s, Ntheta, Nphi, lmax)] *)
  spinsfast_salm2map : list complex -> Z -> Z -> Z -> Z -> nat -> complex;
  (** [spinsfast_map2salm(map, alm, s, Ntheta, Nphi, lmax)] *)
  spinsfast_map2salm : list complex -> Z -> Z -> Z -> Z -> nat -> complex;
  (** [SphericalFunctions::SWSH Y(s, R); Y(ell, m)] *)
  SWSH : Z -> Quaternion -> Z -> Z -> complex;
  (** a cubic spline through [(x_i, y_i)], evaluated at a point *)
  gsl_spline_eval : list R -> list R -> R -> R;
  (** [Modes::pow(int)] *)
  Modes_pow : Modes -> Z -> Modes;
  (** the default of [L] in [Modes(DataGrid D, const int L)] *)
  Modes_L : Z;
  (** [DataGrid(const int size)] *)
  DataGrid_of_size : Z -> DataGrid
}.

(** Loop ranges: [0 .. n-1] and the grid points in storage order. *)
Definition range (n : Z) : list Z := map Z.of_nat (seq 0 (Z.to_nat n)).
Definition grid_points (n_theta n_phi : Z) : list (Z * Z) :=
  flat_map (fun i_theta => map (fun i_phi => (i_theta, i_phi)) (range n_phi))
           (range n_theta).

(** [for(i_g=0, i_theta=0; i_theta<n_theta; ++i_theta)
      for(i_phi=0; i_phi<n_phi; ++i_phi, ++i_g) data[i_g] = f(i_theta, i_phi);] *)
Fixpoint fill_from (f : Z -> Z -> result complex) (pts : list (Z * Z))
  (i_g : nat) (data : list complex) : result (list complex) :=
  match pts with
  | [] => Ok data
  | (i_theta, i_phi) :: pts' =>
      x <- f i_theta i_phi ;;
      fill_from f pts' (S i_g) (upd i_g x data)
  end.
Definition fill_grid (f : Z -> Z -> result complex) (n_theta n_phi : Z)
  (data : list complex) : result (list complex) :=
  fill_from f (grid_points n_theta n_phi) 0 data.

(** The [(ell, m)] pairs of
    [for(ell=ell0; ell<=ellMax; ++ell) for(m=-ell; m<=ell; ++m)], in order. *)
Definition m_range (ell : Z) : list Z :=
  map (fun k => (- ell + Z.of_nat k)%Z) (seq 0 (Z.to_nat (2 * ell + 1))).
Fixpoint lm_from (n : nat) (ell : Z) : list (Z * Z) :=
  match n with
  | O => []
  | S n' => map (fun m => (ell, m)) (m_range ell) ++ lm_from n' (ell + 1)
  end.
Definition lm_range (ell0 ellMax : Z) : list (Z * Z) :=
  lm_from (Z.to_nat (ellMax - ell0 + 1)) ell0.
(** The same pairs with the running index [i_m] that starts at [i0]. *)
Definition lm_indexed (i0 : nat) (ell0 ellMax : Z) : list (nat * (Z * Z)) :=
  let lms := lm_range ell0 ellMax in combine (seq i0 (length lms)) lms.

Section Fields.
Variable X : Externals.
Local Open Scope Z_scope.

(** *** [DataGrid] *)

(** [DataGrid(Spin, N_theta, N_phi, D)] *)
Definition DataGrid_of_data (Spin N_theta N_phi : Z) (D : list complex)
  : result DataGrid :=
  if negb (N_theta * N_phi =? Z.of_nat (length D))
  then Throw GWFrames_VectorSizeMismatch
  else Ok (mkDataGrid Spin N_theta N_phi D).

(** [DataGrid(Modes M, N_theta, N_phi)] *)
Definition DataGrid_of_Modes (M : Modes) (N_theta N_phi : Z) : DataGrid :=
  let s := Spin M in
  let n_theta := Z.max N_theta (2 * EllMax M + 1) in
  let n_phi := Z.max N_phi (2 * EllMax M + 1) in
  mkDataGrid s n_theta n_phi
    (map (spinsfast_salm2map X (m_data M) (Spin M) n_theta n_phi (EllMax M))
         (seq 0 (Z.to_nat (n_phi * n_theta)))).

(** [Modes::EvaluateAtPoint(const Quaternion& R)] *)
Definition EvaluateAtPoint (M : Modes) (Rot : Quaternion) : complex :=
  fold_left
    (fun d '(i_m, (ell, m)) => Cadd d (Cmul (cget (m_data M) i_m) (SWSH X (m_s M) Rot ell m)))
    (lm_indexed 0 0 (ellMax M)) (mkC 0 0).

(** The rotor of a grid point after the boost:
    [Rp(dtheta*i_theta, dphi*i_phi)], [R_b = Boost(-v, (Rp*zHat*Rp.conjugate()).vec())],
    and the product [R_b*Rp]. *)
Definition boosted_point (v : ThreeVector) (n_theta n_phi i_theta i_phi : Z)
  : result Quaternion :=
  let dtheta := (PI / IZR (n_theta - 1))%R in
  let dphi := (2 * PI / IZR n_phi)%R in
  let Rp := of_angles (dtheta * IZR i_theta) (dphi * IZR i_phi) in
  R_b <- Boost (binary64 X) (vneg v) (vec (mul (mul Rp zHat) (conjugate Rp))) ;;
  Ok (mul R_b Rp).

(** [DataGrid(const Modes& M, const ThreeVector& v, N_theta, N_phi)].
    The member [data(n_phi*n_theta)] is built first: for a negative
    product [std::vector] throws [std::length_error], which is not
    modelled (the list is then empty); the constructor is used here with
    sizes that are not negative. *)
Definition DataGrid_boosted (M : Modes) (v : ThreeVector) (N_theta N_phi : Z)
  : result DataGrid :=
  let s := Spin M in
  let n_theta := Z.max N_theta (2 * EllMax M + 1) in
  let n_phi := Z.max N_phi (2 * EllMax M + 1) in
  data <- fill_grid
            (fun i_theta i_phi =>
               Rot <- boosted_point v n_theta n_phi i_theta i_phi ;;
               Ok (EvaluateAtPoint M Rot))
            n_theta n_phi (repeat zero (Z.to_nat (n_phi * n_theta))) ;;
  Ok (mkDataGrid s n_theta n_phi data).

(** [DataGrid(Spin, N_theta, N_phi, v, f)]: boosted grid of a functor.
    As above, [data(n_phi*n_theta)] with a negative product throws
    [std::length_error] in the source and is not modelled. *)
Definition DataGrid_of_functor (Spin N_theta N_phi : Z) (v : ThreeVector)
  (f : Quaternion -> R) : result DataGrid :=
  data <- fill_grid
            (fun i_theta i_phi =>
               Rot <- boosted_point v N_theta N_phi i_theta i_phi ;;
               Ok (C_of_R (f Rot)))
            N_theta N_phi (repeat zero (Z.to_nat (N_phi * N_theta))) ;;
  Ok (mkDataGrid Spin N_theta N_phi data).

(** [B * A], [B / A], [B + A], [B - A] with [B = *this]. *)
Definition DataGrid_mul (B A : DataGrid) : result DataGrid :=
  if negb (n_theta A =? n_theta B) then Throw GWFrames_VectorSizeMismatch
  else if negb (n_phi A =? n_phi B) then Throw GWFrames_VectorSizeMismatch
  else Ok (mkDataGrid (dg_s B + dg_s A) (n_theta B) (n_phi B)
                      (pointwise zero Cmul (dg_data B) (dg_data A))).

Definition DataGrid_div (B A : DataGrid) : result DataGrid :=
  if negb (n_theta A =? n_theta B) then Throw GWFrames_VectorSizeMismatch
  else if negb (n_phi A =? n_phi B) then Throw GWFrames_VectorSizeMismatch
  else Ok (mkDataGrid (dg_s B - dg_s A) (n_theta B) (n_phi B)
                      (pointwise zero Cdiv (dg_data B) (dg_data A))).

Definition DataGrid_add (B A : DataGrid) : result DataGrid :=
  if negb (n_theta A =? n_theta B) then Throw GWFrames_VectorSizeMismatch
  else if negb (n_phi A =? n_phi B) then Throw GWFrames_VectorSizeMismatch
  else Ok (mkDataGrid (dg_s B) (n_theta B) (n_phi B)
                      (pointwise zero Cadd (dg_data B) (dg_data A))).

Definition DataGrid_sub (B A : DataGrid) : result DataGrid :=
  if negb (n_theta A =? n_theta B) then Throw GWFrames_VectorSizeMismatch
  else if negb (n_phi A =? n_phi B) then Throw GWFrames_VectorSizeMismatch
  else Ok (mkDataGrid (dg_s B) (n_theta B) (n_phi B)
                      (pointwise zero Csub (dg_data B) (dg_data A))).

(** [for(i=0; i<N_theta*N_phi; ++i) c[i] = f(c[i])] on a copy of [b]. *)
Definition DataGrid_map (f : complex -> complex) (b : DataGrid) : DataGrid :=
  mkDataGrid (dg_s b) (n_theta b) (n_phi b)
             (map_upto f (Z.to_nat (N_theta b * N_phi b)) (dg_data b)).

Definition DataGrid_pow (c : DataGrid) (p : Z) : DataGrid :=
  DataGrid_map (fun z => Cpow z p) c.
(** [a * b], [a / b], [a + b], [a - b] for a [double] on the left. *)
Definition DataGrid_rmul (a : R) (b : DataGrid) : DataGrid :=
  DataGrid_map (fun z => RmulC a z) b.
Definition DataGrid_rdiv (a : R) (b : DataGrid) : DataGrid :=
  DataGrid_map (fun z => RdivC a z) b.
Definition DataGrid_radd (a : R) (b : DataGrid) : DataGrid :=
  DataGrid_map (fun z => RaddC a z) b.
Definition DataGrid_rsub (a : R) (b : DataGrid) : DataGrid :=
  DataGrid_map (fun z => RsubC a z) b.

(** [ConformalFactorGrid] and [InverseConformalFactorGrid]: the loops write
    every entry of [D], no step throws.  With [n_theta = 1] the source
    computes [dtheta = M_PI/0.0], an infinity, and [theta = dtheta*0], not
    a number, so that the one row of such a grid holds no definite value;
    the quotient below is total, and what is proved of the values is
    proved for [n_theta <> 1] only. *)
Definition conformal_gamma (v : ThreeVector) : R :=
  (1 / sqrt (1 - vget v 0 * vget v 0 - vget v 1 * vget v 1 - vget v 2 * vget v 2))%R.
Definition conformal_denominator (v : ThreeVector) (n_theta n_phi i_theta i_phi : Z) : R :=
  let dtheta := (PI / IZR (n_theta - 1))%R in
  let dphi := (2 * PI / IZR n_phi)%R in
  let theta := (dtheta * IZR i_theta)%R in
  let phi := (dphi * IZR i_phi)%R in
  (conformal_gamma v * (1 - vget v 0 * cos phi * sin theta
                          - vget v 1 * sin phi * sin theta
                          - vget v 2 * cos theta))%R.


Definition InverseConformalFactorGrid (v : ThreeVector) (n_theta n_phi : Z) : result DataGrid :=
  D <- fill_grid
         (fun i_theta i_phi =>
            Ok (C_of_R (conformal_denominator v n_theta n_phi i_theta i_phi)))
         n_theta n_phi (repeat zero (Z.to_nat (n_theta * n_phi))) ;;
  DataGrid_of_data 0 n_theta n_phi D.

(** [InverseConformalFactorFunctor::operator()] *)
Definition InverseConformalFactorFunctor (vi : ThreeVector) (Rot : Quaternion) : R :=
  let gamma := conformal_gamma vi in
  let v := mkQ 0 (vget vi 0) (vget vi 1) (vget vi 2) in
  (gamma * (1 - dot v (mul (mul Rot zHat) (conjugate Rot))))%R.

Definition InverseConformalFactorBoostedGrid (v : ThreeVector) (n_theta n_phi : Z)
  : result DataGrid :=
  DataGrid_of_functor 0 n_theta n_phi v (InverseConformalFactorFunctor v).

(** *** [Modes] *)

(** [Modes(DataGrid D, const int L)] *)
Definition Modes_of_DataGrid (D : DataGrid) (L : Z) : Modes :=
  let s := dg_s D in
  let ellMax := Z.max (Z.min (Z.quot (N_theta D - 1) 2) (Z.quot (N_phi D - 1) 2)) L in
  mkModes s ellMax
    (map (spinsfast_map2salm X (dg_data D) s (N_theta D) (N_phi D) ellMax)
         (seq 0 (Z.to_nat (N_lm ellMax)))).

Definition Modes_bar (A : Modes) : Modes :=
  mkModes (- m_s A) (ellMax A) (map conj (m_data A)).

(** [this * M] and [this / M] *)
Definition Modes_mul (this M : Modes) : result Modes :=
  let L := EllMax this + EllMax M in
  g <- DataGrid_mul (DataGrid_of_Modes this (2 * L + 1) (2 * L + 1))
                    (DataGrid_of_Modes M (2 * L + 1) (2 * L + 1)) ;;
  let A := Modes_of_DataGrid g (Z.max (EllMax this) (EllMax M)) in
  Ok (mkModes (m_s this + m_s M) (ellMax A) (m_data A)).

Definition Modes_div (this M : Modes) : result Modes :=
  let L := EllMax this + EllMax M in
  g <- DataGrid_div (DataGrid_of_Modes this (2 * L + 1) (2 * L + 1))
                    (DataGrid_of_Modes M (2 * L + 1) (2 * L + 1)) ;;
  let A := Modes_of_DataGrid g (Z.max (EllMax this) (EllMax M)) in
  Ok (mkModes (m_s this - m_s M) (ellMax A) (m_data A)).

(** [for(i=0; i<B.size(); ++i) C[i] = f(C[i], B[i])], [B] the shorter one. *)
Fixpoint combine_into (f : complex -> complex -> complex) (C B : list complex)
  : list complex :=
  match B, C with
  | [], _ => C
  | _, [] => []
  | b :: B', c :: C' => f c b :: combine_into f C' B'
  end.

Definition Modes_add (this M : Modes) : result Modes :=
  if negb (m_s this =? m_s M) then Throw GWFrames_BadWaveformInformation
  else
    let A := if (length (m_data M) <=? length (m_data this))%nat then this else M in
    let B := if (length (m_data this) <? length (m_data M))%nat then this else M in
    Ok (mkModes (m_s A) (ellMax A) (combine_into Cadd (m_data A) (m_data B))).

Definition Modes_sub (this M : Modes) : result Modes :=
  if negb (m_s this =? m_s M) then Throw GWFrames_BadWaveformInformation
  else if (length (m_data M) <=? length (m_data this))%nat then
    Ok (mkModes (m_s this) (ellMax this) (combine_into Csub (m_data this) (m_data M)))
  else
    let C := Modes_of_size (Z.of_nat (length (m_data M))) in
    let C := SetSpin C (Spin M) in
    let C := SetEllMax C (EllMax M) in
    (* C[i] = data[i] - M[i] below data.size(), C[i] = - M[i] from there on *)
    Ok (mkModes (m_s C) (ellMax C)
          (map (fun i => if (i <? length (m_data this))%nat
                         then Csub (cget (m_data this) i) (cget (m_data M) i)
                         else Cneg (cget (m_data M) i))
               (seq 0 (length (m_data C))))).

(** The loop nest shared by [edth], [edthbar] and [edth2edthbar2]:
    [for(i_m=0, ell=0; ell<=ellMax; ++ell) { factor = ...;
       for(m=-ell; m<=ell; ++m, ++i_m) B.data[i_m] *= factor; }] *)
Definition scale_modes (factor : Z -> R) (ellMax : Z) (data : list complex)
  : list complex :=
  fold_left
    (fun d '(i_m, (ell, m)) => upd i_m (RmulC (factor ell) (cget d i_m)) d)
    (lm_indexed 0 0 ellMax) data.

Definition edth_factor (s ell : Z) : R :=
  let ellMin := Z.abs (s + 1) in
  if ell <? ellMin then 0%R
  else sqrt (IZR (ell - s) * (IZR (ell + s) + 1) / 2).

Definition edthbar_factor (s ell : Z) : R :=
  let ellMin := Z.abs (s - 1) in
  if ell <? ellMin then 0%R
  else (- sqrt (IZR (ell + s) * (IZR (ell - s) + 1) / 2))%R.

Definition Modes_edth (A : Modes) : Modes :=
  mkModes (Spin A + 1) (ellMax A)
          (scale_modes (edth_factor (m_s A)) (ellMax A) (m_data A)).

Definition Modes_edthbar (A : Modes) : Modes :=
  mkModes (Spin A - 1) (ellMax A)
          (scale_modes (edthbar_factor (m_s A)) (ellMax A) (m_data A)).

Definition Modes_edth2edthbar2 (A : Modes) : Modes :=
  mkModes (m_s A) (ellMax A)
          (scale_modes (fun ell => IZR ((ell - 1) * ell * (ell + 1) * (ell + 2)))
                       (ellMax A) (m_data A)).

Definition sqrt4pi : R := sqrt (4 * PI).
Definition sqrt8pi : R := sqrt (8 * PI).
Definition sqrt3 : R := sqrt 3.
Definition sqrt3over2 : R := sqrt 1.5.

Definition vFromOneOverK (OneOverK : Modes) : ThreeVector :=
  let K := m_data OneOverK in
  [ real (Cdiv (RmulC sqrt3over2 (Csub (cget K 3) (cget K 1))) (cget K 0));
    real (Cdiv (Cmul (RmulC sqrt3over2 complexi) (Cadd (cget K 3) (cget K 1))) (cget K 0));
    real (Cdiv (RmulC (- sqrt3) (cget K 2)) (cget K 0)) ].

(** *** [SliceOfScri], [SliceModes], [SliceGrid] *)

Record SliceOfScri (D : Type) : Type := mkSlice {
  psi0 : D; psi1 : D; psi2 : D; psi3 : D; psi4 : D; sigma : D; sigmadot : D
}.
Definition SliceModes : Type := SliceOfScri Modes.
Definition SliceGrid : Type := SliceOfScri DataGrid.

(** [slice[i]] and [slice[i] = x] *)
Definition slice_get {D : Type} (S : SliceOfScri D) (i : nat) : D :=
  match i with
  | 0%nat => psi0 S | 1%nat => psi1 S | 2%nat => psi2 S | 3%nat => psi3 S
  | 4%nat => psi4 S | 5%nat => sigma S | _ => sigmadot S
  end.
Definition slice_set {D : Type} (S : SliceOfScri D) (i : nat) (x : D) : SliceOfScri D :=
  match i with
  | 0%nat => mkSlice x (psi1 S) (psi2 S) (psi3 S) (psi4 S) (sigma S) (sigmadot S)
  | 1%nat => mkSlice (psi0 S) x (psi2 S) (psi3 S) (psi4 S) (sigma S) (sigmadot S)
  | 2%nat => mkSlice (psi0 S) (psi1 S) x (psi3 S) (psi4 S) (sigma S) (sigmadot S)
  | 3%nat => mkSlice (psi0 S) (psi1 S) (psi2 S) x (psi4 S) (sigma S) (sigmadot S)
  | 4%nat => mkSlice (psi0 S) (psi1 S) (psi2 S) (psi3 S) x (sigma S) (sigmadot S)
  | 5%nat => mkSlice (psi0 S) (psi1 S) (psi2 S) (psi3 S) (psi4 S) x (sigmadot S)
  | _ => mkSlice (psi0 S) (psi1 S) (psi2 S) (psi3 S) (psi4 S) (sigma S) x
  end.

(** [SliceModes(const int ellMax)] *)
Definition SliceModes_of_ellMax (ellMax : Z) : SliceModes :=
  let size := lm_ind ellMax ellMax ellMax + 1 in
  let mk s := SetEllMax (SetSpin (Modes_of_size size) s) ellMax in
  mkSlice (mk 2) (mk 1) (mk 0) (mk (-1)) (mk (-2)) (mk 2) (mk 2).

Definition SliceModes_EllMax (S : SliceModes) : Z :=
  Z.max (EllMax (psi0 S))
    (Z.max (EllMax (psi1 S))
      (Z.max (EllMax (psi2 S))
        (Z.max (EllMax (psi3 S))
          (Z.max (EllMax (psi4 S))
            (Z.max (EllMax (sigma S)) (EllMax (sigmadot S))))))).

(** [psi2 + sigma*sigmadot.bar() + sigma.bar().edth().edth()] *)
Definition SuperMomentum (S : SliceModes) : result Modes :=
  a <- Modes_mul (sigma S) (Modes_bar (sigmadot S)) ;;
  b <- Modes_add (psi2 S) a ;;
  Modes_add b (Modes_edth (Modes_edth (Modes_bar (sigma S)))).

(** The four-momentum read off the [ell = 0, 1] modes of a supermomentum. *)
Definition FourMomentum_of (Psi : Modes) : FourVector :=
  let P := m_data Psi in
  [ (real (cget P 0) / sqrt4pi)%R;
    (real (Csub (cget P 1) (cget P 3)) / (sqrt3 * sqrt8pi))%R;
    (- real (Cmul complexi (Cadd (cget P 1) (cget P 3))) / (sqrt3 * sqrt8pi))%R;
    (real (cget P 2) / (sqrt3 * sqrt4pi))%R ].
Definition Mass_of (p : FourVector) : R :=
  sqrt (vget p 0 * vget p 0 - vget p 1 * vget p 1
        - vget p 2 * vget p 2 - vget p 3 * vget p 3).

Definition FourMomentum (S : SliceModes) : result FourVector :=
  Psi <- SuperMomentum S ;; Ok (FourMomentum_of Psi).
Definition Mass (S : SliceModes) : result R :=
  p <- FourMomentum S ;; Ok (Mass_of p).

(** The binary operators of [DataGrid] on operands that are themselves
    results of throwing expressions. *)
Definition lift2 (op : DataGrid -> DataGrid -> result DataGrid)
  (a b : result DataGrid) : result DataGrid :=
  x <- a ;; y <- b ;; op x y.
Definition lift1 (op : DataGrid -> DataGrid) (a : result DataGrid) : result DataGrid :=
  x <- a ;; Ok (op x).

Notation "a [*] b" := (lift2 DataGrid_mul a b) (at level 40, left associativity).
Notation "a [-] b" := (lift2 DataGrid_sub a b) (at level 50, left associativity).
Notation "k [.] b" := (lift1 (DataGrid_rmul k) b) (at level 35, right associativity).

(** The tetrad change at the end of [BMSTransformationOnSlice]: the seven
    output grids from the grids on the boosted frame. *)
Definition tetrad_cascade
  (oneoverK_g oneoverKcubed_g ethethdelta_g ethupok_g
   psi0_g psi1_g psi2_g psi3_g psi4_g sigma_g sigmadot_g : DataGrid)
  : result SliceGrid :=
  let K1 := Ok oneoverK_g in
  let K3 := Ok oneoverKcubed_g in
  let E := Ok ethupok_g in
  let p0 := Ok psi0_g in
  let p1 := Ok psi1_g in
  let p2 := Ok psi2_g in
  let p3 := Ok psi3_g in
  let p4 := Ok psi4_g in
  G4 <- K3 [*] p4 ;;
  G3 <- K3 [*] (p3 [-] E [*] p4) ;;
  G2 <- K3 [*] (p2 [-] E [*] (2 [.] p3 [-] E [*] p4)) ;;
  G1 <- K3 [*] (p1 [-] E [*] (3 [.] p2 [-] E [*] (3 [.] p3 [-] E [*] p4))) ;;
  G0 <- K3 [*] (p0 [-] E [*] (4 [.] p1 [-] E [*] (6 [.] p2 [-] E [*] (4 [.] p3 [-] E [*] p4)))) ;;
  Gs <- K1 [*] (Ok sigma_g [-] Ok ethethdelta_g) ;;
  Gd <- Ok sigmadot_g [*] Ok (DataGrid_pow oneoverK_g 2) ;;
  Ok (mkSlice G0 G1 G2 G3 G4 Gs Gd).

(** [(\eth u') / K]:
    [DataGrid(Modes((u-DataGrid(delta,n_theta,n_phi))
                    /InverseConformalFactorGrid(v,n_theta,n_phi)).edth(),
              v, n_theta, n_phi) * oneoverK_g] *)
Definition ethupok (u : R) (v : ThreeVector) (delta : Modes) (n_theta n_phi : Z)
  (oneoverK_g : DataGrid) : result DataGrid :=
  icf <- InverseConformalFactorGrid v n_theta n_phi ;;
  q <- DataGrid_div (DataGrid_rsub u (DataGrid_of_Modes delta n_theta n_phi)) icf ;;
  g <- DataGrid_boosted (Modes_edth (Modes_of_DataGrid q (Modes_L X))) v n_theta n_phi ;;
  DataGrid_mul g oneoverK_g.

Definition BMSTransformationOnSlice (S : SliceModes) (u : R) (v : ThreeVector)
  (delta : Modes) : result SliceGrid :=
  let n_theta := 2 * SliceModes_EllMax S + 1 in
  let n_phi := n_theta in
  oneoverK_g <- InverseConformalFactorBoostedGrid v n_theta n_phi ;;
  let oneoverKcubed_g := DataGrid_pow oneoverK_g 3 in
  ethethdelta_g <- DataGrid_boosted (Modes_edth (Modes_edth delta)) v n_theta n_phi ;;
  ethupok_g <- ethupok u v delta n_theta n_phi oneoverK_g ;;
  psi0_g <- DataGrid_boosted (psi0 S) v n_theta n_phi ;;
  psi1_g <- DataGrid_boosted (psi1 S) v n_theta n_phi ;;
  psi2_g <- DataGrid_boosted (psi2 S) v n_theta n_phi ;;
  psi3_g <- DataGrid_boosted (psi3 S) v n_theta n_phi ;;
  psi4_g <- DataGrid_boosted (psi4 S) v n_theta n_phi ;;
  sigma_g <- DataGrid_boosted (sigma S) v n_theta n_phi ;;
  sigmadot_g <- DataGrid_boosted (sigmadot S) v n_theta n_phi ;;
  tetrad_cascade oneoverK_g oneoverKcubed_g ethethdelta_g ethupok_g
                 psi0_g psi1_g psi2_g psi3_g psi4_g sigma_g sigmadot_g.

(** *** By-reference arguments

    The two Moreschi steps write their results through two [Modes&]
    arguments and may throw after a write; they are read as state
    transformers on the pair of referenced objects that also say how the
    call was left.  The two references are taken to name two objects. *)

Record Frame : Type := mkFrame { OneOverK : Modes; delta : Modes }.

Definition byref (A : Type) : Type := Frame -> Frame * result A.
Definition ret {A : Type} (a : A) : byref A := fun f => (f, Ok a).
Definition bindF {A B : Type} (c : byref A) (k : A -> byref B) : byref B :=
  fun f => match c f with
           | (f', Ok a) => k a f'
           | (f', Throw e) => (f', Throw e)
           end.
Definition lift {A : Type} (c : result A) : byref A := fun f => (f, c).
Definition throw {A : Type} (e : GWFrames_error) : byref A := fun f => (f, Throw e).
Definition read {A : Type} (g : Frame -> A) : byref A := fun f => (f, Ok (g f)).
Definition set_OneOverK (K : Modes) : byref unit :=
  fun f => (mkFrame K (delta f), Ok tt).
Definition set_delta (d : Modes) : byref unit :=
  fun f => (mkFrame (OneOverK f) d, Ok tt).

Notation "x <~ c ;; k" := (bindF c (fun x => k))
  (at level 61, c at next level, right associativity).
Notation "c ;;; k" := (bindF c (fun _ => k))
  (at level 61, right associativity).

(** [M[i] = x] on a [Modes] object. *)
Definition Modes_set (M : Modes) (i : nat) (x : complex) : Modes :=
  mkModes (m_s M) (ellMax M) (upd i x (m_data M)).

(** [SliceModes::MoreschiIteration(Modes& OneOverK_ip1, Modes& delta_ip1)] *)
Definition SliceModes_MoreschiIteration (S : SliceModes) : byref unit :=
  Psi <~ lift (SuperMomentum S) ;;
  M <~ lift (Mass S) ;;
  set_OneOverK (Modes_of_size 4) ;;;
  K <~ read OneOverK ;; set_OneOverK (SetEllMax K 1) ;;;
  K <~ read OneOverK ;; set_OneOverK (Modes_set K 0 (CdivR (cget (m_data Psi) 0) M)) ;;;
  K <~ read OneOverK ;; set_OneOverK (Modes_set K 1 (CdivR (cget (m_data Psi) 1) M)) ;;;
  K <~ read OneOverK ;; set_OneOverK (Modes_set K 2 (CdivR (cget (m_data Psi) 2) M)) ;;;
  K <~ read OneOverK ;; set_OneOverK (Modes_set K 3 (CdivR (cget (m_data Psi) 3) M)) ;;;
  throw GWFrames_NotYetImplemented.

(** *** Time windows

    The selection of the original slices used for the interpolation, as
    written (twice) in [Scri::BMSTransformation] and
    [SuperMomenta::BMSTransform]. *)

(** [uMax] and [uMin] over [u[0 .. N-1]]. *)
Definition u_extent (u : DataGrid) (N : Z) : R * R :=
  fold_left
    (fun '(uMax, uMin) i =>
       let u_i := real (cget (dg_data u) i) in
       (if Rgt_b u_i uMax then u_i else uMax,
        if Rlt_b u_i uMin then u_i else uMin))
    (seq 1 (Z.to_nat N - 1))
    (real (cget (dg_data u) 0), real (cget (dg_data u) 0)).

(** [if(uMin<t[0] || uMax>t.back())] *)
Definition out_of_range (t : list R) (uMin uMax : R) : bool :=
  Rlt_b uMin (vget t 0) || Rgt_b uMax (last t 0%R).

(** [while(t[iMax]>uMax && iMax>0) { --iMax; }] *)
Fixpoint iMax_loop (t : list R) (uMax : R) (iMax : nat) : nat :=
  match iMax with
  | O => O
  | S j => if Rgt_b (vget t iMax) uMax then iMax_loop t uMax j else iMax
  end.

(** [while(t[iMin]<uMin && iMin<int(t.size())-1) { ++iMin; }]; [fuel] is
    [int(t.size())-1-iMin], the number of steps left before the bound. *)
Fixpoint iMin_loop (t : list R) (uMin : R) (fuel iMin : nat) : nat :=
  match fuel with
  | O => iMin
  | S fuel' => if Rlt_b (vget t iMin) uMin then iMin_loop t uMin fuel' (S iMin) else iMin
  end.

(** The indices at which the two loops stop. *)
Definition iMax_bracket (t : list R) (uMax : R) : Z :=
  Z.of_nat (iMax_loop t uMax (length t - 1)).
Definition iMin_bracket (t : list R) (uMin : R) : Z :=
  Z.of_nat (iMin_loop t uMin (length t - 1) 0).

(** [iMin = std::max(0, iMin-3);
     iMax = std::min(int(t.size())-1, std::max(iMin+7, iMax+3));] *)
Definition select_window (t : list R) (uMin uMax : R) : Z * Z :=
  let iMax := iMax_bracket t uMax in
  let iMin := iMin_bracket t uMin in
  let iMin := Z.max 0 (iMin - 3) in
  let iMax := Z.min (Z.of_nat (length t) - 1) (Z.max (iMin + 7) (iMax + 3)) in
  (iMin, iMax).

(** The indices [iMin .. iMax]. *)
Definition window_indices (w : Z * Z) : list nat :=
  seq (Z.to_nat (fst w)) (Z.to_nat (snd w - fst w + 1)).

(** *** [Scri] *)

Record Scri : Type := mkScri { t : list R; slices : list SliceModes }.

Definition slice_at (S : Scri) (i : nat) : SliceModes :=
  nth i (slices S) (SliceModes_of_ellMax 0).

(** Step (0) of [Scri::BMSTransformation]: the required times, the range
    test and the window of original slices. *)
Definition Scri_BMSTransformation_window (S : Scri) (u0 : R) (delta : Modes)
  : result (DataGrid * (Z * Z)) :=
  let n_theta := 2 * SliceModes_EllMax (slice_at S 0) + 1 in
  let n_phi := n_theta in
  let u := DataGrid_radd u0 (DataGrid_of_Modes delta n_theta n_phi) in
  let '(uMax, uMin) := u_extent u (n_theta * n_phi) in
  if out_of_range (t S) uMin uMax then Throw GWFrames_ValueError
  else Ok (u, select_window (t S) uMin uMax).

(** *** The calls of the GSL cubic spline

    GSL is not part of the repository.  Its calls are read with the
    failures its manual gives them: [gsl_spline_alloc] with
    [gsl_interp_cspline] fails for fewer than three points,
    [gsl_spline_init] for abscissae that are not strictly increasing, and
    [gsl_spline_eval] for a point outside the interval of the abscissae.
    A failure goes to the error handler of GSL; [Scri.cpp] installs none,
    and the default one aborts the program. *)

(** [gsl_spline_alloc(gsl_interp_cspline, size)] *)
Definition gsl_spline_alloc (size : nat) : result unit :=
  if (size <? 3)%nat then Throw GSL_abort else Ok tt.

Fixpoint strictly_increasing (x : list R) : bool :=
  match x with
  | [] => true
  | a :: x' =>
      match x' with
      | [] => true
      | b :: _ => Rlt_b a b && strictly_increasing x'
      end
  end.

(** [gsl_spline_init(spline, xa, ya, size)] *)
Definition gsl_spline_init (xa : list R) : result unit :=
  if strictly_increasing xa then Ok tt else Throw GSL_abort.

(** [gsl_spline_eval(spline, x, acc)] on a spline initialised with [xa], [ya] *)
Definition gsl_spline_eval_at (xa ya : list R) (x : R) : result R :=
  if Rlt_b x (vget xa 0) || Rgt_b x (last xa 0%R) then Throw GSL_abort
  else Ok (gsl_spline_eval X xa ya x).

(** The value of the two splines of one grid point, real and imaginary
    parts over the window, when no call fails. *)
Definition spline_value (u_original : list R) (samples : list complex) (u_i : R)
  : complex :=
  mkC (gsl_spline_eval X u_original (map real samples) u_i)
      (gsl_spline_eval X u_original (map imag samples) u_i).

(** [gsl_spline_init(splineRe, ...); gsl_spline_init(splineIm, ...);
     complex<double>(gsl_spline_eval(splineRe, u_i, accRe),
                     gsl_spline_eval(splineIm, u_i, accIm))] *)
Definition interpolate_point (u_original : list R) (samples : list complex) (u_i : R)
  : result complex :=
  initRe <- gsl_spline_init u_original ;;
  initIm <- gsl_spline_init u_original ;;
  re <- gsl_spline_eval_at u_original (map real samples) u_i ;;
  im <- gsl_spline_eval_at u_original (map imag samples) u_i ;;
  Ok (mkC re im).

(** [SliceOfScri<DataGrid>(size)] *)
Definition SliceGrid_of_size (size : Z) : SliceGrid :=
  let mk s := let g := DataGrid_of_size X size in
              mkDataGrid s (n_theta g) (n_phi g) (dg_data g) in
  mkSlice (mk 2) (mk 1) (mk 0) (mk (-1)) (mk (-2)) (mk 2) (mk 2).

Definition DataGrid_set (g : DataGrid) (i : nat) (x : complex) : DataGrid :=
  mkDataGrid (dg_s g) (n_theta g) (n_phi g) (upd i x (dg_data g)).

(** [Scri::BMSTransformation(u0, v, delta)].  Step (2) reads [u[i_g]] and
    [transformedslices[i_s][i_D][i_g]] over the grid of the first slice of
    the window; where that grid is larger than the one of [u] or of
    another slice, the source reads past the end of a vector.  Such a read
    is left to the convention of this file (the default value); what is
    proved about the result is proved for grids of one size. *)
Definition Scri_BMSTransformation (S : Scri) (u0 : R) (v : ThreeVector) (delta : Modes)
  : result SliceModes :=
  uw <- Scri_BMSTransformation_window S u0 delta ;;
  let '(u, w) := uw in
  (* (1) transformed data on the grids of the final frame *)
  let u_original := map (vget (t S)) (window_indices w) in
  transformedslices <-
    mapM (fun i => BMSTransformationOnSlice (slice_at S i) (vget (t S) i) v delta)
         (window_indices w) ;;
  let first := nth 0 transformedslices (SliceGrid_of_size 0) in
  let n_theta2 := N_theta (slice_get first 0) in
  let n_phi2 := N_phi (slice_get first 0) in
  (* (2) interpolation to the new retarded time *)
  splineRe <- gsl_spline_alloc (length u_original) ;;
  splineIm <- gsl_spline_alloc (length u_original) ;;
  BMStransformedGrid <-
    foldM
      (fun G i_g =>
         let u_i := real (cget (dg_data u) i_g) in
         foldM
           (fun G i_D =>
              x <- interpolate_point u_original
                     (map (fun sl => cget (dg_data (slice_get sl i_D)) i_g) transformedslices)
                     u_i ;;
              Ok (slice_set G i_D (DataGrid_set (slice_get G i_D) i_g x)))
           (seq 0 7) G)
      (seq 0 (length (grid_points n_theta2 n_phi2)))
      (SliceGrid_of_size (n_theta2 * n_phi2)) ;;
  (* (3) back to spectral space *)
  Ok (fold_left
        (fun B i_D => slice_set B i_D (Modes_of_DataGrid (slice_get BMStransformedGrid i_D) (Modes_L X)))
        (seq 0 7)
        (SliceModes_of_ellMax (SliceModes_EllMax (slice_at S 0)))).

(** *** [SuperMomenta] *)

Record SuperMomenta : Type := mkSuperMomenta { sm_t : list R; Psi : list Modes }.

(** [SuperMomenta(const Scri& scri)] *)
Definition SuperMomenta_of_Scri (S : Scri) : result SuperMomenta :=
  Ps <- mapM (fun i => SuperMomentum (slice_at S i)) (seq 0 (length (t S))) ;;
  Ok (mkSuperMomenta (t S) Ps).

Definition Psi_at (SM : SuperMomenta) (i : nat) : Modes :=
  nth i (Psi SM) (Modes_of_size 0).

(** [SuperMomenta::BMSTransform(OneOverK, delta)].  The range test scans
    [n_theta*n_phi] samples of [u]; step (2) reads [u[i_g]] over the grid
    of the product [(Psi[i] - ...)*OneOverK.pow(3)], which is larger as
    soon as the cube of [1/K] has a degree above [0]: the source then
    reads [u] past its end.  Such a read is left to the convention of this
    file (the default value); what is proved about the result of step (2)
    is proved for grids of one size. *)
Definition SuperMomenta_BMSTransform (SM : SuperMomenta) (OneOverK delta : Modes)
  : result Modes :=
  let n_theta := 2 * EllMax (Psi_at SM 0) + 1 in
  let n_phi := n_theta in
  let v := vFromOneOverK OneOverK in
  (* (0) the window *)
  let u := DataGrid_of_Modes delta n_theta n_phi in
  let '(uMax, uMin) := u_extent u (n_theta * n_phi) in
  if out_of_range (sm_t SM) uMin uMax then Throw GWFrames_ValueError
  else
    let w := select_window (sm_t SM) uMin uMax in
    (* (1) transformed data on the grids of the final frame *)
    let u_original := map (vget (sm_t SM)) (window_indices w) in
    transformedslices <-
      mapM (fun i =>
              d <- Modes_sub (Psi_at SM i) (Modes_edth2edthbar2 delta) ;;
              p <- Modes_mul d (Modes_pow X OneOverK 3) ;;
              DataGrid_boosted p v n_theta n_phi)
           (window_indices w) ;;
    let first := nth 0 transformedslices (DataGrid_of_size X 0) in
    let n_theta2 := N_theta first in
    let n_phi2 := N_phi first in
    (* (2) interpolation to the new retarded time *)
    splineRe <- gsl_spline_alloc (length u_original) ;;
    splineIm <- gsl_spline_alloc (length u_original) ;;
    BMStransformedGrid <-
      foldM
        (fun G i_g =>
           let u_i := real (cget (dg_data u) i_g) in
           x <- interpolate_point u_original
                  (map (fun sl => cget (dg_data sl) i_g) transformedslices) u_i ;;
           Ok (DataGrid_set G i_g x))
        (seq 0 (length (grid_points n_theta2 n_phi2)))
        (DataGrid_of_size X (n_theta2 * n_phi2)) ;;
    (* (3) back to spectral space *)
    Ok (Modes_of_DataGrid BMStransformedGrid (Modes_L X)).

(** The update of [delta] in [SuperMomenta::MoreschiIteration]:
    [for(i_m=4, ell=2; ell<=ellMax; ++ell) { factor = 4.0/(...);
       for(m=-ell; m<=ell; ++m, ++i_m) delta[i_m] = factor*deltaderiv[i_m]; }] *)
Definition delta_step (deltaderiv delta : Modes) : Modes :=
  let ellMax := EllMax delta in
  fold_left
    (fun d '(i_m, (ell, m)) =>
       let factor := (4.0 / ((IZR ell - 1.0) * IZR ell * (IZR ell + 1.0) * (IZR ell + 2.0)))%R in
       Modes_set d i_m (RmulC factor (cget (m_data deltaderiv) i_m)))
    (lm_indexed 4 2 ellMax) delta.

(** [SuperMomenta::MoreschiIteration(Modes& OneOverK, Modes& delta)] *)
Definition SuperMomenta_MoreschiIteration (SM : SuperMomenta) : byref unit :=
  K <~ read OneOverK ;;
  d <~ read delta ;;
  Psi_i <~ lift (SuperMomenta_BMSTransform SM K d) ;;
  let p := FourMomentum_of Psi_i in
  let M := Mass_of p in
  (* the next delta *)
  dg <~ lift (Modes_add Psi_i
               (Modes_of_DataGrid
                  (DataGrid_rdiv M (DataGrid_pow (DataGrid_of_Modes K 7 7) 3)) (Modes_L X))) ;;
  let deltaderiv := dg in
  d <~ read delta ;; set_delta (delta_step deltaderiv d) ;;;
  (* the next OneOverK *)
  K <~ read OneOverK ;; set_OneOverK (Modes_set K 0 (CdivR (cget (m_data Psi_i) 0) M)) ;;;
  K <~ read OneOverK ;;
  set_OneOverK (Modes_set K 1 (CdivR (Cneg (cget (m_data Psi_i) 1)) (3 * M))) ;;;
  K <~ read OneOverK ;;
  set_OneOverK (Modes_set K 2 (CdivR (Cneg (cget (m_data Psi_i) 2)) (3 * M))) ;;;
  K <~ read OneOverK ;;
  set_OneOverK (Modes_set K 3 (CdivR (Cneg (cget (m_data Psi_i) 3)) (3 * M))) ;;;
  ret tt.

End Fields.

(** ** Concrete inputs

    The properties below hold for every choice of the external numerics.
    To run the code on concrete inputs one choice is fixed: every call of a
    transform kernel, of a harmonic and of the spline returns the same
    number [c]; [Modes::pow] returns its argument, [L] defaults to [-1],
    [DataGrid(size)] is a square grid of [size] zeros, and the first test
    of [Boost] passes up to [|v| = 7.5e-9]. *)

Definition binary64_threshold : Binary64.
Proof.
  refine (mkBinary64 (fun v => negb (Rgt_b (norm3 v) 7.5e-9)) _ _);
    intros v H; unfold Rgt_b; destruct (Rgt_dec (norm3 v) 7.5e-9) as [Hgt | Hle];
    cbn [negb]; try reflexivity; exfalso; lra.
Defined.

Definition constant_Externals (c : complex) : Externals :=
  mkExternals
    binary64_threshold
    (fun _ _ _ _ _ _ => c)
    (fun _ _ _ _ _ _ => c)
    (fun _ _ _ _ => c)
    (fun _ _ _ => real c)
    (fun M _ => M)
    (-1)
    (fun size => mkDataGrid 0 (Z.sqrt size) (Z.sqrt size) (repeat zero (Z.to_nat size))).

Definition ones_Externals : Externals := constant_Externals (mkC 1 0).

(** The same numerics with a power of degree [0]: [Modes::pow] returns a
    field of one coefficient. *)
Definition monopole_pow_Externals : Externals :=
  mkExternals
    (binary64 ones_Externals) (spinsfast_salm2map ones_Externals)
    (spinsfast_map2salm ones_Externals) (SWSH ones_Externals)
    (gsl_spline_eval ones_Externals)
    (fun M _ => mkModes (m_s M) 0 [mkC 1 0])
    (Modes_L ones_Externals) (DataGrid_of_size ones_Externals).

(** A grid of three by seven zeros. *)
Definition grid_3x7 : DataGrid := mkDataGrid 0 3 7 (repeat zero 21).

(** Two one-point grids of spins [0] and [2]. *)
Definition grid_spin0 : DataGrid := mkDataGrid 0 1 1 [mkC 1 0].
Definition grid_spin2 : DataGrid := mkDataGrid 2 1 1 [mkC 1 0].

(** A scalar field with [ellMax = 1] and coefficients [1, 2, 3, 4]. *)
Definition modes_spin0 : Modes :=
  mkModes 0 1 [mkC 1 0; mkC 2 0; mkC 3 0; mkC 4 0].

(** Two spectral fields with [ellMax = 1], spins [2] and [-2]. *)
Definition modes_spin2 : Modes := mkModes 2 1 (repeat zero 4).
Definition modes_spinm2 : Modes := mkModes (-2) 1 (repeat zero 4).

(** A series of three times, and one of twelve. *)
Definition times_012 : list R := [0%R; 1%R; 2%R].
Definition times_0_11 : list R :=
  [0; 1; 2; 3; 4; 5; 6; 7; 8; 9; 10; 11]%R.

(** The supermomentum as C2 words it, with [edthbar] applied to the time
    derivative of the shear before the conjugation:
    [psi2 + sigma*sigmadot.edthbar().bar() + sigma.bar().edth().edth()]. *)
Definition SuperMomentum_as_claimed (X : Externals) (S : SliceModes) : result Modes :=
  a <- Modes_mul X (sigma S) (Modes_bar (Modes_edthbar (sigmadot S))) ;;
  b <- Modes_add (psi2 S) a ;;
  Modes_add b (Modes_edth (Modes_edth (Modes_bar (sigma S)))).

(** The spins a slice is built with. *)
Definition slice_spins (S : SliceModes) : Prop :=
  m_s (psi0 S) = 2%Z /\ m_s (psi1 S) = 1%Z /\ m_s (psi2 S) = 0%Z /\
  m_s (psi3 S) = (-1)%Z /\ m_s (psi4 S) = (-2)%Z /\
  m_s (sigma S) = 2%Z /\ m_s (sigmadot S) = 2%Z.

(** The empty slice of degree 1, and a pair of empty referenced objects. *)
Definition slice_ell1 : SliceModes := SliceModes_of_ellMax 1.
Definition frame_empty : Frame := mkFrame (Modes_of_size 0) (Modes_of_size 0).

(** A grid with [n_t] by [n_p] points and as many samples. *)
Definition sized (n_t n_p : Z) (g : DataGrid) : Prop :=
  n_theta g = n_t /\ n_phi g = n_p /\ length (dg_data g) = Z.to_nat (n_p * n_t).

(** The sample of a grid at a storage index. *)
Definition sample (g : DataGrid) (i : nat) : complex := cget (dg_data g) i.

(** The transformation law of C8 at one grid point, in the words of the
    claim: [k] is the sample of [1/K], [e] the sample of [edth(u')/K]. *)
Definition psi4_law (k p4 : complex) : complex :=
  Cmul (Cpow k 3) p4.
Definition psi3_law (k e p3 p4 : complex) : complex :=
  Cmul (Cpow k 3) (Csub p3 (Cmul e p4)).
Definition psi2_law (k e p2 p3 p4 : complex) : complex :=
  Cmul (Cpow k 3) (Csub p2 (Cmul e (Csub (RmulC 2 p3) (Cmul e p4)))).
Definition psi1_law (k e p1 p2 p3 p4 : complex) : complex :=
  Cmul (Cpow k 3)
       (Csub p1 (Cmul e (Csub (RmulC 3 p2) (Cmul e (Csub (RmulC 3 p3) (Cmul e p4)))))).
Definition psi0_law (k e p0 p1 p2 p3 p4 : complex) : complex :=
  Cmul (Cpow k 3)
       (Csub p0 (Cmul e (Csub (RmulC 4 p1)
                   (Cmul e (Csub (RmulC 6 p2)
                      (Cmul e (Csub (RmulC 4 p3) (Cmul e p4)))))))).
Definition sigma_law (k sg ethethdelta : complex) : complex :=
  Cmul k (Csub sg ethethdelta).
Definition sigmadot_law (k sgd : complex) : complex :=
  Cmul sgd (Cpow k 2).

(** All seven grids of a bundle have one size. *)
Definition slice_sized (n : Z) (G : SliceGrid) : Prop :=
  sized n n (psi0 G) /\ sized n n (psi1 G) /\ sized n n (psi2 G) /\
  sized n n (psi3 G) /\ sized n n (psi4 G) /\
  sized n n (sigma G) /\ sized n n (sigmadot G).

(** A supertranslation of degree 1 with no content. *)
Definition delta_ell1 : Modes := mkModes 0 1 (repeat zero 4).

(** A supermomentum track of three slices of degree 1 at the times
    [0, 1, 2], and a frame estimate with [1/K = 1] and no supertranslation. *)
Definition track_012 : SuperMomenta :=
  mkSuperMomenta times_012
    [mkModes 0 1 (repeat zero 4); mkModes 0 1 (repeat zero 4); mkModes 0 1 (repeat zero 4)].
Definition frame_rest : Frame :=
  mkFrame (mkModes 0 1 [mkC 1 0; zero; zero; zero]) delta_ell1.


(** A grid of two required times, [1] and [2]. *)
Definition grid_u_12 : DataGrid := mkDataGrid 0 1 2 [mkC 1 0; mkC 2 0].

(** ** Further notions used by the properties of the rest of the file *)

(** The representation invariant of a grid: as many samples as grid points. *)
Definition grid_ok (g : DataGrid) : Prop :=
  Z.of_nat (length (dg_data g)) = (n_theta g * n_phi g)%Z.

(** Two grids on the same points. *)
Definition same_grid (A B : DataGrid) : Prop :=
  n_theta A = n_theta B /\ n_phi A = n_phi B.

(** [Modes(const int spin, const std::vector<std::complex<double> >& Data)].
    The bound [SphericalFunctions::ellMax] of the table of recognised
    lengths is a constant of another library and is taken as an argument.

    [for(; ellMax<=SphericalFunctions::ellMax; ++ellMax)
       if(N_lm(ellMax)==int(Data.size())) break;]
    with [fuel] the number of values of [ellMax] still to try. *)
Fixpoint find_ellMax (size : Z) (fuel : nat) (ellMax : Z) : Z :=
  match fuel with
  | O => ellMax
  | S fuel' =>
      if (N_lm ellMax =? size)%Z then ellMax
      else find_ellMax size fuel' (ellMax + 1)
  end.

Definition Modes_of_data (SphericalFunctions_ellMax : Z) (spin : Z)
  (Data : list complex) : result Modes :=
  let ellMax :=
    find_ellMax (Z.of_nat (length Data))
                (Z.to_nat (SphericalFunctions_ellMax + 1)) 0 in
  if (SphericalFunctions_ellMax <=? ellMax)%Z
  then Throw GWFrames_VectorSizeMismatch
  else Ok (mkModes spin ellMax Data).

(** ** The constructor of [Scri] *)

(** Modelled from the spec: the input waveform container is an external
    collaborator ("an input waveform type exposing, per time index and per
    (l,m) mode index, a complex sample and its time derivative, plus
    NTimes() and EllMax() accessors"); it is given here by the members
    [Scri.cpp] calls.  [FindModeIndex] is left free to raise. *)
Record Waveform : Type := mkWaveform {
  wf_T : list R;                          (** [T()] *)
  wf_NTimes : Z;                          (** [NTimes()] *)
  wf_EllMax : Z;                          (** [EllMax()] *)
  wf_FindModeIndex : Z -> Z -> result Z;  (** [FindModeIndex(ell, m)] *)
  wf_Data : Z -> nat -> complex;          (** [Data(i_mode, i_t)] *)
  wf_DataDot : Z -> list complex          (** [DataDot(i_mode)] *)
}.

(** [slice[k][i_ellm] = x] *)
Definition slice_assign (S : SliceModes) (k i_ellm : nat) (x : complex) : SliceModes :=
  slice_set S k (Modes_set (slice_get S k) i_ellm x).

(** The first loop nest on one slice: everything but [sigmadot]. *)
Definition Scri_fill_slice (psi0 psi1 psi2 psi3 psi4 sigma : Waveform)
  (ellMax : Z) (i_t : nat) (slice : SliceModes) : result SliceModes :=
  foldM
    (fun slice '(i_ellm, (ell, m)) =>
       j <- wf_FindModeIndex psi0 ell m ;;
       let slice := slice_assign slice 0 i_ellm (wf_Data psi0 j i_t) in
       j <- wf_FindModeIndex psi1 ell m ;;
       let slice := slice_assign slice 1 i_ellm (wf_Data psi1 j i_t) in
       j <- wf_FindModeIndex psi2 ell m ;;
       let slice := slice_assign slice 2 i_ellm (wf_Data psi2 j i_t) in
       j <- wf_FindModeIndex psi3 ell m ;;
       let slice := slice_assign slice 3 i_ellm (wf_Data psi3 j i_t) in
       j <- wf_FindModeIndex psi4 ell m ;;
       let slice := slice_assign slice 4 i_ellm (wf_Data psi4 j i_t) in
       j <- wf_FindModeIndex sigma ell m ;;
       Ok (slice_assign slice 5 i_ellm (wf_Data sigma j i_t)))
    (lm_indexed 0 0 ellMax) slice.

(** The second loop nest: [sigmadot], mode by mode over all the times. *)
Definition Scri_fill_sigmadot (sigma : Waveform) (ellMax : Z) (ntimes : nat)
  (slices : list SliceModes) : result (list SliceModes) :=
  foldM
    (fun slices '(i_ellm, (ell, m)) =>
       j <- wf_FindModeIndex sigma ell m ;;
       let sigmadot := wf_DataDot sigma j in
       Ok (fold_left
             (fun slices i_t =>
                upd i_t (slice_assign (nth i_t slices (SliceModes_of_ellMax 0))
                                      6 i_ellm (cget sigmadot i_t))
                    slices)
             (seq 0 ntimes) slices))
    (lm_indexed 0 0 ellMax) slices.

(** [Scri(psi0, psi1, psi2, psi3, psi4, sigma)] *)
Definition Scri_of_Waveforms (psi0 psi1 psi2 psi3 psi4 sigma : Waveform)
  : result Scri :=
  let t := wf_T psi0 in
  let slices := repeat (SliceModes_of_ellMax (wf_EllMax psi0)) (length t) in
  if negb (wf_NTimes psi0 =? wf_NTimes psi1)%Z || negb (wf_NTimes psi0 =? wf_NTimes psi2)%Z
     || negb (wf_NTimes psi0 =? wf_NTimes psi3)%Z || negb (wf_NTimes psi0 =? wf_NTimes psi4)%Z
     || negb (wf_NTimes psi0 =? wf_NTimes sigma)%Z
  then Throw GWFrames_VectorSizeMismatch
  else
    let ellMax := wf_EllMax psi0 in
    if negb (ellMax =? wf_EllMax psi1)%Z || negb (ellMax =? wf_EllMax psi2)%Z
       || negb (ellMax =? wf_EllMax psi3)%Z || negb (ellMax =? wf_EllMax psi4)%Z
       || negb (ellMax =? wf_EllMax sigma)%Z
    then Throw GWFrames_VectorSizeMismatch
    else
      let ntimes := length t in
      slices <-
        foldM (fun slices i_t =>
                 slice <- Scri_fill_slice psi0 psi1 psi2 psi3 psi4 sigma ellMax i_t
                            (nth i_t slices (SliceModes_of_ellMax 0)) ;;
                 Ok (upd i_t slice slices))
              (seq 0 ntimes) slices ;;
      slices <- Scri_fill_sigmadot sigma ellMax ntimes slices ;;
      Ok (mkScri t slices).

(** The waveform behind the field [slice[k]]: [sigma] gives both the
    shear and its derivative. *)
Definition waveform_of (psi0 psi1 psi2 psi3 psi4 sigma : Waveform) (k : nat) : Waveform :=
  match k with
  | 0%nat => psi0 | 1%nat => psi1 | 2%nat => psi2 | 3%nat => psi3
  | 4%nat => psi4 | _ => sigma
  end.

(** A loop that assigns [g i_m ell m] at each index it meets. *)
Definition assign_modes (g : nat -> Z -> Z -> complex) (l : list (nat * (Z * Z)))
  (d : Modes) : Modes :=
  fold_left (fun d '(i_m, (ell, m)) => Modes_set d i_m (g i_m ell m)) l d.

(** A waveform of degree 1 over the times [0, 1, 2], every sample [1]. *)
Definition waveform_ones : Waveform :=
  mkWaveform times_012 3 1 (fun ell m => Ok (lm_ind ell m 1))
             (fun _ _ => mkC 1 0) (fun _ => repeat zero 3).

(** The same with one more time reported. *)
Definition waveform_longer : Waveform :=
  mkWaveform times_012 4 1 (fun ell m => Ok (lm_ind ell m 1))
             (fun _ _ => mkC 1 0) (fun _ => repeat zero 3).

(** A series of three empty slices of degree 1 at the times [0, 1, 2]. *)
Definition scri_012 : Scri := mkScri times_012 (repeat (SliceModes_of_ellMax 1) 3).

(** The body of the first loop nest of the constructor once the mode
    indices are known: [find k ell m] is the index the waveform of field
    [k] reports for [(ell, m)]. *)
Definition fill_slice_step (W : nat -> Waveform) (find : nat -> Z -> Z -> Z)
  (i_t : nat) (slice : SliceModes) (x : nat * (Z * Z)) : SliceModes :=
  let '(i_ellm, (ell, m)) := x in
  fold_left (fun sl k => slice_assign sl k i_ellm (wf_Data (W k) (find k ell m) i_t))
            (seq 0 6) slice.

(** The body of the second loop nest for one mode. *)
Definition fill_sigmadot_step (sigma : Waveform) (find : Z -> Z -> Z) (ntimes : nat)
  (slices : list SliceModes) (x : nat * (Z * Z)) : list SliceModes :=
  let '(i_ellm, (ell, m)) := x in
  fold_left
    (fun slices i_t =>
       upd i_t (slice_assign (nth i_t slices (SliceModes_of_ellMax 0))
                             6 i_ellm (cget (wf_DataDot sigma (find ell m)) i_t))
           slices)
    (seq 0 ntimes) slices.

(** * Properties *)

Unset Implicit Arguments.

(** ** Basic facts *)

Lemma Rlt_b_true (x y : R) : (x < y)%R -> Rlt_b x y = true.
Proof. intros H. unfold Rlt_b. destruct (Rlt_dec x y); [reflexivity | contradiction]. Qed.

Lemma Rlt_b_false (x y : R) : (y <= x)%R -> Rlt_b x y = false.
Proof. intros H. unfold Rlt_b. destruct (Rlt_dec x y); [lra | reflexivity]. Qed.

Lemma Rgt_b_true (x y : R) : (x > y)%R -> Rgt_b x y = true.
Proof. intros H. unfold Rgt_b. destruct (Rgt_dec x y); [reflexivity | contradiction]. Qed.

Lemma Rgt_b_false (x y : R) : (x <= y)%R -> Rgt_b x y = false.
Proof. intros H. unfold Rgt_b. destruct (Rgt_dec x y); [lra | reflexivity]. Qed.


Lemma sqrt_of_square (x y : R) : (0 <= y)%R -> x = (y * y)%R -> sqrt x = y.
Proof. intros Hy ->. apply sqrt_square; assumption. Qed.

Lemma complex_eq (a b : complex) : real a = real b -> imag a = imag b -> a = b.
Proof. destruct a, b; simpl; intros -> ->; reflexivity. Qed.

Lemma Cadd_zero_r (a : complex) : Cadd a zero = a.
Proof. apply complex_eq; simpl; ring. Qed.

Lemma Cadd_zero_l (a : complex) : Cadd zero a = a.
Proof. apply complex_eq; simpl; ring. Qed.

Lemma Cadd_comm (a b : complex) : Cadd a b = Cadd b a.
Proof. apply complex_eq; simpl; ring. Qed.

(** ** The boost rotor *)

Section BoostFacts.
Local Open Scope R_scope.

Lemma norm3_zero (n : list R) :
  vget n 0 = 0 -> vget n 1 = 0 -> vget n 2 = 0 -> norm3 n = 0.
Proof.
  intros H0 H1 H2. unfold norm3. rewrite H0, H1, H2.
  replace (0 * 0 + 0 * 0 + 0 * 0) with 0 by ring. apply sqrt_0.
Qed.

Lemma Boost_of_negligible (F : Binary64) (v n : ThreeVector) :
  Boost_negligible F v = true -> Boost F v n = Ok (mkQ 1 0 0 0).
Proof. intros H. unfold Boost. rewrite H. reflexivity. Qed.

Lemma Boost_negligible_small (F : Binary64) (v : ThreeVector) :
  norm3 v < 1.0e-14 -> Boost_negligible F v = true.
Proof. intros H. apply negligible_below. lra. Qed.



(** The velocity [(3/5, 0, 0)]: [|v| = 3/5], rapidity [ln 2]. *)
Lemma norm3_three_fifths : norm3 [3 / 5; 0; 0] = 3 / 5.
Proof.
  unfold norm3, vget; simpl. apply sqrt_of_square; lra.
Qed.

Lemma Rapidity_three_fifths : Rtrigo_def.exp (Rapidity [3 / 5; 0; 0]) = 2.
Proof.
  unfold Rapidity. cbv zeta. rewrite norm3_three_fifths. unfold acosh.
  replace (sqrt (1 - 3 / 5 * (3 / 5))) with (4 / 5)
    by (symmetry; apply sqrt_of_square; lra).
  replace (1 / (4 / 5)) with (5 / 4) by field.
  replace (sqrt (5 / 4 * (5 / 4) - 1)) with (3 / 4)
    by (symmetry; apply sqrt_of_square; lra).
  replace (5 / 4 + 3 / 4) with 2 by field.
  apply exp_ln. lra.
Qed.




End BoostFacts.

(** ** Spin weights and degrees of the algebra *)

Section Algebra.
Variable X : Externals.
Local Open Scope Z_scope.

Lemma ellMax_from_grid_quot (D : DataGrid) (L : Z) :
  ellMax (Modes_of_DataGrid X D L)
  = Z.max (Z.min (Z.quot (n_theta D - 1) 2) (Z.quot (n_phi D - 1) 2)) L.
Proof. reflexivity. Qed.

Lemma Modes_of_DataGrid_length (D : DataGrid) (L : Z) :
  length (m_data (Modes_of_DataGrid X D L))
  = Z.to_nat (N_lm (ellMax (Modes_of_DataGrid X D L))).
Proof. unfold Modes_of_DataGrid; simpl. rewrite length_map, length_seq. reflexivity. Qed.

(** C3, as the code has it: the degree of a spectral field built from a
    grid with at least one point in each direction is the larger of the
    requested minimum and the smaller of the two per-direction floors. *)
Theorem Modes_of_DataGrid_ellMax (D : DataGrid) (L : Z) :
  1 <= n_theta D -> 1 <= n_phi D ->
  ellMax (Modes_of_DataGrid X D L)
  = Z.max (Z.min ((n_theta D - 1) / 2) ((n_phi D - 1) / 2)) L.
Proof.
  intros Ht Hp. rewrite ellMax_from_grid_quot.
  rewrite !Z.quot_div_nonneg by lia. reflexivity.
Qed.

(** *** Pointwise operators on grids *)

Lemma DataGrid_mul_same_grid (A B : DataGrid) :
  n_theta A = n_theta B -> n_phi A = n_phi B ->
  DataGrid_mul A B
  = Ok (mkDataGrid (dg_s A + dg_s B) (n_theta A) (n_phi A)
                   (pointwise zero Cmul (dg_data A) (dg_data B))).
Proof.
  intros Ht Hp. unfold DataGrid_mul.
  rewrite Ht, Hp, !Z.eqb_refl. reflexivity.
Qed.

Lemma DataGrid_div_same_grid (A B : DataGrid) :
  n_theta A = n_theta B -> n_phi A = n_phi B ->
  DataGrid_div A B
  = Ok (mkDataGrid (dg_s A - dg_s B) (n_theta A) (n_phi A)
                   (pointwise zero Cdiv (dg_data A) (dg_data B))).
Proof.
  intros Ht Hp. unfold DataGrid_div.
  rewrite Ht, Hp, !Z.eqb_refl. reflexivity.
Qed.

Lemma DataGrid_add_same_grid (A B : DataGrid) :
  n_theta A = n_theta B -> n_phi A = n_phi B ->
  DataGrid_add A B
  = Ok (mkDataGrid (dg_s A) (n_theta A) (n_phi A)
                   (pointwise zero Cadd (dg_data A) (dg_data B))).
Proof.
  intros Ht Hp. unfold DataGrid_add.
  rewrite Ht, Hp, !Z.eqb_refl. reflexivity.
Qed.

Lemma DataGrid_sub_same_grid (A B : DataGrid) :
  n_theta A = n_theta B -> n_phi A = n_phi B ->
  DataGrid_sub A B
  = Ok (mkDataGrid (dg_s A) (n_theta A) (n_phi A)
                   (pointwise zero Csub (dg_data A) (dg_data B))).
Proof.
  intros Ht Hp. unfold DataGrid_sub.
  rewrite Ht, Hp, !Z.eqb_refl. reflexivity.
Qed.

(** Whatever a binary operator returns lives on the common grid. *)
Lemma DataGrid_mul_inv (A B C : DataGrid) :
  DataGrid_mul A B = Ok C ->
  n_theta A = n_theta B /\ n_phi A = n_phi B /\
  C = mkDataGrid (dg_s A + dg_s B) (n_theta A) (n_phi A)
                 (pointwise zero Cmul (dg_data A) (dg_data B)).
Proof.
  unfold DataGrid_mul.
  destruct (n_theta B =? n_theta A) eqn:Ht; simpl; [| discriminate].
  destruct (n_phi B =? n_phi A) eqn:Hp; simpl; [| discriminate].
  apply Z.eqb_eq in Ht, Hp. intros H. inversion H. auto.
Qed.

Lemma DataGrid_div_inv (A B C : DataGrid) :
  DataGrid_div A B = Ok C ->
  n_theta A = n_theta B /\ n_phi A = n_phi B /\
  C = mkDataGrid (dg_s A - dg_s B) (n_theta A) (n_phi A)
                 (pointwise zero Cdiv (dg_data A) (dg_data B)).
Proof.
  unfold DataGrid_div.
  destruct (n_theta B =? n_theta A) eqn:Ht; simpl; [| discriminate].
  destruct (n_phi B =? n_phi A) eqn:Hp; simpl; [| discriminate].
  apply Z.eqb_eq in Ht, Hp. intros H. inversion H. auto.
Qed.

Lemma DataGrid_sub_inv (A B C : DataGrid) :
  DataGrid_sub A B = Ok C ->
  n_theta A = n_theta B /\ n_phi A = n_phi B /\
  C = mkDataGrid (dg_s A) (n_theta A) (n_phi A)
                 (pointwise zero Csub (dg_data A) (dg_data B)).
Proof.
  unfold DataGrid_sub.
  destruct (n_theta B =? n_theta A) eqn:Ht; simpl; [| discriminate].
  destruct (n_phi B =? n_phi A) eqn:Hp; simpl; [| discriminate].
  apply Z.eqb_eq in Ht, Hp. intros H. inversion H. auto.
Qed.

(** *** Operators on spectral fields *)

Lemma Modes_add_spin_mismatch (M N : Modes) :
  m_s M <> m_s N -> Modes_add M N = Throw GWFrames_BadWaveformInformation.
Proof.
  intros H. unfold Modes_add. apply Z.eqb_neq in H. rewrite H. reflexivity.
Qed.

Lemma Modes_sub_spin_mismatch (M N : Modes) :
  m_s M <> m_s N -> Modes_sub M N = Throw GWFrames_BadWaveformInformation.
Proof.
  intros H. unfold Modes_sub. apply Z.eqb_neq in H. rewrite H. reflexivity.
Qed.

(** The two grids of a spectral product have the same size,
    [2*(EllMax M + EllMax N) + 1] in each direction. *)
Lemma product_grids (M N : Modes) :
  0 <= EllMax M -> 0 <= EllMax N ->
  let L := EllMax M + EllMax N in
  n_theta (DataGrid_of_Modes X M (2 * L + 1) (2 * L + 1)) = 2 * L + 1 /\
  n_phi (DataGrid_of_Modes X M (2 * L + 1) (2 * L + 1)) = 2 * L + 1 /\
  n_theta (DataGrid_of_Modes X N (2 * L + 1) (2 * L + 1)) = 2 * L + 1 /\
  n_phi (DataGrid_of_Modes X N (2 * L + 1) (2 * L + 1)) = 2 * L + 1.
Proof.
  intros HM HN L. unfold DataGrid_of_Modes. cbn [n_theta n_phi].
  unfold EllMax in *. lia.
Qed.

Lemma product_degree (M N : Modes) :
  0 <= EllMax M -> 0 <= EllMax N ->
  let L := EllMax M + EllMax N in
  Z.max (Z.min (Z.quot (2 * L + 1 - 1) 2) (Z.quot (2 * L + 1 - 1) 2))
        (Z.max (EllMax M) (EllMax N)) = L.
Proof.
  intros HM HN L.
  replace (2 * L + 1 - 1) with (L * 2) by lia.
  rewrite Z.quot_mul by lia. subst L. lia.
Qed.

Lemma Modes_mul_total (M N : Modes) :
  0 <= EllMax M -> 0 <= EllMax N ->
  exists P, Modes_mul X M N = Ok P /\
            m_s P = m_s M + m_s N /\
            ellMax P = EllMax M + EllMax N /\
            length (m_data P) = Z.to_nat (N_lm (EllMax M + EllMax N)).
Proof.
  intros HM HN. destruct (product_grids M N HM HN) as (H1 & H2 & H3 & H4).
  unfold Modes_mul. rewrite DataGrid_mul_same_grid by congruence.
  cbn [bind]. eexists. split; [reflexivity |].
  cbn [m_s ellMax m_data]. rewrite Modes_of_DataGrid_length, ellMax_from_grid_quot.
  cbn [n_theta n_phi]. rewrite H1, H2, (product_degree M N HM HN). auto.
Qed.

Lemma Modes_div_total (M N : Modes) :
  0 <= EllMax M -> 0 <= EllMax N ->
  exists P, Modes_div X M N = Ok P /\
            m_s P = m_s M - m_s N /\
            ellMax P = EllMax M + EllMax N /\
            length (m_data P) = Z.to_nat (N_lm (EllMax M + EllMax N)).
Proof.
  intros HM HN. destruct (product_grids M N HM HN) as (H1 & H2 & H3 & H4).
  unfold Modes_div. rewrite DataGrid_div_same_grid by congruence.
  cbn [bind]. eexists. split; [reflexivity |].
  cbn [m_s ellMax m_data]. rewrite Modes_of_DataGrid_length, ellMax_from_grid_quot.
  cbn [n_theta n_phi]. rewrite H1, H2, (product_degree M N HM HN). auto.
Qed.

(** C5, as the code has it: on identical grids the product and the
    quotient of two grids carry the sum and the difference of the spins;
    the sum and the difference of two grids do not look at the spins and
    return a grid with the spin of the left operand; the sum and the
    difference of two spectral fields raise on a spin mismatch. *)
Theorem field_arithmetic_spin (A B : DataGrid) (M N : Modes) :
  n_theta A = n_theta B -> n_phi A = n_phi B -> m_s M <> m_s N ->
  (exists C, DataGrid_mul A B = Ok C /\ dg_s C = dg_s A + dg_s B) /\
  (exists C, DataGrid_div A B = Ok C /\ dg_s C = dg_s A - dg_s B) /\
  (exists C, DataGrid_add A B = Ok C /\ dg_s C = dg_s A) /\
  (exists C, DataGrid_sub A B = Ok C /\ dg_s C = dg_s A) /\
  Modes_add M N = Throw GWFrames_BadWaveformInformation /\
  Modes_sub M N = Throw GWFrames_BadWaveformInformation.
Proof.
  intros Ht Hp Hs.
  rewrite DataGrid_mul_same_grid, DataGrid_div_same_grid,
          DataGrid_add_same_grid, DataGrid_sub_same_grid by assumption.
  repeat split; try (eexists; split; reflexivity).
  - apply Modes_add_spin_mismatch; assumption.
  - apply Modes_sub_spin_mismatch; assumption.
Qed.

(** C10, as the code has it: the product and the quotient of two spectral
    fields of non-negative degree carry the sum and the difference of the
    spins and the SUM of the two degrees: the second argument of
    [Modes(DataGrid, L)] is a lower bound, and the grid of resolution
    [2*(EllMax M + EllMax N) + 1] already gives [EllMax M + EllMax N]. *)
Theorem Modes_product_degree (M N : Modes) :
  0 <= EllMax M -> 0 <= EllMax N ->
  (let L := EllMax M + EllMax N in
   n_theta (DataGrid_of_Modes X M (2 * L + 1) (2 * L + 1)) = 2 * L + 1 /\
   n_phi (DataGrid_of_Modes X M (2 * L + 1) (2 * L + 1)) = 2 * L + 1 /\
   n_theta (DataGrid_of_Modes X N (2 * L + 1) (2 * L + 1)) = 2 * L + 1 /\
   n_phi (DataGrid_of_Modes X N (2 * L + 1) (2 * L + 1)) = 2 * L + 1) /\
  (exists P, Modes_mul X M N = Ok P /\
             m_s P = m_s M + m_s N /\
             ellMax P = EllMax M + EllMax N /\
             length (m_data P) = Z.to_nat (N_lm (EllMax M + EllMax N))) /\
  (exists Q, Modes_div X M N = Ok Q /\
             m_s Q = m_s M - m_s N /\
             ellMax Q = EllMax M + EllMax N /\
             length (m_data Q) = Z.to_nat (N_lm (EllMax M + EllMax N))).
Proof.
  intros HM HN. split; [apply product_grids; assumption |].
  split; [apply Modes_mul_total | apply Modes_div_total]; assumption.
Qed.

End Algebra.

Lemma Modes_of_DataGrid_ellMax_witness :
  ellMax (Modes_of_DataGrid (constant_Externals zero) grid_3x7 0)
  = Z.max (Z.min ((3 - 1) / 2) ((7 - 1) / 2)) 0.
Proof.
  apply (Modes_of_DataGrid_ellMax (constant_Externals zero) grid_3x7 0);
    simpl; lia.
Defined.

(** C3 as stated fails: a 3 by 7 grid with requested minimum 0 gives
    degree 1, while the larger of the two floors is 3. *)
Lemma Modes_of_DataGrid_ellMax_counterexample :
  ellMax (Modes_of_DataGrid (constant_Externals zero) grid_3x7 0) = 1%Z /\
  ellMax (Modes_of_DataGrid (constant_Externals zero) grid_3x7 0)
  <> Z.max (Z.max ((n_theta grid_3x7 - 1) / 2) ((n_phi grid_3x7 - 1) / 2)) 0.
Proof.
  split; [reflexivity |]. rewrite ellMax_from_grid_quot. simpl. discriminate.
Qed.

Lemma field_arithmetic_spin_witness :
  (exists C, DataGrid_mul grid_spin0 grid_spin2 = Ok C /\ dg_s C = (0 + 2)%Z) /\
  (exists C, DataGrid_div grid_spin0 grid_spin2 = Ok C /\ dg_s C = (0 - 2)%Z) /\
  (exists C, DataGrid_add grid_spin0 grid_spin2 = Ok C /\ dg_s C = 0%Z) /\
  (exists C, DataGrid_sub grid_spin0 grid_spin2 = Ok C /\ dg_s C = 0%Z) /\
  Modes_add modes_spin2 modes_spinm2 = Throw GWFrames_BadWaveformInformation /\
  Modes_sub modes_spin2 modes_spinm2 = Throw GWFrames_BadWaveformInformation.
Proof.
  apply (field_arithmetic_spin grid_spin0 grid_spin2 modes_spin2 modes_spinm2);
    [reflexivity | reflexivity | simpl; discriminate].
Defined.

(** C5 as stated fails: two grids of the same size and of spins 0 and 2
    are added and subtracted without an error. *)
Lemma field_arithmetic_spin_counterexample :
  n_theta grid_spin0 = n_theta grid_spin2 /\
  n_phi grid_spin0 = n_phi grid_spin2 /\
  dg_s grid_spin0 <> dg_s grid_spin2 /\
  DataGrid_add grid_spin0 grid_spin2
  = Ok (mkDataGrid 0 1 1 [Cadd (mkC 1 0) (mkC 1 0)]) /\
  DataGrid_sub grid_spin0 grid_spin2
  = Ok (mkDataGrid 0 1 1 [Csub (mkC 1 0) (mkC 1 0)]).
Proof.
  repeat split; try reflexivity. simpl. discriminate.
Qed.

Lemma Modes_product_degree_witness :
  (let L := (1 + 1)%Z in
   let X := constant_Externals zero in
   n_theta (DataGrid_of_Modes X modes_spin2 (2 * L + 1) (2 * L + 1)) = (2 * L + 1)%Z /\
   n_phi (DataGrid_of_Modes X modes_spin2 (2 * L + 1) (2 * L + 1)) = (2 * L + 1)%Z /\
   n_theta (DataGrid_of_Modes X modes_spinm2 (2 * L + 1) (2 * L + 1)) = (2 * L + 1)%Z /\
   n_phi (DataGrid_of_Modes X modes_spinm2 (2 * L + 1) (2 * L + 1)) = (2 * L + 1)%Z) /\
  (exists P, Modes_mul (constant_Externals zero) modes_spin2 modes_spinm2 = Ok P /\
             m_s P = (2 + -2)%Z /\ ellMax P = (1 + 1)%Z /\
             length (m_data P) = Z.to_nat (N_lm (1 + 1))) /\
  (exists Q, Modes_div (constant_Externals zero) modes_spin2 modes_spinm2 = Ok Q /\
             m_s Q = (2 - -2)%Z /\ ellMax Q = (1 + 1)%Z /\
             length (m_data Q) = Z.to_nat (N_lm (1 + 1))).
Proof.
  apply (Modes_product_degree (constant_Externals zero) modes_spin2 modes_spinm2);
    simpl; lia.
Defined.

(** C10 as stated fails: the product of two fields of degree 1 has degree
    2, not [max 1 1 = 1]. *)
Lemma Modes_product_degree_counterexample :
  exists P, Modes_mul (constant_Externals zero) modes_spin2 modes_spinm2 = Ok P /\
            ellMax P = 2%Z /\
            ellMax P <> Z.max (EllMax modes_spin2) (EllMax modes_spinm2).
Proof.
  eexists. split; [reflexivity |]. split; [reflexivity |]. simpl. discriminate.
Qed.

(** ** Vectors and loops *)

Section VectorFacts.
Variable A : Type.
Variable d : A.

Lemma length_upd (i : nat) (x : A) (v : list A) : length (upd i x v) = length v.
Proof.
  revert i. induction v as [| a v IH]; intros [| i]; simpl; auto.
Qed.

Lemma nth_upd_same (i : nat) (x : A) (v : list A) :
  (i < length v)%nat -> nth i (upd i x v) d = x.
Proof.
  revert i. induction v as [| a v IH]; intros [| i] H; simpl in *; try lia; auto.
  apply IH. lia.
Qed.

Lemma nth_upd_other (i k : nat) (x : A) (v : list A) :
  i <> k -> nth k (upd i x v) d = nth k v d.
Proof.
  revert i k. induction v as [| a v IH]; intros [| i] [| k] H; simpl; auto; try lia.
Qed.

Lemma upd_beyond (i : nat) (x : A) (v : list A) :
  (length v <= i)%nat -> upd i x v = v.
Proof.
  revert i. induction v as [| a v IH]; intros [| i] H; simpl in *; auto; try lia.
  f_equal. apply IH. lia.
Qed.

Lemma length_pointwise (f : A -> A -> A) (B A' : list A) :
  length (pointwise d f B A') = length B.
Proof.
  revert A'. induction B as [| b B IH]; intros A'; simpl; auto.
Qed.

Lemma nth_pointwise (f : A -> A -> A) (B A' : list A) (i : nat) :
  (i < length B)%nat ->
  nth i (pointwise d f B A') d = f (nth i B d) (nth i A' d).
Proof.
  revert A' i. induction B as [| b B IH]; intros A' i H; simpl in *; [lia |].
  destruct i as [| i].
  - destruct A'; reflexivity.
  - rewrite IH by lia. destruct A' as [| a' A']; simpl; [| reflexivity].
    destruct i; reflexivity.
Qed.

Lemma length_map_upto (f : A -> A) (N : nat) (c : list A) :
  length (map_upto f N c) = length c.
Proof.
  revert c. induction N as [| N IH]; intros [| a c]; simpl; auto.
Qed.

Lemma nth_map_upto (f : A -> A) (N : nat) (c : list A) (i : nat) :
  (i < N)%nat -> (i < length c)%nat ->
  nth i (map_upto f N c) d = f (nth i c d).
Proof.
  revert c i. induction N as [| N IH]; intros [| a c] i HN Hc; simpl in *; try lia.
  destruct i as [| i]; [reflexivity |]. apply IH; lia.
Qed.

End VectorFacts.

Lemma nth_map_in {A B : Type} (f : A -> B) (l : list A) (i : nat) (dA : A) (dB : B) :
  (i < length l)%nat -> nth i (map f l) dB = f (nth i l dA).
Proof.
  intros H. rewrite (nth_indep _ dB (f dA)) by (rewrite length_map; exact H).
  apply map_nth.
Qed.

(** The mode loops. *)

Lemma length_m_range (ell : Z) : length (m_range ell) = Z.to_nat (2 * ell + 1).
Proof. unfold m_range. rewrite length_map, length_seq. reflexivity. Qed.

Lemma length_lm_from (n : nat) (ell0 : Z) :
  (0 <= ell0)%Z ->
  Z.of_nat (length (lm_from n ell0))
  = ((ell0 + Z.of_nat n) * (ell0 + Z.of_nat n) - ell0 * ell0)%Z.
Proof.
  revert ell0. induction n as [| n IH]; intros ell0 H.
  - simpl. lia.
  - cbn [lm_from]. rewrite length_app, length_map, length_m_range.
    rewrite Nat2Z.inj_add, IH by lia. lia.
Qed.

(** The pair met at the running index of [(ell, m)]. *)
Lemma nth_lm_from (n : nat) (ell0 ell m : Z) :
  (0 <= ell0)%Z -> (ell0 <= ell < ell0 + Z.of_nat n)%Z -> (- ell <= m <= ell)%Z ->
  nth (Z.to_nat (ell * ell + ell + m - ell0 * ell0)) (lm_from n ell0) (0%Z, 0%Z)
  = (ell, m).
Proof.
  revert ell0. induction n as [| n IH]; intros ell0 H0 Hell Hm; [lia |].
  cbn [lm_from].
  destruct (Z.eq_dec ell ell0) as [-> | Hne].
  - rewrite app_nth1 by (rewrite length_map, length_m_range; lia).
    rewrite (nth_map_in _ _ _ 0%Z) by (rewrite length_m_range; lia).
    f_equal. unfold m_range.
    rewrite (nth_map_in _ _ _ 0%nat) by (rewrite length_seq; lia).
    rewrite seq_nth by lia. lia.
  - assert (Hsq : ((ell0 + 1) * (ell0 + 1) <= ell * ell)%Z) by nia.
    rewrite app_nth2 by (rewrite length_map, length_m_range; lia).
    rewrite length_map, length_m_range.
    replace (Z.to_nat (ell * ell + ell + m - ell0 * ell0) - Z.to_nat (2 * ell0 + 1))%nat
      with (Z.to_nat (ell * ell + ell + m - (ell0 + 1) * (ell0 + 1))) by lia.
    apply IH; lia.
Qed.

Lemma RmulC_zero (x : R) : RmulC x zero = zero.
Proof. unfold RmulC, zero; simpl. f_equal; ring. Qed.

(** A scaling loop multiplies the coefficient at each index it meets by
    the factor of the degree met there, and touches nothing else. *)
Lemma scale_loop_nth (factor : Z -> R) (xs : list (Z * Z)) :
  forall (i0 : nat) (data : list complex) (k : nat),
  cget (fold_left
          (fun d '(i_m, (ell, m)) => upd i_m (RmulC (factor ell) (cget d i_m)) d)
          (combine (seq i0 (length xs)) xs) data) k
  = if ((i0 <=? k) && (k <? i0 + length xs))%nat
    then RmulC (factor (fst (nth (k - i0) xs (0%Z, 0%Z)))) (cget data k)
    else cget data k.
Proof.
  induction xs as [| [ell m] xs IH]; intros i0 data k.
  - simpl. destruct (i0 <=? k)%nat eqn:E; simpl; [| reflexivity].
    replace (k <? i0 + 0)%nat with false; [reflexivity |].
    symmetry. apply Nat.ltb_ge. apply Nat.leb_le in E. lia.
  - cbn [length seq combine fold_left]. rewrite IH.
    destruct (Nat.eq_dec k i0) as [-> | Hne].
    + replace (S i0 <=? i0)%nat with false by (symmetry; apply Nat.leb_gt; lia).
      rewrite Nat.leb_refl.
      replace (i0 <? i0 + S (length xs))%nat with true
        by (symmetry; apply Nat.ltb_lt; lia).
      rewrite Nat.sub_diag. cbn [andb nth fst].
      destruct (Nat.lt_ge_cases i0 (length data)) as [Hlt | Hge].
      * unfold cget at 1. rewrite nth_upd_same by assumption. reflexivity.
      * rewrite upd_beyond by assumption.
        unfold cget. rewrite (nth_overflow data zero Hge), RmulC_zero. reflexivity.
    + assert (Hk : forall x, cget (upd i0 x data) k = cget data k)
        by (intros x; unfold cget; apply nth_upd_other; lia).
      rewrite !Hk.
      destruct (i0 <=? k)%nat eqn:E1.
      * apply Nat.leb_le in E1.
        replace (S i0 <=? k)%nat with true by (symmetry; apply Nat.leb_le; lia).
        replace (k <? i0 + S (length xs))%nat with (k <? S i0 + length xs)%nat
          by (f_equal; lia).
        destruct (k <? S i0 + length xs)%nat; cbn [andb]; [| reflexivity].
        replace (k - i0)%nat with (S (k - S i0)) by lia. reflexivity.
      * apply Nat.leb_gt in E1.
        replace (S i0 <=? k)%nat with false by (symmetry; apply Nat.leb_gt; lia).
        reflexivity.
Qed.

(** The coefficient of [(ell, m)] after a scaling loop over [0 .. L]. *)
Lemma scale_modes_nth (factor : Z -> R) (L : Z) (data : list complex) (ell m : Z) :
  (0 <= ell <= L)%Z -> (- ell <= m <= ell)%Z ->
  cget (scale_modes factor L data) (Z.to_nat (lm_ind ell m L))
  = RmulC (factor ell) (cget data (Z.to_nat (lm_ind ell m L))).
Proof.
  intros Hell Hm. unfold scale_modes, lm_indexed, lm_range.
  rewrite scale_loop_nth. cbn [Nat.leb andb].
  assert (Hlen := length_lm_from (Z.to_nat (L - 0 + 1)) 0 (Z.le_refl 0)).
  assert (Hnth := nth_lm_from (Z.to_nat (L - 0 + 1)) 0 ell m (Z.le_refl 0)).
  unfold lm_ind.
  replace (Z.to_nat (ell * (ell + 1) + m) <? 0 + length (lm_from (Z.to_nat (L - 0 + 1)) 0))%nat
    with true by (symmetry; apply Nat.ltb_lt; nia).
  rewrite Nat.sub_0_r.
  replace (ell * (ell + 1) + m)%Z with (ell * ell + ell + m - 0 * 0)%Z by lia.
  rewrite Hnth by lia. reflexivity.
Qed.

(** ** Spin raising and lowering *)

Section Edth.
Local Open Scope Z_scope.

(** C9: on a spectral field of spin [s], for every degree [ell <= ellMax]
    and order [m], [edth] multiplies the coefficient of [(ell, m)] by
    [sqrt((ell-s)(ell+s+1)/2)] when [ell >= |s+1|] and by [0] otherwise and
    gives spin [s+1]; [edthbar] multiplies it by [-sqrt((ell+s)(ell-s+1)/2)]
    when [ell >= |s-1|] and by [0] otherwise and gives spin [s-1]. *)
Theorem edth_edthbar_coefficients (A : Modes) (ell m : Z) :
  0 <= ell <= ellMax A -> - ell <= m <= ell ->
  let s := m_s A in
  let i := Z.to_nat (lm_ind ell m (ellMax A)) in
  m_s (Modes_edth A) = s + 1 /\
  cget (m_data (Modes_edth A)) i
  = RmulC (if Z.abs (s + 1) <=? ell
           then sqrt (IZR ((ell - s) * (ell + s + 1)) / 2) else 0%R)
          (cget (m_data A) i) /\
  m_s (Modes_edthbar A) = s - 1 /\
  cget (m_data (Modes_edthbar A)) i
  = RmulC (if Z.abs (s - 1) <=? ell
           then (- sqrt (IZR ((ell + s) * (ell - s + 1)) / 2))%R else 0%R)
          (cget (m_data A) i).
Proof.
  intros Hell Hm s i. subst s i.
  unfold Modes_edth, Modes_edthbar. cbn [m_s m_data].
  rewrite !scale_modes_nth by assumption.
  unfold edth_factor, edthbar_factor, Spin.
  repeat split.
  - destruct (Z.ltb_spec ell (Z.abs (m_s A + 1)));
      destruct (Z.leb_spec (Z.abs (m_s A + 1)) ell); try lia; [reflexivity |].
    do 3 f_equal. rewrite mult_IZR, (plus_IZR (ell + m_s A) 1). reflexivity.
  - destruct (Z.ltb_spec ell (Z.abs (m_s A - 1)));
      destruct (Z.leb_spec (Z.abs (m_s A - 1)) ell); try lia; [reflexivity |].
    do 4 f_equal. rewrite mult_IZR, (plus_IZR (ell - m_s A) 1). reflexivity.
Qed.

End Edth.

(** On the scalar field [1, 2, 3, 4]: [edth] removes the [ell = 0]
    coefficient and keeps those of [ell = 1], whose factor is
    [sqrt(1*2/2) = 1]. *)
Example edth_modes_spin0 :
  cget (m_data (Modes_edth modes_spin0)) 0 = mkC 0 0 /\
  cget (m_data (Modes_edth modes_spin0)) 2 = mkC 3 0.
Proof.
  assert (H0 := scale_modes_nth (edth_factor 0) 1 (m_data modes_spin0) 0 0
                  ltac:(lia) ltac:(lia)).
  assert (H1 := scale_modes_nth (edth_factor 0) 1 (m_data modes_spin0) 1 0
                  ltac:(lia) ltac:(lia)).
  change (Z.to_nat (lm_ind 0 0 1)) with 0%nat in H0.
  change (Z.to_nat (lm_ind 1 0 1)) with 2%nat in H1.
  change (m_data (Modes_edth modes_spin0))
    with (scale_modes (edth_factor 0) 1 (m_data modes_spin0)).
  rewrite H0, H1. split.
  - change (edth_factor 0 0) with 0%R. apply complex_eq; simpl; ring.
  - change (edth_factor 0 1) with (sqrt (IZR 1 * (IZR 1 + 1) / 2)).
    replace (IZR 1 * (IZR 1 + 1) / 2)%R with 1%R by field.
    rewrite sqrt_1. apply complex_eq; simpl; ring.
Qed.

Lemma edth_edthbar_coefficients_witness :
  m_s (Modes_edth modes_spin0) = (0 + 1)%Z /\
  cget (m_data (Modes_edth modes_spin0)) (Z.to_nat (lm_ind 1 0 1))
  = RmulC (if (Z.abs (0 + 1) <=? 1)%Z
           then sqrt (IZR ((1 - 0) * (1 + 0 + 1)) / 2) else 0%R)
          (cget (m_data modes_spin0) (Z.to_nat (lm_ind 1 0 1))) /\
  m_s (Modes_edthbar modes_spin0) = (0 - 1)%Z /\
  cget (m_data (Modes_edthbar modes_spin0)) (Z.to_nat (lm_ind 1 0 1))
  = RmulC (if (Z.abs (0 - 1) <=? 1)%Z
           then (- sqrt (IZR ((1 + 0) * (1 - 0 + 1)) / 2))%R else 0%R)
          (cget (m_data modes_spin0) (Z.to_nat (lm_ind 1 0 1))).
Proof.
  apply (edth_edthbar_coefficients modes_spin0 1 0); simpl; lia.
Defined.

(** ** The window of original slices *)

Section Window.
Local Open Scope Z_scope.

Lemma iMax_loop_le (t : list R) (uMax : R) (i : nat) :
  (iMax_loop t uMax i <= i)%nat.
Proof.
  induction i as [| i IH]; simpl; [lia |].
  destruct (Rgt_b (vget t (S i)) uMax); lia.
Qed.

(** Where the downward loop stops: everything above is later than [uMax],
    and the stop is at index [0] or at a time not later than [uMax]. *)
Lemma iMax_loop_stop (t : list R) (uMax : R) (i : nat) :
  let r := iMax_loop t uMax i in
  (r = 0%nat \/ (vget t r <= uMax)%R) /\
  (forall j, (r < j <= i)%nat -> (uMax < vget t j)%R).
Proof.
  induction i as [| i IH]; simpl.
  - split; [left; reflexivity | intros j Hj; lia].
  - unfold Rgt_b. destruct (Rgt_dec (vget t (S i)) uMax) as [Hgt | Hle].
    + destruct IH as [IH1 IH2]. split; [exact IH1 |].
      intros j Hj. destruct (Nat.eq_dec j (S i)) as [-> | Hne]; [exact Hgt |].
      apply IH2. lia.
    + split; [right; lra | intros j Hj; lia].
Qed.

Lemma iMin_loop_bounds (t : list R) (uMin : R) (fuel i : nat) :
  (i <= iMin_loop t uMin fuel i <= i + fuel)%nat.
Proof.
  revert i. induction fuel as [| fuel IH]; intros i; simpl; [lia |].
  destruct (Rlt_b (vget t i) uMin); [| lia].
  specialize (IH (S i)). lia.
Qed.

(** Where the upward loop stops: everything below is earlier than [uMin],
    and the stop is at the last index or at a time not earlier than [uMin]. *)
Lemma iMin_loop_stop (t : list R) (uMin : R) (fuel i : nat) :
  let r := iMin_loop t uMin fuel i in
  (r = (i + fuel)%nat \/ (uMin <= vget t r)%R) /\
  (forall j, (i <= j < r)%nat -> (vget t j < uMin)%R).
Proof.
  revert i. induction fuel as [| fuel IH]; intros i; simpl.
  - split; [left; lia | intros j Hj; lia].
  - unfold Rlt_b. destruct (Rlt_dec (vget t i) uMin) as [Hlt | Hge].
    + destruct (IH (S i)) as [IH1 IH2]. split.
      * destruct IH1 as [IH1 | IH1]; [left; lia | right; exact IH1].
      * intros j Hj. destruct (Nat.eq_dec j i) as [-> | Hne]; [exact Hlt |].
        apply IH2. lia.
    + split; [right; lra | intros j Hj; lia].
Qed.

Lemma last_is_nth (t : list R) : last t 0%R = vget t (length t - 1).
Proof.
  unfold vget. induction t as [| a t IH]; [reflexivity |].
  destruct t as [| b t]; [reflexivity |].
  change (last (a :: b :: t) 0%R) with (last (b :: t) 0%R). rewrite IH.
  simpl. rewrite Nat.sub_0_r. reflexivity.
Qed.

Lemma out_of_range_false (t : list R) (uMin uMax : R) :
  out_of_range t uMin uMax = false ->
  (vget t 0 <= uMin)%R /\ (uMax <= vget t (length t - 1))%R.
Proof.
  unfold out_of_range, Rlt_b, Rgt_b. rewrite last_is_nth.
  destruct (Rlt_dec uMin (vget t 0)); [discriminate |].
  destruct (Rgt_dec uMax (vget t (length t - 1))); [discriminate |].
  intros _. split; lra.
Qed.

(** C7, as the code has it.  Once the range [[uMin, uMax]] has passed the
    test against [[t.front(), t.back()]], the two loops stop at the
    bracketing indices ([b_lo]: the first time not before [uMin]; [b_hi]:
    the last time not after [uMax]), and the window is exactly
    [iMin = max(0, b_lo-3)] and
    [iMax = min(NTimes-1, max(iMin+7, b_hi+3))].  So it stays inside
    [[0, NTimes-1]]; it starts three slices below [b_lo] unless that is
    before the first slice, where it starts at [0]; and it ends three
    slices above [b_hi] or seven above its own start (eight slices),
    whichever is later, unless that is past the last slice, where it ends
    at [NTimes-1].  The margins and the width give way to the clip at
    both ends alike. *)
Theorem select_window_spec (t : list R) (uMin uMax : R) :
  t <> [] -> out_of_range t uMin uMax = false -> (uMin <= uMax)%R ->
  let N := Z.of_nat (length t) in
  let b_lo := iMin_bracket t uMin in
  let b_hi := iMax_bracket t uMax in
  let iMin := fst (select_window t uMin uMax) in
  let iMax := snd (select_window t uMin uMax) in
  (0 <= b_lo <= N - 1 /\ (uMin <= vget t (Z.to_nat b_lo))%R /\
   forall j, (j < Z.to_nat b_lo)%nat -> (vget t j < uMin)%R) /\
  (0 <= b_hi <= N - 1 /\ (vget t (Z.to_nat b_hi) <= uMax)%R /\
   forall j, (Z.to_nat b_hi < j <= length t - 1)%nat -> (uMax < vget t j)%R) /\
  iMin = Z.max 0 (b_lo - 3) /\
  iMax = Z.min (N - 1) (Z.max (iMin + 7) (b_hi + 3)) /\
  0 <= iMin <= iMax /\ iMax <= N - 1 /\
  (0 <= b_lo - 3 -> iMin = b_lo - 3) /\
  (b_lo - 3 < 0 -> iMin = 0) /\
  (Z.max (iMin + 7) (b_hi + 3) <= N - 1 ->
   iMax = Z.max (iMin + 7) (b_hi + 3) /\ b_hi + 3 <= iMax /\ 8 <= iMax - iMin + 1) /\
  (N - 1 < Z.max (iMin + 7) (b_hi + 3) -> iMax = N - 1).
Proof.
  intros Hne Hrange Hu N b_lo b_hi iMin iMax.
  assert (HN : 1 <= N) by (subst N; destruct t; [contradiction | simpl; lia]).
  destruct (out_of_range_false t uMin uMax Hrange) as [Hfront Hback].
  destruct (iMin_loop_stop t uMin (length t - 1) 0) as [Hlo1 Hlo2].
  destruct (iMax_loop_stop t uMax (length t - 1)) as [Hhi1 Hhi2].
  assert (Hlo3 := iMin_loop_bounds t uMin (length t - 1) 0).
  assert (Hhi3 := iMax_loop_le t uMax (length t - 1)).
  subst iMin iMax. unfold select_window. cbn [fst snd].
  fold b_lo b_hi. subst b_lo b_hi N. unfold iMin_bracket, iMax_bracket.
  rewrite !Nat2Z.id.
  repeat split; try lia.
  - destruct Hlo1 as [-> | H]; [| exact H]. simpl. lra.
  - intros j Hj. apply Hlo2. lia.
  - destruct Hhi1 as [-> | H]; [| exact H]. lra.
  - exact Hhi2.
Qed.

(** The range handed to the window selection is ordered. *)
Lemma u_extent_ordered (u : DataGrid) (N : Z) :
  (snd (u_extent u N) <= fst (u_extent u N))%R.
Proof.
  unfold u_extent.
  generalize (seq 1 (Z.to_nat N - 1)).
  assert (H : (snd (real (cget (dg_data u) 0), real (cget (dg_data u) 0))
               <= fst (real (cget (dg_data u) 0), real (cget (dg_data u) 0)))%R)
    by (simpl; lra).
  revert H. generalize (real (cget (dg_data u) 0), real (cget (dg_data u) 0)).
  intros p H l. revert p H.
  induction l as [| i l IH]; intros [uMax uMin] H; simpl in *; [exact H |].
  apply IH. simpl. unfold Rgt_b, Rlt_b.
  destruct (Rgt_dec (real (cget (dg_data u) i)) uMax);
    destruct (Rlt_dec (real (cget (dg_data u) i)) uMin); lra.
Qed.

End Window.

(** The two callers hand the window selection a range that has passed
    the test, and raise a value error otherwise. *)
Section WindowCallers.
Variable X : Externals.
Local Open Scope Z_scope.

Lemma Scri_BMSTransformation_window_inv
  (S : Scri) (u0 : R) (delta : Modes) (u : DataGrid) (w : Z * Z) :
  Scri_BMSTransformation_window X S u0 delta = Ok (u, w) ->
  let n := 2 * SliceModes_EllMax (slice_at S 0) + 1 in
  let uMax := fst (u_extent u (n * n)) in
  let uMin := snd (u_extent u (n * n)) in
  u = DataGrid_radd u0 (DataGrid_of_Modes X delta n n) /\
  out_of_range (t S) uMin uMax = false /\
  (uMin <= uMax)%R /\
  w = select_window (t S) uMin uMax.
Proof.
  unfold Scri_BMSTransformation_window. cbv zeta.
  set (n := 2 * SliceModes_EllMax (slice_at S 0) + 1).
  set (u' := DataGrid_radd u0 (DataGrid_of_Modes X delta n n)).
  assert (Ho := u_extent_ordered u' (n * n)).
  destruct (u_extent u' (n * n)) as [uMax uMin] eqn:He.
  destruct (out_of_range (t S) uMin uMax) eqn:Hr; [discriminate |].
  intros H. inversion H; subst u w. rewrite He. cbn [fst snd] in *. auto.
Qed.

Lemma Scri_BMSTransformation_out_of_range
  (S : Scri) (u0 : R) (v : ThreeVector) (delta : Modes) :
  let n := 2 * SliceModes_EllMax (slice_at S 0) + 1 in
  let u := DataGrid_radd u0 (DataGrid_of_Modes X delta n n) in
  out_of_range (t S) (snd (u_extent u (n * n))) (fst (u_extent u (n * n))) = true ->
  Scri_BMSTransformation X S u0 v delta = Throw GWFrames_ValueError.
Proof.
  intros n u H. unfold Scri_BMSTransformation, Scri_BMSTransformation_window.
  cbv zeta. fold n. fold u.
  destruct (u_extent u (n * n)) as [uMax uMin]. cbn [fst snd] in H.
  rewrite H. reflexivity.
Qed.

Lemma SuperMomenta_BMSTransform_out_of_range
  (SM : SuperMomenta) (OneOverK delta : Modes) :
  let n := 2 * EllMax (Psi_at SM 0) + 1 in
  let u := DataGrid_of_Modes X delta n n in
  out_of_range (sm_t SM) (snd (u_extent u (n * n))) (fst (u_extent u (n * n))) = true ->
  SuperMomenta_BMSTransform X SM OneOverK delta = Throw GWFrames_ValueError.
Proof.
  intros n u H. unfold SuperMomenta_BMSTransform. cbv zeta. fold n. fold u.
  destruct (u_extent u (n * n)) as [uMax uMin]. cbn [fst snd] in H.
  rewrite H. reflexivity.
Qed.

End WindowCallers.

(** Evaluation of the comparisons on numerals. *)
Ltac compare_reals :=
  repeat match goal with
    | |- context [Rlt_b ?a ?b] =>
        first [rewrite (Rlt_b_true a b) by lra | rewrite (Rlt_b_false a b) by lra]
    | |- context [Rgt_b ?a ?b] =>
        first [rewrite (Rgt_b_true a b) by lra | rewrite (Rgt_b_false a b) by lra]
    end.

Section WindowExamples.
Local Open Scope Z_scope.


(** Away from the ends of the series the window holds eight slices:
    three below the bracket and, from its start, seven more. *)
Example select_window_times_0_11 :
  out_of_range times_0_11 5 5 = false /\ select_window times_0_11 5 5 = (2, 9).
Proof.
  unfold out_of_range, select_window, iMax_bracket, iMin_bracket, times_0_11.
  cbn [length Nat.sub iMax_loop iMin_loop vget nth last].
  compare_reals. split; reflexivity.
Qed.

Lemma select_window_spec_witness :
  (0 <= iMin_bracket times_0_11 5 <= 12 - 1 /\
   (5 <= vget times_0_11 (Z.to_nat (iMin_bracket times_0_11 5)))%R /\
   forall j, (j < Z.to_nat (iMin_bracket times_0_11 5))%nat -> (vget times_0_11 j < 5)%R) /\
  (0 <= iMax_bracket times_0_11 5 <= 12 - 1 /\
   (vget times_0_11 (Z.to_nat (iMax_bracket times_0_11 5)) <= 5)%R /\
   forall j, (Z.to_nat (iMax_bracket times_0_11 5) < j <= 12 - 1)%nat ->
             (5 < vget times_0_11 j)%R) /\
  fst (select_window times_0_11 5 5) = Z.max 0 (iMin_bracket times_0_11 5 - 3) /\
  snd (select_window times_0_11 5 5)
  = Z.min (12 - 1) (Z.max (fst (select_window times_0_11 5 5) + 7)
                          (iMax_bracket times_0_11 5 + 3)) /\
  0 <= fst (select_window times_0_11 5 5) <= snd (select_window times_0_11 5 5) /\
  snd (select_window times_0_11 5 5) <= 12 - 1 /\
  (0 <= iMin_bracket times_0_11 5 - 3 ->
   fst (select_window times_0_11 5 5) = iMin_bracket times_0_11 5 - 3) /\
  (iMin_bracket times_0_11 5 - 3 < 0 -> fst (select_window times_0_11 5 5) = 0) /\
  (Z.max (fst (select_window times_0_11 5 5) + 7) (iMax_bracket times_0_11 5 + 3) <= 12 - 1 ->
   snd (select_window times_0_11 5 5)
   = Z.max (fst (select_window times_0_11 5 5) + 7) (iMax_bracket times_0_11 5 + 3) /\
   iMax_bracket times_0_11 5 + 3 <= snd (select_window times_0_11 5 5) /\
   8 <= snd (select_window times_0_11 5 5) - fst (select_window times_0_11 5 5) + 1) /\
  (12 - 1 < Z.max (fst (select_window times_0_11 5 5) + 7) (iMax_bracket times_0_11 5 + 3) ->
   snd (select_window times_0_11 5 5) = 12 - 1).
Proof.
  apply (select_window_spec times_0_11 5 5);
    [discriminate | apply select_window_times_0_11 | lra].
Defined.

(** Near the end of the series the clip wins over the margin and the width. *)
Lemma select_window_times_0_11_end :
  out_of_range times_0_11 11 11 = false /\ iMax_bracket times_0_11 11 = 11 /\
  select_window times_0_11 11 11 = (8, 11).
Proof.
  unfold out_of_range, select_window, iMax_bracket, iMin_bracket, times_0_11.
  cbn [length Nat.sub iMax_loop iMin_loop vget nth last].
  compare_reals. repeat split; reflexivity.
Qed.

(** Near the start of the series the clip wins over the margin. *)
Lemma select_window_times_0_11_start :
  out_of_range times_0_11 0 0 = false /\ iMin_bracket times_0_11 0 = 0 /\
  select_window times_0_11 0 0 = (0, 7).
Proof.
  unfold out_of_range, select_window, iMax_bracket, iMin_bracket, times_0_11.
  cbn [length Nat.sub iMax_loop iMin_loop vget nth last].
  compare_reals. repeat split; reflexivity.
Qed.

(** C7 as stated fails, at both ends of the series alike: the margin and
    the width are not kept where the window is clipped.  On a series of
    twelve slices the range [[11, 11]] passes the test, its upper bracket
    is the last slice, and the window is [[8, 11]]: no slice of margin
    above the bracket, and four slices, fewer than seven, although the
    series holds twelve.  The range [[0, 0]] passes the test too, its
    lower bracket is the first slice, and the window is [[0, 7]]: no
    slice of margin below the bracket. *)
Lemma select_window_counterexample :
  length times_0_11 = 12%nat /\
  (out_of_range times_0_11 11 11 = false /\
   select_window times_0_11 11 11 = (8, 11) /\
   ~ (iMax_bracket times_0_11 11 + 3 <= snd (select_window times_0_11 11 11)) /\
   ~ (7 <= snd (select_window times_0_11 11 11)
           - fst (select_window times_0_11 11 11) + 1)) /\
  (out_of_range times_0_11 0 0 = false /\
   select_window times_0_11 0 0 = (0, 7) /\
   ~ (fst (select_window times_0_11 0 0) <= iMin_bracket times_0_11 0 - 3)).
Proof.
  destruct select_window_times_0_11_end as (H1 & H2 & H3).
  destruct select_window_times_0_11_start as (H4 & H5 & H6).
  split; [reflexivity |]. split.
  - split; [exact H1 |]. split; [exact H3 |]. rewrite H2, H3. simpl. lia.
  - split; [exact H4 |]. split; [exact H6 |]. rewrite H5, H6. simpl. lia.
Qed.

End WindowExamples.

(** ** The calls of the spline *)

Lemma foldM_pure {A B : Type} (f : A -> B -> result A) (g : A -> B -> A) (l : list B) :
  (forall a b, In b l -> f a b = Ok (g a b)) ->
  forall a, foldM f l a = Ok (fold_left g l a).
Proof.
  induction l as [| b l IH]; intros H a; cbn [foldM fold_left]; [reflexivity |].
  rewrite (H a b (or_introl eq_refl)). cbn [bind].
  apply IH. intros a' b' Hb'. apply H. right. exact Hb'.
Qed.

Section SplineCalls.
Variable X : Externals.

Lemma strictly_increasing_adjacent (x : list R) :
  strictly_increasing x = true ->
  forall i, (S i < length x)%nat -> (vget x i < vget x (S i))%R.
Proof.
  induction x as [| a x IH]; intros H i Hi; [simpl in Hi; lia |].
  destruct x as [| b x]; [simpl in Hi; lia |].
  cbn [strictly_increasing] in H. apply andb_prop in H. destruct H as [Hab Hx].
  destruct i as [| i].
  - unfold vget. cbn [nth]. unfold Rlt_b in Hab.
    destruct (Rlt_dec a b); [assumption | discriminate].
  - unfold vget. cbn [nth]. apply (IH Hx i). simpl in Hi |- *. lia.
Qed.

Lemma adjacent_strictly_increasing (x : list R) :
  (forall i, (S i < length x)%nat -> (vget x i < vget x (S i))%R) ->
  strictly_increasing x = true.
Proof.
  induction x as [| a x IH]; intros H; [reflexivity |].
  destruct x as [| b x]; [reflexivity |].
  cbn [strictly_increasing]. apply andb_true_intro. split.
  - apply Rlt_b_true. apply (H 0%nat). simpl. lia.
  - apply IH. intros i Hi. apply (H (S i)). simpl in Hi |- *. lia.
Qed.

(** A run of consecutive times of an increasing series is increasing. *)
Lemma strictly_increasing_window (t : list R) (a len : nat) :
  strictly_increasing t = true -> (a + len <= length t)%nat ->
  strictly_increasing (map (vget t) (seq a len)) = true.
Proof.
  intros Ht Hlen. apply adjacent_strictly_increasing.
  intros i Hi. rewrite length_map, length_seq in Hi.
  unfold vget at 1 3.
  rewrite !(nth_map_in _ _ _ 0%nat) by (rewrite length_seq; lia).
  rewrite !seq_nth by lia.
  replace (a + S i)%nat with (S (a + i)) by lia.
  apply (strictly_increasing_adjacent t Ht). lia.
Qed.

(** The end knots of a run of consecutive times. *)
Lemma window_knots (t : list R) (a len : nat) :
  (0 < len)%nat ->
  vget (map (vget t) (seq a len)) 0 = vget t a /\
  last (map (vget t) (seq a len)) 0%R = vget t (a + len - 1).
Proof.
  intros Hlen. split.
  - unfold vget at 1. rewrite (nth_map_in _ _ _ 0%nat) by (rewrite length_seq; lia).
    rewrite seq_nth by lia. f_equal. lia.
  - rewrite last_is_nth. rewrite length_map, length_seq. unfold vget at 1.
    rewrite (nth_map_in _ _ _ 0%nat) by (rewrite length_seq; lia).
    rewrite seq_nth by lia. f_equal. lia.
Qed.

(** With increasing knots and a point between the end knots no call of
    GSL fails, and the point gets the value of the two splines. *)
Lemma interpolate_point_ok (xa : list R) (samples : list complex) (u_i : R) :
  strictly_increasing xa = true ->
  (vget xa 0 <= u_i <= last xa 0)%R ->
  interpolate_point X xa samples u_i = Ok (spline_value X xa samples u_i).
Proof.
  intros Hx Hu. unfold interpolate_point, gsl_spline_init, gsl_spline_eval_at.
  rewrite Hx. cbn [bind].
  rewrite Rlt_b_false by lra. rewrite Rgt_b_false by lra. reflexivity.
Qed.

Lemma gsl_spline_alloc_ok (size : nat) :
  (3 <= size)%nat -> gsl_spline_alloc size = Ok tt.
Proof.
  intros H. unfold gsl_spline_alloc.
  destruct (Nat.ltb_spec size 3); [lia | reflexivity].
Qed.

End SplineCalls.

(** ** Sums of spectral fields *)

Lemma cget_overflow (v : list complex) (i : nat) :
  (length v <= i)%nat -> cget v i = zero.
Proof. intros H. unfold cget. apply nth_overflow. exact H. Qed.

Lemma cget_combine_into (f : complex -> complex -> complex) (B : list complex) :
  forall (C : list complex) (i : nat),
  (length B <= length C)%nat ->
  cget (combine_into f C B) i
  = if (i <? length B)%nat then f (cget C i) (cget B i) else cget C i.
Proof.
  induction B as [| b B IH]; intros C i H.
  - destruct C; reflexivity.
  - destruct C as [| c C]; simpl in H; [lia |].
    destruct i as [| i]; [reflexivity |].
    cbn [combine_into]. unfold cget in *. cbn [nth length].
    rewrite IH by lia. reflexivity.
Qed.

(** The sum of two fields of equal spin: coefficient by coefficient, the
    shorter one read as zero beyond its end. *)
Lemma Modes_add_same_spin (M N : Modes) :
  m_s M = m_s N ->
  exists P, Modes_add M N = Ok P /\ m_s P = m_s M /\
            forall i, cget (m_data P) i = Cadd (cget (m_data M) i) (cget (m_data N) i).
Proof.
  intros Hs. unfold Modes_add.
  replace (m_s M =? m_s N)%Z with true by (symmetry; apply Z.eqb_eq; exact Hs).
  cbn [negb]. eexists. split; [reflexivity |]. cbn [m_s m_data].
  destruct (Nat.leb_spec (length (m_data N)) (length (m_data M))) as [Hle | Hgt].
  - replace (length (m_data M) <? length (m_data N))%nat with false
      by (symmetry; apply Nat.ltb_ge; exact Hle).
    split; [reflexivity |]. intros i. rewrite cget_combine_into by exact Hle.
    destruct (Nat.ltb_spec i (length (m_data N))) as [Hi | Hi]; [reflexivity |].
    rewrite (cget_overflow (m_data N) i Hi), Cadd_zero_r. reflexivity.
  - replace (length (m_data M) <? length (m_data N))%nat with true
      by (symmetry; apply Nat.ltb_lt; exact Hgt).
    split; [symmetry; exact Hs |]. intros i. rewrite cget_combine_into by lia.
    destruct (Nat.ltb_spec i (length (m_data M))) as [Hi | Hi]; [apply Cadd_comm |].
    rewrite (cget_overflow (m_data M) i Hi), Cadd_zero_l. reflexivity.
Qed.

(** ** The supermomentum of a slice *)

Section SuperMomentumFacts.
Variable X : Externals.
Local Open Scope Z_scope.

(** The third term, coefficient by coefficient: two spin raisings of the
    conjugate shear, from spin [-2] to spin [0]. *)
Lemma edth_edth_bar_coefficient (sg : Modes) (ell m : Z) :
  m_s sg = 2 -> 0 <= ell <= ellMax sg -> - ell <= m <= ell ->
  let i := Z.to_nat (lm_ind ell m (ellMax sg)) in
  cget (m_data (Modes_edth (Modes_edth (Modes_bar sg)))) i
  = RmulC (edth_factor (-1) ell)
          (RmulC (edth_factor (-2) ell) (conj (cget (m_data sg) i))).
Proof.
  intros Hs Hell Hm i. subst i.
  unfold Modes_edth, Modes_bar, Spin. cbn [m_s m_data ellMax].
  rewrite !scale_modes_nth by assumption. rewrite Hs.
  change (- (2) + 1) with (-1). change (- (2)) with (-2).
  do 2 f_equal. unfold cget.
  destruct (Nat.lt_ge_cases (Z.to_nat (lm_ind ell m (ellMax sg))) (length (m_data sg)))
    as [Hlt | Hge].
  - apply (nth_map_in conj (m_data sg) _ zero zero Hlt).
  - rewrite !nth_overflow by (rewrite ?length_map; exact Hge).
    apply complex_eq; simpl; ring.
Qed.

Lemma SuperMomentum_total (S : SliceModes) :
  slice_spins S -> 0 <= EllMax (sigma S) -> 0 <= EllMax (sigmadot S) ->
  exists P Psi,
    Modes_mul X (sigma S) (Modes_bar (sigmadot S)) = Ok P /\
    SuperMomentum X S = Ok Psi /\
    m_s Psi = 0 /\
    forall i, cget (m_data Psi) i
              = Cadd (Cadd (cget (m_data (psi2 S)) i) (cget (m_data P) i))
                     (cget (m_data (Modes_edth (Modes_edth (Modes_bar (sigma S))))) i).
Proof.
  intros (_ & _ & H2 & _ & _ & Hsg & Hsd) Hes Hed.
  destruct (Modes_mul_total X (sigma S) (Modes_bar (sigmadot S)) Hes Hed)
    as (P & HP & HPs & _).
  cbn [Modes_bar m_s] in HPs. rewrite Hsg, Hsd in HPs.
  destruct (Modes_add_same_spin (psi2 S) P) as (Q & HQ & HQs & HQi); [lia |].
  destruct (Modes_add_same_spin Q (Modes_edth (Modes_edth (Modes_bar (sigma S)))))
    as (Psi & HPsi & HPsis & HPsii).
  { unfold Modes_edth, Modes_bar, Spin. cbn [m_s]. lia. }
  exists P, Psi. split; [exact HP |].
  unfold SuperMomentum. rewrite HP. cbn [bind]. rewrite HQ. cbn [bind].
  split; [exact HPsi |]. split; [lia |].
  intros i. rewrite HPsii, HQi. reflexivity.
Qed.

Lemma SuperMomentum_as_claimed_throws (S : SliceModes) :
  slice_spins S -> 0 <= EllMax (sigma S) -> 0 <= EllMax (sigmadot S) ->
  SuperMomentum_as_claimed X S = Throw GWFrames_BadWaveformInformation.
Proof.
  intros (_ & _ & H2 & _ & _ & Hsg & Hsd) Hes Hed.
  destruct (Modes_mul_total X (sigma S) (Modes_bar (Modes_edthbar (sigmadot S))) Hes Hed)
    as (P & HP & HPs & _).
  unfold Modes_bar, Modes_edthbar, Spin in HPs. cbn [m_s] in HPs.
  rewrite Hsg, Hsd in HPs.
  unfold SuperMomentum_as_claimed. rewrite HP. cbn [bind].
  rewrite Modes_add_spin_mismatch by lia. reflexivity.
Qed.

(** C2, as the code has it: on a slice with the spins of its construction
    and non-negative degrees the supermomentum is returned, has spin 0, and
    is, coefficient by coefficient, [psi2] plus the spectral product of the
    shear with the conjugate of its time derivative (no [edthbar]) plus
    [edth] applied twice to the conjugate shear. *)
Theorem SuperMomentum_formula (S : SliceModes) :
  slice_spins S -> 0 <= EllMax (sigma S) -> 0 <= EllMax (sigmadot S) ->
  exists P Psi,
    Modes_mul X (sigma S) (Modes_bar (sigmadot S)) = Ok P /\
    SuperMomentum X S = Ok Psi /\
    m_s Psi = 0 /\
    (forall i, cget (m_data Psi) i
               = Cadd (Cadd (cget (m_data (psi2 S)) i) (cget (m_data P) i))
                      (cget (m_data (Modes_edth (Modes_edth (Modes_bar (sigma S))))) i)) /\
    (forall ell m, 0 <= ell <= ellMax (sigma S) -> - ell <= m <= ell ->
       let i := Z.to_nat (lm_ind ell m (ellMax (sigma S))) in
       cget (m_data (Modes_edth (Modes_edth (Modes_bar (sigma S))))) i
       = RmulC (edth_factor (-1) ell)
               (RmulC (edth_factor (-2) ell) (conj (cget (m_data (sigma S)) i)))).
Proof.
  intros Hsp Hes Hed.
  destruct (SuperMomentum_total S Hsp Hes Hed) as (P & Psi & HP & HPsi & Hs & Hi).
  exists P, Psi. repeat split; try assumption.
  intros ell m Hell Hm. apply edth_edth_bar_coefficient; try assumption.
  apply Hsp.
Qed.

End SuperMomentumFacts.

Lemma slice_ell1_spins : slice_spins slice_ell1.
Proof. unfold slice_spins. repeat split. Qed.

Lemma SuperMomentum_formula_witness :
  exists P Psi,
    Modes_mul (constant_Externals zero) (sigma slice_ell1) (Modes_bar (sigmadot slice_ell1))
    = Ok P /\
    SuperMomentum (constant_Externals zero) slice_ell1 = Ok Psi /\
    m_s Psi = 0%Z /\
    (forall i, cget (m_data Psi) i
               = Cadd (Cadd (cget (m_data (psi2 slice_ell1)) i) (cget (m_data P) i))
                      (cget (m_data (Modes_edth (Modes_edth (Modes_bar (sigma slice_ell1))))) i)) /\
    (forall ell m, (0 <= ell <= ellMax (sigma slice_ell1))%Z -> (- ell <= m <= ell)%Z ->
       let i := Z.to_nat (lm_ind ell m (ellMax (sigma slice_ell1))) in
       cget (m_data (Modes_edth (Modes_edth (Modes_bar (sigma slice_ell1))))) i
       = RmulC (edth_factor (-1) ell)
               (RmulC (edth_factor (-2) ell) (conj (cget (m_data (sigma slice_ell1)) i)))).
Proof.
  apply (SuperMomentum_formula (constant_Externals zero) slice_ell1);
    [apply slice_ell1_spins | simpl; lia | simpl; lia].
Defined.

(** C2 as stated fails: on the empty slice of degree 1 the code returns a
    supermomentum, while the formula of the claim adds a field of spin 1
    to [psi2], of spin 0, which raises. *)
Lemma SuperMomentum_formula_counterexample :
  (exists Psi, SuperMomentum (constant_Externals zero) slice_ell1 = Ok Psi) /\
  SuperMomentum_as_claimed (constant_Externals zero) slice_ell1
  = Throw GWFrames_BadWaveformInformation /\
  SuperMomentum (constant_Externals zero) slice_ell1
  <> SuperMomentum_as_claimed (constant_Externals zero) slice_ell1.
Proof.
  assert (H1 : (0 <= EllMax (sigma slice_ell1))%Z) by (simpl; lia).
  assert (H2 : (0 <= EllMax (sigmadot slice_ell1))%Z) by (simpl; lia).
  destruct (SuperMomentum_total (constant_Externals zero) slice_ell1
              slice_ell1_spins H1 H2) as (P & Psi & _ & HPsi & _).
  assert (Hc := SuperMomentum_as_claimed_throws (constant_Externals zero) slice_ell1
                  slice_ell1_spins H1 H2).
  split; [exists Psi; exact HPsi |]. split; [exact Hc |].
  rewrite HPsi, Hc. discriminate.
Qed.

(** ** The per-slice Moreschi step *)

Section SliceMoreschi.
Variable X : Externals.

Lemma Mass_of_SuperMomentum (S : SliceModes) (Psi : Modes) :
  SuperMomentum X S = Ok Psi ->
  Mass X S = Ok (Mass_of (FourMomentum_of Psi)).
Proof. intros H. unfold Mass, FourMomentum. rewrite H. reflexivity. Qed.

(** The call when the supermomentum is available: the first referenced
    object is overwritten, then the error is raised. *)
Lemma SliceModes_MoreschiIteration_run (S : SliceModes) (f : Frame) (Psi : Modes) :
  SuperMomentum X S = Ok Psi ->
  let M := Mass_of (FourMomentum_of Psi) in
  SliceModes_MoreschiIteration X S f
  = (mkFrame (mkModes 0 1 [CdivR (cget (m_data Psi) 0) M; CdivR (cget (m_data Psi) 1) M;
                           CdivR (cget (m_data Psi) 2) M; CdivR (cget (m_data Psi) 3) M])
             (delta f),
     Throw GWFrames_NotYetImplemented).
Proof.
  intros H M. unfold SliceModes_MoreschiIteration, bindF, lift.
  rewrite H, (Mass_of_SuperMomentum S Psi H). reflexivity.
Qed.

(** The call when the supermomentum raises: nothing is written. *)
Lemma SliceModes_MoreschiIteration_early (S : SliceModes) (f : Frame) (e : GWFrames_error) :
  SuperMomentum X S = Throw e ->
  SliceModes_MoreschiIteration X S f = (f, Throw e).
Proof.
  intros H. unfold SliceModes_MoreschiIteration, bindF, lift. rewrite H. reflexivity.
Qed.

(** C4, as the code has it: the stub never returns normally and never
    touches [delta_ip1]; when it raises the not-yet-implemented error it
    has already replaced [OneOverK_ip1] by the four coefficients
    [Psi[0..3]/M] with [ellMax = 1]; only when the supermomentum itself
    raises are both referenced objects left as they were. *)
Theorem SliceModes_MoreschiIteration_effect (S : SliceModes) (f : Frame) :
  let r := SliceModes_MoreschiIteration X S f in
  delta (fst r) = delta f /\
  (forall u, snd r <> Ok u) /\
  (forall Psi, SuperMomentum X S = Ok Psi ->
     let M := Mass_of (FourMomentum_of Psi) in
     snd r = Throw GWFrames_NotYetImplemented /\
     ellMax (OneOverK (fst r)) = 1%Z /\
     m_data (OneOverK (fst r))
     = [CdivR (cget (m_data Psi) 0) M; CdivR (cget (m_data Psi) 1) M;
        CdivR (cget (m_data Psi) 2) M; CdivR (cget (m_data Psi) 3) M]) /\
  (forall e, SuperMomentum X S = Throw e -> r = (f, Throw e)).
Proof.
  intros r. subst r.
  destruct (SuperMomentum X S) as [Psi | e] eqn:H.
  - rewrite (SliceModes_MoreschiIteration_run S f Psi H). cbn [fst snd delta OneOverK].
    split; [reflexivity |]. split; [intros u; discriminate |]. split.
    + intros Psi' HPsi'. inversion HPsi'; subst Psi'. cbn [ellMax m_data].
      split; [reflexivity |]. split; reflexivity.
    + intros e He. discriminate.
  - rewrite (SliceModes_MoreschiIteration_early S f e H). cbn [fst snd].
    split; [reflexivity |]. split; [intros u; discriminate |]. split.
    + intros Psi' HPsi'. discriminate.
    + intros e' He'. inversion He'. reflexivity.
Qed.

End SliceMoreschi.

Lemma SliceModes_MoreschiIteration_effect_witness :
  exists Psi,
    SuperMomentum (constant_Externals zero) slice_ell1 = Ok Psi /\
    let r := SliceModes_MoreschiIteration (constant_Externals zero) slice_ell1 frame_empty in
    let M := Mass_of (FourMomentum_of Psi) in
    snd r = Throw GWFrames_NotYetImplemented /\
    ellMax (OneOverK (fst r)) = 1%Z /\
    m_data (OneOverK (fst r))
    = [CdivR (cget (m_data Psi) 0) M; CdivR (cget (m_data Psi) 1) M;
       CdivR (cget (m_data Psi) 2) M; CdivR (cget (m_data Psi) 3) M].
Proof.
  assert (H1 : (0 <= EllMax (sigma slice_ell1))%Z) by (simpl; lia).
  assert (H2 : (0 <= EllMax (sigmadot slice_ell1))%Z) by (simpl; lia).
  destruct (SuperMomentum_total (constant_Externals zero) slice_ell1
              slice_ell1_spins H1 H2) as (P & Psi & _ & HPsi & _).
  exists Psi. split; [exact HPsi |].
  exact (proj1 (proj2 (proj2 (SliceModes_MoreschiIteration_effect
                                (constant_Externals zero) slice_ell1 frame_empty)))
               Psi HPsi).
Defined.

(** C4 as stated fails: called on the empty slice of degree 1 with two
    empty referenced objects, the stub raises the not-yet-implemented
    error and leaves four coefficients in [OneOverK_ip1]. *)
Lemma SliceModes_MoreschiIteration_effect_counterexample :
  let r := SliceModes_MoreschiIteration (constant_Externals zero) slice_ell1 frame_empty in
  snd r = Throw GWFrames_NotYetImplemented /\
  length (m_data (OneOverK frame_empty)) = 0%nat /\
  length (m_data (OneOverK (fst r))) = 4%nat /\
  OneOverK (fst r) <> OneOverK frame_empty.
Proof.
  assert (H1 : (0 <= EllMax (sigma slice_ell1))%Z) by (simpl; lia).
  assert (H2 : (0 <= EllMax (sigmadot slice_ell1))%Z) by (simpl; lia).
  destruct (SuperMomentum_total (constant_Externals zero) slice_ell1
              slice_ell1_spins H1 H2) as (P & Psi & _ & HPsi & _).
  cbv zeta.
  rewrite (SliceModes_MoreschiIteration_run (constant_Externals zero)
             slice_ell1 frame_empty Psi HPsi).
  cbn [fst snd OneOverK m_data length].
  repeat split. intros H. apply (f_equal (fun M => length (m_data M))) in H.
  simpl in H. discriminate.
Qed.

(** ** Grids on the boosted frame *)

Section BoostedGrids.
Variable X : Externals.
Local Open Scope Z_scope.

(** The direction of a grid point is a unit vector, so [Boost] never sees
    a zero direction there. *)
Lemma grid_direction_unit (vartheta varphi : R) :
  norm3 (vec (mul (mul (of_angles vartheta varphi) zHat)
                  (conjugate (of_angles vartheta varphi)))) = 1%R.
Proof.
  unfold norm3, vec, mul, conjugate, of_angles, zHat, vget.
  cbn [nth qw qx qy qz].
  assert (H1 := sin2_cos2 (vartheta / 2)). assert (H2 := sin2_cos2 (varphi / 2)).
  unfold Rsqr in H1, H2.
  set (s1 := sin (vartheta / 2)) in *. set (c1 := cos (vartheta / 2)) in *.
  set (s2 := sin (varphi / 2)) in *. set (c2 := cos (varphi / 2)) in *.
  apply sqrt_of_square; [lra |].
  transitivity (((s1 * s1 + c1 * c1) * (s2 * s2 + c2 * c2))
                * ((s1 * s1 + c1 * c1) * (s2 * s2 + c2 * c2)))%R; [ring |].
  rewrite H1, H2. ring.
Qed.

Lemma Boost_total (F : Binary64) (v n : ThreeVector) :
  norm3 n = 1%R -> exists q, Boost F v n = Ok q.
Proof.
  intros Hn. unfold Boost. destruct (Boost_negligible F v); [eexists; reflexivity |].
  cbv zeta. rewrite Hn.
  replace (Req_b 1 0) with false
    by (unfold Req_b; destruct (Req_dec_T 1 0); [lra | reflexivity]).
  match goal with |- context [Rlt_b ?a ?b] => destruct (Rlt_b a b) end;
    eexists; reflexivity.
Qed.

Lemma boosted_point_total (v : ThreeVector) (n_theta n_phi i_theta i_phi : Z) :
  exists q, boosted_point X v n_theta n_phi i_theta i_phi = Ok q.
Proof.
  unfold boosted_point. cbv zeta.
  destruct (Boost_total (binary64 X) (vneg v) _ (grid_direction_unit
              (PI / IZR (n_theta - 1) * IZR i_theta) (2 * PI / IZR n_phi * IZR i_phi)))
    as [q Hq].
  rewrite Hq. eexists. reflexivity.
Qed.

Lemma fill_from_total (f : Z -> Z -> result complex) (pts : list (Z * Z)) :
  (forall i_theta i_phi, exists x, f i_theta i_phi = Ok x) ->
  forall (i_g : nat) (data : list complex),
  exists data', fill_from f pts i_g data = Ok data' /\ length data' = length data.
Proof.
  intros Hf. induction pts as [| [i_theta i_phi] pts IH]; intros i_g data.
  - exists data. split; reflexivity.
  - cbn [fill_from]. destruct (Hf i_theta i_phi) as [x Hx]. rewrite Hx. cbn [bind].
    destruct (IH (S i_g) (upd i_g x data)) as (data' & H1 & H2).
    exists data'. split; [exact H1 |]. rewrite H2. apply length_upd.
Qed.

Lemma DataGrid_boosted_total (M : Modes) (v : ThreeVector) (N_t N_p : Z) :
  exists g, DataGrid_boosted X M v N_t N_p = Ok g /\
            dg_s g = m_s M /\
            sized (Z.max N_t (2 * EllMax M + 1)) (Z.max N_p (2 * EllMax M + 1)) g.
Proof.
  unfold DataGrid_boosted. cbv zeta. unfold fill_grid.
  match goal with
  | |- context [fill_from ?f ?pts ?i ?d] =>
      destruct (fill_from_total f pts) with (i_g := i) (data := d) as (data' & H1 & H2)
  end.
  { intros i_theta i_phi.
    destruct (boosted_point_total v (Z.max N_t (2 * EllMax M + 1))
                (Z.max N_p (2 * EllMax M + 1)) i_theta i_phi) as [q Hq].
    rewrite Hq. eexists. reflexivity. }
  rewrite H1. cbn [bind]. eexists. split; [reflexivity |].
  split; [reflexivity |]. unfold sized. cbn [n_theta n_phi dg_data].
  rewrite H2, repeat_length. auto.
Qed.

Lemma DataGrid_boosted_inv (M : Modes) (v : ThreeVector) (N_t N_p : Z) (g : DataGrid) :
  DataGrid_boosted X M v N_t N_p = Ok g ->
  dg_s g = m_s M /\
  sized (Z.max N_t (2 * EllMax M + 1)) (Z.max N_p (2 * EllMax M + 1)) g.
Proof.
  intros H. destruct (DataGrid_boosted_total M v N_t N_p) as (g' & H' & Hs & Hz).
  rewrite H in H'. inversion H'; subst g'. auto.
Qed.

Lemma DataGrid_of_functor_total (Spin N_t N_p : Z) (v : ThreeVector)
  (f : Quaternion -> R) :
  exists g, DataGrid_of_functor X Spin N_t N_p v f = Ok g /\
            dg_s g = Spin /\ sized N_t N_p g.
Proof.
  unfold DataGrid_of_functor, fill_grid.
  match goal with
  | |- context [fill_from ?f ?pts ?i ?d] =>
      destruct (fill_from_total f pts) with (i_g := i) (data := d) as (data' & H1 & H2)
  end.
  { intros i_theta i_phi.
    destruct (boosted_point_total v N_t N_p i_theta i_phi) as [q Hq].
    rewrite Hq. eexists. reflexivity. }
  rewrite H1. cbn [bind]. eexists. split; [reflexivity |].
  split; [reflexivity |]. unfold sized. cbn [n_theta n_phi dg_data].
  rewrite H2, repeat_length. auto.
Qed.

Lemma InverseConformalFactorGrid_total (v : ThreeVector) (n : Z) :
  exists g, InverseConformalFactorGrid v n n = Ok g /\ dg_s g = 0 /\ sized n n g.
Proof.
  unfold InverseConformalFactorGrid, fill_grid.
  match goal with
  | |- context [fill_from ?f ?pts ?i ?d] =>
      destruct (fill_from_total f pts) with (i_g := i) (data := d) as (data' & H1 & H2)
  end.
  { intros i_theta i_phi. eexists. reflexivity. }
  rewrite H1. cbn [bind]. unfold DataGrid_of_data.
  rewrite repeat_length in H2. rewrite H2.
  replace (n * n =? Z.of_nat (Z.to_nat (n * n))) with true
    by (symmetry; apply Z.eqb_eq; nia).
  cbn [negb]. eexists. split; [reflexivity |]. split; [reflexivity |].
  unfold sized. cbn [n_theta n_phi dg_data]. auto.
Qed.

End BoostedGrids.

(** ** Pointwise algebra on grids of one size *)

Section SizedGrids.
Variables n_t n_p : Z.
Local Open Scope Z_scope.

Lemma sized_mul (A B : DataGrid) :
  sized n_t n_p A -> sized n_t n_p B ->
  exists C, DataGrid_mul A B = Ok C /\ sized n_t n_p C /\
            dg_s C = dg_s A + dg_s B /\
            forall i, (i < Z.to_nat (n_p * n_t))%nat ->
                      sample C i = Cmul (sample A i) (sample B i).
Proof.
  intros (At & Ap & Al) (Bt & Bp & Bl).
  rewrite DataGrid_mul_same_grid by congruence.
  eexists. split; [reflexivity |]. unfold sized, sample. cbn [n_theta n_phi dg_data dg_s].
  rewrite length_pointwise. repeat split; auto.
  intros i Hi. unfold cget. apply nth_pointwise. lia.
Qed.

Lemma sized_sub (A B : DataGrid) :
  sized n_t n_p A -> sized n_t n_p B ->
  exists C, DataGrid_sub A B = Ok C /\ sized n_t n_p C /\
            dg_s C = dg_s A /\
            forall i, (i < Z.to_nat (n_p * n_t))%nat ->
                      sample C i = Csub (sample A i) (sample B i).
Proof.
  intros (At & Ap & Al) (Bt & Bp & Bl).
  rewrite DataGrid_sub_same_grid by congruence.
  eexists. split; [reflexivity |]. unfold sized, sample. cbn [n_theta n_phi dg_data dg_s].
  rewrite length_pointwise. repeat split; auto.
  intros i Hi. unfold cget. apply nth_pointwise. lia.
Qed.

Lemma sized_div (A B : DataGrid) :
  sized n_t n_p A -> sized n_t n_p B ->
  exists C, DataGrid_div A B = Ok C /\ sized n_t n_p C /\
            dg_s C = dg_s A - dg_s B /\
            forall i, (i < Z.to_nat (n_p * n_t))%nat ->
                      sample C i = Cdiv (sample A i) (sample B i).
Proof.
  intros (At & Ap & Al) (Bt & Bp & Bl).
  rewrite DataGrid_div_same_grid by congruence.
  eexists. split; [reflexivity |]. unfold sized, sample. cbn [n_theta n_phi dg_data dg_s].
  rewrite length_pointwise. repeat split; auto.
  intros i Hi. unfold cget. apply nth_pointwise. lia.
Qed.

Lemma sized_map (f : complex -> complex) (A : DataGrid) :
  sized n_t n_p A ->
  sized n_t n_p (DataGrid_map f A) /\
  dg_s (DataGrid_map f A) = dg_s A /\
  forall i, (i < Z.to_nat (n_p * n_t))%nat ->
            sample (DataGrid_map f A) i = f (sample A i).
Proof.
  intros (At & Ap & Al).
  unfold sized, sample, DataGrid_map, N_theta, N_phi. cbn [n_theta n_phi dg_data dg_s].
  rewrite length_map_upto. repeat split; auto.
  intros i Hi. unfold cget. apply nth_map_upto; [| lia].
  rewrite At, Ap. replace (n_t * n_p) with (n_p * n_t) by ring. exact Hi.
Qed.

End SizedGrids.

(** ** The tetrad cascade *)

Section Cascade.
Variable n : Z.
Local Open Scope Z_scope.

Lemma sized_rmul (k : R) (A : DataGrid) :
  sized n n A ->
  sized n n (DataGrid_rmul k A) /\
  forall i, (i < Z.to_nat (n * n))%nat ->
            sample (DataGrid_rmul k A) i = RmulC k (sample A i).
Proof.
  intros H. destruct (sized_map n n (fun z => RmulC k z) A H) as (H1 & _ & H2).
  split; assumption.
Qed.

Lemma sized_pow (A : DataGrid) (p : Z) :
  sized n n A ->
  sized n n (DataGrid_pow A p) /\
  forall i, (i < Z.to_nat (n * n))%nat ->
            sample (DataGrid_pow A p) i = Cpow (sample A i) p.
Proof.
  intros H. destruct (sized_map n n (fun z => Cpow z p) A H) as (H1 & _ & H2).
  split; assumption.
Qed.

(** One operator of the cascade on two grids already known to fit. *)
Ltac cascade_step :=
  match goal with
  | HA : sized n n ?A, HB : sized n n ?B |- context [DataGrid_mul ?A ?B] =>
      let C := fresh "g" in
      let HC := fresh "Hg" in
      let HsC := fresh "Hsz" in
      let Hv := fresh "Hval" in
      destruct (sized_mul n n A B HA HB) as (C & HC & HsC & _ & Hv);
      rewrite HC; cbn [bind]
  | HA : sized n n ?A, HB : sized n n ?B |- context [DataGrid_sub ?A ?B] =>
      let C := fresh "g" in
      let HC := fresh "Hg" in
      let HsC := fresh "Hsz" in
      let Hv := fresh "Hval" in
      destruct (sized_sub n n A B HA HB) as (C & HC & HsC & _ & Hv);
      rewrite HC; cbn [bind]
  end.

(** The value of a cascade output at one index, back to the inputs. *)
Ltac cascade_values i Hi :=
  repeat match goal with
    | Hv : forall j, (j < _)%nat -> sample ?g j = _ |- context [sample ?g i] =>
        rewrite (Hv i Hi)
    end.

Lemma tetrad_cascade_ok
  (K1 dd E p0 p1 p2 p3 p4 sg sgd : DataGrid) :
  sized n n K1 -> sized n n dd -> sized n n E ->
  sized n n p0 -> sized n n p1 -> sized n n p2 -> sized n n p3 -> sized n n p4 ->
  sized n n sg -> sized n n sgd ->
  exists G,
    tetrad_cascade K1 (DataGrid_pow K1 3) dd E p0 p1 p2 p3 p4 sg sgd = Ok G /\
    slice_sized n G /\
    forall i, (i < Z.to_nat (n * n))%nat ->
      let k := sample K1 i in
      let e := sample E i in
      sample (psi4 G) i = psi4_law k (sample p4 i) /\
      sample (psi3 G) i = psi3_law k e (sample p3 i) (sample p4 i) /\
      sample (psi2 G) i = psi2_law k e (sample p2 i) (sample p3 i) (sample p4 i) /\
      sample (psi1 G) i
      = psi1_law k e (sample p1 i) (sample p2 i) (sample p3 i) (sample p4 i) /\
      sample (psi0 G) i
      = psi0_law k e (sample p0 i) (sample p1 i) (sample p2 i) (sample p3 i) (sample p4 i) /\
      sample (sigma G) i = sigma_law k (sample sg i) (sample dd i) /\
      sample (sigmadot G) i = sigmadot_law k (sample sgd i).
Proof.
  intros HK1 Hdd HE H0 H1 H2 H3 H4 Hsg Hsgd.
  destruct (sized_pow K1 3 HK1) as [HK3 HvK3].
  destruct (sized_pow K1 2 HK1) as [HK2 HvK2].
  destruct (sized_rmul 2 p3 H3) as [H23 Hv23].
  destruct (sized_rmul 3 p3 H3) as [H33 Hv33].
  destruct (sized_rmul 4 p3 H3) as [H43 Hv43].
  destruct (sized_rmul 3 p2 H2) as [H32 Hv32].
  destruct (sized_rmul 6 p2 H2) as [H62 Hv62].
  destruct (sized_rmul 4 p1 H1) as [H41 Hv41].
  unfold tetrad_cascade, lift2, lift1. cbn [bind].
  repeat cascade_step.
  eexists. split; [reflexivity |]. split.
  - unfold slice_sized. cbn [psi0 psi1 psi2 psi3 psi4 sigma sigmadot]. tauto.
  - intros i Hi. cbn [psi0 psi1 psi2 psi3 psi4 sigma sigmadot]. cbv zeta.
    unfold psi4_law, psi3_law, psi2_law, psi1_law, psi0_law, sigma_law, sigmadot_law.
    cascade_values i Hi. repeat split; reflexivity.
Qed.

(** The nested form of the [psi0] law is the expanded one, with the
    binomial weights 1, 4, 6, 4, 1. *)
Lemma psi0_law_binomial (k e p0 p1 p2 p3 p4 : complex) :
  psi0_law k e p0 p1 p2 p3 p4
  = Cmul (Cpow k 3)
      (Cadd (Csub (Cadd (Csub p0 (RmulC 4 (Cmul e p1)))
                        (RmulC 6 (Cmul (Cmul e e) p2)))
                  (RmulC 4 (Cmul (Cmul (Cmul e e) e) p3)))
            (Cmul (Cmul (Cmul (Cmul e e) e) e) p4)).
Proof.
  unfold psi0_law. f_equal. apply complex_eq; simpl; ring.
Qed.

End Cascade.

(** ** The BMS transformation within a slice *)

Lemma bind_Ok_inv {A B : Type} (c : result A) (k : A -> result B) (b : B) :
  bind c k = Ok b -> exists a, c = Ok a /\ k a = Ok b.
Proof.
  destruct c as [a | e]; simpl; intros H; [| discriminate].
  exists a. split; [reflexivity | exact H].
Qed.

Section OnSlice.
Variable X : Externals.
Local Open Scope Z_scope.

(** The subtraction of the [sigma] line went through, so its two grids
    have the same size. *)
Lemma tetrad_cascade_sigma_inv
  (K1 K3 dd E p0 p1 p2 p3 p4 sg sgd : DataGrid) (G : SliceGrid) :
  tetrad_cascade K1 K3 dd E p0 p1 p2 p3 p4 sg sgd = Ok G ->
  n_theta sg = n_theta dd /\ n_phi sg = n_phi dd.
Proof.
  unfold tetrad_cascade. cbv zeta. intros H.
  do 5 (apply bind_Ok_inv in H; destruct H as (? & _ & H)).
  apply bind_Ok_inv in H. destruct H as (Gs & H & _).
  unfold lift2 in H. cbn [bind] in H.
  apply bind_Ok_inv in H. destruct H as (sd & H & _).
  apply DataGrid_sub_inv in H. tauto.
Qed.

Lemma member_EllMax (S : SliceModes) :
  let L := SliceModes_EllMax S in
  EllMax (psi0 S) <= L /\ EllMax (psi1 S) <= L /\ EllMax (psi2 S) <= L /\
  EllMax (psi3 S) <= L /\ EllMax (psi4 S) <= L /\
  EllMax (sigma S) <= L /\ EllMax (sigmadot S) <= L.
Proof. unfold SliceModes_EllMax. cbv zeta. lia. Qed.

(** A member of the slice on the boosted grid has the resolution of the slice. *)
Lemma member_boosted (S : SliceModes) (M : Modes) (v : ThreeVector) :
  EllMax M <= SliceModes_EllMax S ->
  let n := 2 * SliceModes_EllMax S + 1 in
  exists g, DataGrid_boosted X M v n n = Ok g /\ sized n n g.
Proof.
  intros HM n. destruct (DataGrid_boosted_total X M v n n) as (g & Hg & _ & Hsz).
  exists g. split; [exact Hg |].
  replace (Z.max n (2 * EllMax M + 1)) with n in Hsz by (subst n; lia).
  exact Hsz.
Qed.

Lemma sized_of_Modes (M : Modes) (n : Z) :
  2 * EllMax M + 1 <= n -> sized n n (DataGrid_of_Modes X M n n).
Proof.
  intros H. unfold sized, DataGrid_of_Modes. cbn [n_theta n_phi dg_data].
  rewrite length_map, length_seq.
  replace (Z.max n (2 * EllMax M + 1)) with n by lia. auto.
Qed.

(** Whenever [(\eth u')/K] is produced it has the size of [1/K]. *)
Lemma ethupok_inv (u : R) (v : ThreeVector) (delta : Modes) (n : Z) (K1 E : DataGrid) :
  sized n n K1 -> ethupok X u v delta n n K1 = Ok E -> sized n n E.
Proof.
  intros (Kt & Kp & Kl) H. unfold ethupok in H.
  apply bind_Ok_inv in H. destruct H as (icf & _ & H).
  apply bind_Ok_inv in H. destruct H as (q & _ & H).
  apply bind_Ok_inv in H. destruct H as (g & Hg & H).
  apply DataGrid_boosted_inv in Hg. destruct Hg as (_ & gt & gp & gl).
  apply DataGrid_mul_inv in H. destruct H as (Ht & Hp & ->).
  unfold sized. cbn [n_theta n_phi dg_data]. rewrite length_pointwise.
  rewrite gl, gp, gt. rewrite gt in Ht. rewrite Ht, Kt. auto.
Qed.

Lemma ethupok_total (u : R) (v : ThreeVector) (delta : Modes) (L : Z) (K1 : DataGrid) :
  let n := 2 * L + 1 in
  EllMax delta <= L -> Modes_L X <= L -> sized n n K1 ->
  exists E, ethupok X u v delta n n K1 = Ok E.
Proof.
  intros n Hd HL HK1. unfold ethupok.
  destruct (InverseConformalFactorGrid_total v n) as (icf & Hicf & _ & Hsz).
  rewrite Hicf. cbn [bind].
  assert (Hdg : sized n n (DataGrid_of_Modes X delta n n))
    by (apply sized_of_Modes; subst n; lia).
  destruct (sized_map n n (fun z => RsubC u z) _ Hdg) as (Hr & _ & _).
  fold (DataGrid_rsub u (DataGrid_of_Modes X delta n n)) in Hr.
  destruct (sized_div n n _ icf Hr Hsz) as (q & Hq & (qt & qp & ql) & _).
  rewrite Hq. cbn [bind].
  destruct (DataGrid_boosted_total X (Modes_edth (Modes_of_DataGrid X q (Modes_L X))) v n n)
    as (g & Hg & _ & Hgs).
  rewrite Hg. cbn [bind].
  assert (He : EllMax (Modes_edth (Modes_of_DataGrid X q (Modes_L X))) = L).
  { unfold EllMax, Modes_edth. cbn [ellMax]. rewrite ellMax_from_grid_quot.
    rewrite qt, qp. subst n. replace (2 * L + 1 - 1) with (L * 2) by lia.
    rewrite Z.quot_mul by lia. lia. }
  rewrite He in Hgs. replace (Z.max n (2 * L + 1)) with n in Hgs by (subst n; lia).
  destruct (sized_mul n n g K1 Hgs HK1) as (E & HE & _).
  exists E. exact HE.
Qed.

(** What the transformation returns, whenever it returns. *)
Lemma BMSTransformationOnSlice_inv
  (S : SliceModes) (u : R) (v : ThreeVector) (delta : Modes) (G : SliceGrid) :
  BMSTransformationOnSlice X S u v delta = Ok G ->
  let n := 2 * SliceModes_EllMax S + 1 in
  exists K1 E dd p0 p1 p2 p3 p4 sg sgd : DataGrid,
    InverseConformalFactorBoostedGrid X v n n = Ok K1 /\
    ethupok X u v delta n n K1 = Ok E /\
    DataGrid_boosted X (Modes_edth (Modes_edth delta)) v n n = Ok dd /\
    DataGrid_boosted X (psi0 S) v n n = Ok p0 /\
    DataGrid_boosted X (psi1 S) v n n = Ok p1 /\
    DataGrid_boosted X (psi2 S) v n n = Ok p2 /\
    DataGrid_boosted X (psi3 S) v n n = Ok p3 /\
    DataGrid_boosted X (psi4 S) v n n = Ok p4 /\
    DataGrid_boosted X (sigma S) v n n = Ok sg /\
    DataGrid_boosted X (sigmadot S) v n n = Ok sgd /\
    slice_sized n G /\
    forall i, (i < Z.to_nat (n * n))%nat ->
      let k := sample K1 i in
      let e := sample E i in
      sample (psi4 G) i = psi4_law k (sample p4 i) /\
      sample (psi3 G) i = psi3_law k e (sample p3 i) (sample p4 i) /\
      sample (psi2 G) i = psi2_law k e (sample p2 i) (sample p3 i) (sample p4 i) /\
      sample (psi1 G) i
      = psi1_law k e (sample p1 i) (sample p2 i) (sample p3 i) (sample p4 i) /\
      sample (psi0 G) i
      = psi0_law k e (sample p0 i) (sample p1 i) (sample p2 i) (sample p3 i) (sample p4 i) /\
      sample (sigma G) i = sigma_law k (sample sg i) (sample dd i) /\
      sample (sigmadot G) i = sigmadot_law k (sample sgd i).
Proof.
  intros H n. unfold BMSTransformationOnSlice in H. cbv zeta in H. fold n in H.
  destruct (member_EllMax S) as (L0 & L1 & L2 & L3 & L4 & Ls & Ld).
  destruct (DataGrid_of_functor_total X 0 n n v (InverseConformalFactorFunctor v))
    as (K1 & HK1 & _ & HK1s).
  fold (InverseConformalFactorBoostedGrid X v n n) in HK1.
  rewrite HK1 in H. cbn [bind] in H.
  destruct (DataGrid_boosted_total X (Modes_edth (Modes_edth delta)) v n n)
    as (dd & Hdd & _ & Hdds).
  rewrite Hdd in H. cbn [bind] in H.
  destruct (ethupok X u v delta n n K1) as [E | err] eqn:HE; [| discriminate].
  cbn [bind] in H. assert (HEs := ethupok_inv u v delta n K1 E HK1s HE).
  destruct (member_boosted S (psi0 S) v L0) as (p0 & Hp0 & Hp0s).
  destruct (member_boosted S (psi1 S) v L1) as (p1 & Hp1 & Hp1s).
  destruct (member_boosted S (psi2 S) v L2) as (p2 & Hp2 & Hp2s).
  destruct (member_boosted S (psi3 S) v L3) as (p3 & Hp3 & Hp3s).
  destruct (member_boosted S (psi4 S) v L4) as (p4 & Hp4 & Hp4s).
  destruct (member_boosted S (sigma S) v Ls) as (sg & Hsg & Hsgs).
  destruct (member_boosted S (sigmadot S) v Ld) as (sgd & Hsgd & Hsgds).
  fold n in Hp0, Hp1, Hp2, Hp3, Hp4, Hsg, Hsgd.
  rewrite Hp0, Hp1, Hp2, Hp3, Hp4, Hsg, Hsgd in H. cbn [bind] in H.
  assert (Hdd' : sized n n dd).
  { destruct (tetrad_cascade_sigma_inv _ _ _ _ _ _ _ _ _ _ _ _ H) as [Et Ep].
    destruct Hdds as (dt & dp & dl). destruct Hsgs as (st & sp & _).
    fold n in st, sp. rewrite <- dt in dl. rewrite <- Et, st in dl.
    unfold sized. rewrite dl, <- Et, <- Ep, st, sp. auto. }
  destruct (tetrad_cascade_ok n K1 dd E p0 p1 p2 p3 p4 sg sgd
              HK1s Hdd' HEs Hp0s Hp1s Hp2s Hp3s Hp4s Hsgs Hsgds)
    as (G' & HG' & Hsz & Hval).
  rewrite HG' in H. inversion H; subst G'.
  exists K1, E, dd, p0, p1, p2, p3, p4, sg, sgd.
  repeat (split; [assumption |]). exact Hval.
Qed.

(** The transformation does return when the supertranslation and the
    default degree of the grid-to-spectral constructor do not exceed the
    degree of the slice. *)
Lemma BMSTransformationOnSlice_total
  (S : SliceModes) (u : R) (v : ThreeVector) (delta : Modes) :
  EllMax delta <= SliceModes_EllMax S -> Modes_L X <= SliceModes_EllMax S ->
  exists G, BMSTransformationOnSlice X S u v delta = Ok G.
Proof.
  intros Hd HL. unfold BMSTransformationOnSlice. cbv zeta.
  set (n := 2 * SliceModes_EllMax S + 1).
  destruct (member_EllMax S) as (L0 & L1 & L2 & L3 & L4 & Ls & Ld).
  destruct (DataGrid_of_functor_total X 0 n n v (InverseConformalFactorFunctor v))
    as (K1 & HK1 & _ & HK1s).
  fold (InverseConformalFactorBoostedGrid X v n n) in HK1.
  rewrite HK1. cbn [bind].
  destruct (DataGrid_boosted_total X (Modes_edth (Modes_edth delta)) v n n)
    as (dd & Hdd & _ & Hdds).
  rewrite Hdd. cbn [bind].
  replace (Z.max n (2 * EllMax (Modes_edth (Modes_edth delta)) + 1)) with n in Hdds
    by (unfold EllMax, Modes_edth in *; cbn [ellMax]; subst n; lia).
  destruct (ethupok_total u v delta (SliceModes_EllMax S) K1 Hd HL HK1s) as (E & HE).
  fold n in HE. rewrite HE. cbn [bind].
  assert (HEs := ethupok_inv u v delta n K1 E HK1s HE).
  destruct (member_boosted S (psi0 S) v L0) as (p0 & Hp0 & Hp0s).
  destruct (member_boosted S (psi1 S) v L1) as (p1 & Hp1 & Hp1s).
  destruct (member_boosted S (psi2 S) v L2) as (p2 & Hp2 & Hp2s).
  destruct (member_boosted S (psi3 S) v L3) as (p3 & Hp3 & Hp3s).
  destruct (member_boosted S (psi4 S) v L4) as (p4 & Hp4 & Hp4s).
  destruct (member_boosted S (sigma S) v Ls) as (sg & Hsg & Hsgs).
  destruct (member_boosted S (sigmadot S) v Ld) as (sgd & Hsgd & Hsgds).
  fold n in Hp0, Hp1, Hp2, Hp3, Hp4, Hsg, Hsgd.
  rewrite Hp0, Hp1, Hp2, Hp3, Hp4, Hsg, Hsgd. cbn [bind].
  destruct (tetrad_cascade_ok n K1 dd E p0 p1 p2 p3 p4 sg sgd
              HK1s Hdds HEs Hp0s Hp1s Hp2s Hp3s Hp4s Hsgs Hsgds)
    as (G & HG & _).
  exists G. exact HG.
Qed.

(** C8.  [BMSTransformationOnSlice] returns whenever the degree of the
    supertranslation and the default degree of the grid-to-spectral
    constructor do not exceed the degree of the slice; and whenever it
    returns, its seven grids have [2*EllMax()+1] points in each direction
    and, at every grid point, are the nested cascade of the claim in the
    samples of the boosted input grids: [k] the sample of [1/K], [e] that
    of [edth(u')/K]. *)
Theorem BMSTransformationOnSlice_cascade
  (S : SliceModes) (u : R) (v : ThreeVector) (delta : Modes) :
  (EllMax delta <= SliceModes_EllMax S -> Modes_L X <= SliceModes_EllMax S ->
   exists G, BMSTransformationOnSlice X S u v delta = Ok G) /\
  forall G : SliceGrid,
  BMSTransformationOnSlice X S u v delta = Ok G ->
  let n := 2 * SliceModes_EllMax S + 1 in
  exists K1 E dd p0 p1 p2 p3 p4 sg sgd : DataGrid,
    InverseConformalFactorBoostedGrid X v n n = Ok K1 /\
    ethupok X u v delta n n K1 = Ok E /\
    DataGrid_boosted X (Modes_edth (Modes_edth delta)) v n n = Ok dd /\
    DataGrid_boosted X (psi0 S) v n n = Ok p0 /\
    DataGrid_boosted X (psi1 S) v n n = Ok p1 /\
    DataGrid_boosted X (psi2 S) v n n = Ok p2 /\
    DataGrid_boosted X (psi3 S) v n n = Ok p3 /\
    DataGrid_boosted X (psi4 S) v n n = Ok p4 /\
    DataGrid_boosted X (sigma S) v n n = Ok sg /\
    DataGrid_boosted X (sigmadot S) v n n = Ok sgd /\
    slice_sized n G /\
    forall i, (i < Z.to_nat (n * n))%nat ->
      let k := sample K1 i in
      let e := sample E i in
      sample (psi4 G) i = psi4_law k (sample p4 i) /\
      sample (psi3 G) i = psi3_law k e (sample p3 i) (sample p4 i) /\
      sample (psi2 G) i = psi2_law k e (sample p2 i) (sample p3 i) (sample p4 i) /\
      sample (psi1 G) i
      = psi1_law k e (sample p1 i) (sample p2 i) (sample p3 i) (sample p4 i) /\
      sample (psi0 G) i
      = psi0_law k e (sample p0 i) (sample p1 i) (sample p2 i) (sample p3 i) (sample p4 i) /\
      sample (sigma G) i = sigma_law k (sample sg i) (sample dd i) /\
      sample (sigmadot G) i = sigmadot_law k (sample sgd i).
Proof.
  split.
  - apply BMSTransformationOnSlice_total.
  - apply BMSTransformationOnSlice_inv.
Qed.

End OnSlice.

Lemma BMSTransformationOnSlice_cascade_witness :
  exists G,
    BMSTransformationOnSlice (constant_Externals zero) slice_ell1 0 [0; 0; 0]%R delta_ell1
    = Ok G /\
    let X := constant_Externals zero in
    let v := [0; 0; 0]%R in
    let n := (2 * SliceModes_EllMax slice_ell1 + 1)%Z in
    exists K1 E dd p0 p1 p2 p3 p4 sg sgd : DataGrid,
      InverseConformalFactorBoostedGrid X v n n = Ok K1 /\
      ethupok X 0 v delta_ell1 n n K1 = Ok E /\
      DataGrid_boosted X (Modes_edth (Modes_edth delta_ell1)) v n n = Ok dd /\
      DataGrid_boosted X (psi0 slice_ell1) v n n = Ok p0 /\
      DataGrid_boosted X (psi1 slice_ell1) v n n = Ok p1 /\
      DataGrid_boosted X (psi2 slice_ell1) v n n = Ok p2 /\
      DataGrid_boosted X (psi3 slice_ell1) v n n = Ok p3 /\
      DataGrid_boosted X (psi4 slice_ell1) v n n = Ok p4 /\
      DataGrid_boosted X (sigma slice_ell1) v n n = Ok sg /\
      DataGrid_boosted X (sigmadot slice_ell1) v n n = Ok sgd /\
      slice_sized n G /\
      forall i, (i < Z.to_nat (n * n))%nat ->
        let k := sample K1 i in
        let e := sample E i in
        sample (psi4 G) i = psi4_law k (sample p4 i) /\
        sample (psi3 G) i = psi3_law k e (sample p3 i) (sample p4 i) /\
        sample (psi2 G) i = psi2_law k e (sample p2 i) (sample p3 i) (sample p4 i) /\
        sample (psi1 G) i
        = psi1_law k e (sample p1 i) (sample p2 i) (sample p3 i) (sample p4 i) /\
        sample (psi0 G) i
        = psi0_law k e (sample p0 i) (sample p1 i) (sample p2 i) (sample p3 i) (sample p4 i) /\
        sample (sigma G) i = sigma_law k (sample sg i) (sample dd i) /\
        sample (sigmadot G) i = sigmadot_law k (sample sgd i).
Proof.
  destruct (proj1 (BMSTransformationOnSlice_cascade (constant_Externals zero) slice_ell1 0
                     [0; 0; 0]%R delta_ell1)) as [G HG];
    [vm_compute; discriminate | vm_compute; discriminate |].
  exists G. split; [exact HG |].
  exact (proj2 (BMSTransformationOnSlice_cascade (constant_Externals zero) slice_ell1 0
                  [0; 0; 0]%R delta_ell1) G HG).
Defined.

(** ** The Moreschi step on a supermomentum track *)

Section TrackMoreschi.
Variable X : Externals.
Local Open Scope Z_scope.

(** The call when the transform and the sum for [deltaderiv] go through. *)
Lemma SuperMomenta_MoreschiIteration_run
  (SM : SuperMomenta) (f : Frame) (Psi_i deltaderiv : Modes) :
  SuperMomenta_BMSTransform X SM (OneOverK f) (delta f) = Ok Psi_i ->
  let M := Mass_of (FourMomentum_of Psi_i) in
  Modes_add Psi_i
    (Modes_of_DataGrid X
       (DataGrid_rdiv M (DataGrid_pow (DataGrid_of_Modes X (OneOverK f) 7 7) 3))
       (Modes_L X)) = Ok deltaderiv ->
  SuperMomenta_MoreschiIteration X SM f
  = (mkFrame
       (Modes_set
          (Modes_set
             (Modes_set
                (Modes_set (OneOverK f) 0 (CdivR (cget (m_data Psi_i) 0) M))
                1 (CdivR (Cneg (cget (m_data Psi_i) 1)) (3 * M)))
             2 (CdivR (Cneg (cget (m_data Psi_i) 2)) (3 * M)))
          3 (CdivR (Cneg (cget (m_data Psi_i) 3)) (3 * M)))
       (delta_step deltaderiv (delta f)),
     Ok tt).
Proof.
  intros HB M HA. unfold SuperMomenta_MoreschiIteration, bindF, read, lift.
  rewrite HB. fold M. rewrite HA. reflexivity.
Qed.

(** The call when the transform raises: nothing is written. *)
Lemma SuperMomenta_MoreschiIteration_early
  (SM : SuperMomenta) (f : Frame) (e : GWFrames_error) :
  SuperMomenta_BMSTransform X SM (OneOverK f) (delta f) = Throw e ->
  SuperMomenta_MoreschiIteration X SM f = (f, Throw e).
Proof.
  intros HB. unfold SuperMomenta_MoreschiIteration, bindF, read, lift.
  rewrite HB. reflexivity.
Qed.




End TrackMoreschi.

(** ** A run of the track-level step *)


Lemma Modes_sub_same_spin (M N : Modes) :
  m_s M = m_s N ->
  exists D, Modes_sub M N = Ok D /\ m_s D = m_s M /\
            ellMax D = if (length (m_data N) <=? length (m_data M))%nat
                       then ellMax M else ellMax N.
Proof.
  intros Hs. unfold Modes_sub.
  replace (m_s M =? m_s N)%Z with true by (symmetry; apply Z.eqb_eq; exact Hs).
  cbn [negb]. destruct (length (m_data N) <=? length (m_data M))%nat.
  - eexists. split; [reflexivity |]. split; reflexivity.
  - eexists. split; [reflexivity |]. cbn [m_s ellMax SetSpin SetEllMax Spin EllMax].
    split; [symmetry; exact Hs | reflexivity].
Qed.


(** The range of a grid whose samples all have the same real part. *)
Lemma u_extent_constant (u : DataGrid) (N : Z) (x : R) :
  (forall i, (i < Z.to_nat N)%nat -> real (cget (dg_data u) i) = x) ->
  (1 <= N)%Z -> u_extent u N = (x, x).
Proof.
  intros H HN. unfold u_extent. rewrite (H 0%nat) by lia.
  assert (Hl : forall i, In i (seq 1 (Z.to_nat N - 1)) -> real (cget (dg_data u) i) = x).
  { intros i Hi. apply in_seq in Hi. apply H. lia. }
  revert Hl. generalize (seq 1 (Z.to_nat N - 1)).
  induction l as [| i l IH]; intros Hl; [reflexivity |].
  cbn [fold_left]. rewrite (Hl i (or_introl eq_refl)).
  rewrite Rgt_b_false, Rlt_b_false by lra.
  apply IH. intros j Hj. apply Hl. right. exact Hj.
Qed.

Section TrackRun.
Local Open Scope Z_scope.



End TrackRun.

Section TrackExamples.
Local Open Scope R_scope.







End TrackExamples.

(** * Further properties of the code *)

(** ** [Boost]: when it raises, and the degenerate axis *)

Section BoostMore.
Local Open Scope R_scope.






End BoostMore.

(** ** [DataGrid]: the size test and the representation invariant *)

Section GridMore.
Local Open Scope Z_scope.

Lemma binary_raises_iff
  (s : Z -> Z -> Z) (f : complex -> complex -> complex) (A B : DataGrid)
  (e : GWFrames_error) :
  (if negb (n_theta B =? n_theta A) then Throw GWFrames_VectorSizeMismatch
   else if negb (n_phi B =? n_phi A) then Throw GWFrames_VectorSizeMismatch
   else Ok (mkDataGrid (s (dg_s A) (dg_s B)) (n_theta A) (n_phi A)
                       (pointwise zero f (dg_data A) (dg_data B)))) = Throw e <->
  (~ same_grid A B /\ e = GWFrames_VectorSizeMismatch).
Proof.
  unfold same_grid.
  destruct (Z.eqb_spec (n_theta B) (n_theta A)) as [Ht | Ht];
    destruct (Z.eqb_spec (n_phi B) (n_phi A)) as [Hp | Hp]; cbn [negb];
    split; intros H;
    try (inversion H; split; [intros [? ?]; congruence | reflexivity]);
    try discriminate;
    try (destruct H as [_ ->]; reflexivity).
  destruct H as [H _]. exfalso. apply H. split; congruence.
Qed.

(** The four binary operators raise exactly when the two grids differ in
    size, whatever the spins are, and then always the size-mismatch
    error. *)
Theorem DataGrid_operators_raise_iff (A B : DataGrid) (e : GWFrames_error) :
  (DataGrid_mul A B = Throw e <-> ~ same_grid A B /\ e = GWFrames_VectorSizeMismatch) /\
  (DataGrid_div A B = Throw e <-> ~ same_grid A B /\ e = GWFrames_VectorSizeMismatch) /\
  (DataGrid_add A B = Throw e <-> ~ same_grid A B /\ e = GWFrames_VectorSizeMismatch) /\
  (DataGrid_sub A B = Throw e <-> ~ same_grid A B /\ e = GWFrames_VectorSizeMismatch).
Proof.
  split; [| split; [| split]].
  - exact (binary_raises_iff Z.add Cmul A B e).
  - exact (binary_raises_iff Z.sub Cdiv A B e).
  - exact (binary_raises_iff (fun a _ => a) Cadd A B e).
  - exact (binary_raises_iff (fun a _ => a) Csub A B e).
Qed.

(** The validating constructor accepts exactly the data of the right
    length, and what it builds satisfies the invariant. *)
Theorem DataGrid_of_data_checked (Spin N_t N_p : Z) (D : list complex) :
  (N_t * N_p = Z.of_nat (length D) ->
   DataGrid_of_data Spin N_t N_p D = Ok (mkDataGrid Spin N_t N_p D) /\
   grid_ok (mkDataGrid Spin N_t N_p D)) /\
  (N_t * N_p <> Z.of_nat (length D) ->
   DataGrid_of_data Spin N_t N_p D = Throw GWFrames_VectorSizeMismatch).
Proof.
  unfold DataGrid_of_data, grid_ok. cbn [dg_data n_theta n_phi].
  destruct (Z.eqb_spec (N_t * N_p) (Z.of_nat (length D))) as [H | H]; cbn [negb].
  - split; [intros _; split; [reflexivity | lia] | intros H'; contradiction].
  - split; [intros H'; contradiction | intros _; reflexivity].
Qed.

Lemma DataGrid_of_data_checked_witness :
  (DataGrid_of_data 0 1 1 [mkC 1 0] = Ok (mkDataGrid 0 1 1 [mkC 1 0]) /\
   grid_ok (mkDataGrid 0 1 1 [mkC 1 0])) /\
  DataGrid_of_data 0 2 2 [mkC 1 0] = Throw GWFrames_VectorSizeMismatch.
Proof.
  split.
  - apply (proj1 (DataGrid_of_data_checked 0 1 1 [mkC 1 0])). reflexivity.
  - apply (proj2 (DataGrid_of_data_checked 0 2 2 [mkC 1 0])). simpl. lia.
Defined.

Lemma DataGrid_add_inv (A B C : DataGrid) :
  DataGrid_add A B = Ok C ->
  n_theta A = n_theta B /\ n_phi A = n_phi B /\
  C = mkDataGrid (dg_s A) (n_theta A) (n_phi A)
                 (pointwise zero Cadd (dg_data A) (dg_data B)).
Proof.
  unfold DataGrid_add.
  destruct (n_theta B =? n_theta A) eqn:Ht; simpl; [| discriminate].
  destruct (n_phi B =? n_phi A) eqn:Hp; simpl; [| discriminate].
  apply Z.eqb_eq in Ht, Hp. intros H. inversion H. auto.
Qed.

(** The invariant is kept by everything that computes on grids: the four
    binary operators (on the size of the left operand), [pow] and the
    four operators with a [double] on the left. *)
Theorem grid_ok_preserved (A B C : DataGrid) (a : R) (p : Z) :
  grid_ok A ->
  (DataGrid_mul A B = Ok C -> grid_ok C /\ same_grid C A) /\
  (DataGrid_div A B = Ok C -> grid_ok C /\ same_grid C A) /\
  (DataGrid_add A B = Ok C -> grid_ok C /\ same_grid C A) /\
  (DataGrid_sub A B = Ok C -> grid_ok C /\ same_grid C A) /\
  grid_ok (DataGrid_pow A p) /\ grid_ok (DataGrid_rmul a A) /\
  grid_ok (DataGrid_rdiv a A) /\ grid_ok (DataGrid_radd a A) /\
  grid_ok (DataGrid_rsub a A).
Proof.
  unfold grid_ok, same_grid. intros HA.
  split; [| split; [| split; [| split]]].
  - intros H. apply DataGrid_mul_inv in H. destruct H as (_ & _ & ->).
    cbn [dg_data n_theta n_phi]. rewrite length_pointwise. auto.
  - intros H. apply DataGrid_div_inv in H. destruct H as (_ & _ & ->).
    cbn [dg_data n_theta n_phi]. rewrite length_pointwise. auto.
  - intros H. apply DataGrid_add_inv in H. destruct H as (_ & _ & ->).
    cbn [dg_data n_theta n_phi]. rewrite length_pointwise. auto.
  - intros H. apply DataGrid_sub_inv in H. destruct H as (_ & _ & ->).
    cbn [dg_data n_theta n_phi]. rewrite length_pointwise. auto.
  - unfold DataGrid_pow, DataGrid_rmul, DataGrid_rdiv, DataGrid_radd, DataGrid_rsub,
      DataGrid_map.
    cbn [dg_data n_theta n_phi]. rewrite !length_map_upto. auto.
Qed.

Lemma grid_ok_preserved_witness :
  (grid_ok (mkDataGrid 2 1 1 [Cmul (mkC 1 0) (mkC 1 0)]) /\
   same_grid (mkDataGrid 2 1 1 [Cmul (mkC 1 0) (mkC 1 0)]) grid_spin0) /\
  grid_ok (DataGrid_pow grid_spin0 3).
Proof.
  assert (H0 : grid_ok grid_spin0) by reflexivity.
  destruct (grid_ok_preserved grid_spin0 grid_spin2
              (mkDataGrid 2 1 1 [Cmul (mkC 1 0) (mkC 1 0)]) 1%R 3 H0)
    as (H1 & _ & _ & _ & H5 & _).
  split; [apply H1; reflexivity | exact H5].
Defined.

End GridMore.

(** ** The conformal factor and its inverse *)

Section ConformalFactor.
Local Open Scope Z_scope.

Lemma length_range (n : Z) : length (range n) = Z.to_nat n.
Proof. unfold range. rewrite length_map, length_seq. reflexivity. Qed.

Lemma length_grid_points (n_t n_p : Z) :
  length (grid_points n_t n_p) = (Z.to_nat n_t * Z.to_nat n_p)%nat.
Proof.
  unfold grid_points. rewrite <- (length_range n_t).
  induction (range n_t) as [| a l IH]; [reflexivity |].
  cbn [flat_map length]. rewrite length_app, length_map, length_range, IH. reflexivity.
Qed.

(** A filling loop whose body does not throw writes the value of each
    grid point at its running index and leaves the earlier entries. *)
Lemma fill_from_pure (g : Z -> Z -> complex) (pts : list (Z * Z)) :
  forall (i0 : nat) (data : list complex),
  exists data',
    fill_from (fun a b => Ok (g a b)) pts i0 data = Ok data' /\
    length data' = length data /\
    (forall k, (k < length pts)%nat -> (i0 + k < length data)%nat ->
               cget data' (i0 + k)
               = g (fst (nth k pts (0, 0))) (snd (nth k pts (0, 0)))) /\
    (forall j, (j < i0)%nat -> cget data' j = cget data j).
Proof.
  induction pts as [| [a b] pts IH]; intros i0 data.
  - exists data. repeat split; try reflexivity. intros k Hk. simpl in Hk. lia.
  - cbn [fill_from bind].
    destruct (IH (S i0) (upd i0 (g a b) data)) as (data' & H1 & H2 & H3 & H4).
    exists data'. split; [exact H1 |]. rewrite length_upd in H2, H3.
    split; [exact H2 |]. split.
    + intros k Hk Hi. destruct k as [| k].
      * rewrite Nat.add_0_r in *. rewrite H4 by lia. unfold cget.
        apply nth_upd_same. exact Hi.
      * replace (i0 + S k)%nat with (S i0 + k)%nat by lia.
        apply H3; simpl in Hk; lia.
    + intros j Hj. rewrite H4 by lia. unfold cget. apply nth_upd_other. lia.
Qed.




End ConformalFactor.

(** ** [Modes]: construction, conjugation, sums *)

Section ModesMore.
Variable X : Externals.
Local Open Scope Z_scope.

Lemma find_ellMax_spec (size : Z) (fuel : nat) :
  forall l : Z,
  let r := find_ellMax size fuel l in
  l <= r <= l + Z.of_nat fuel /\
  (N_lm r = size \/ r = l + Z.of_nat fuel) /\
  (forall j, l <= j < r -> N_lm j <> size).
Proof.
  induction fuel as [| fuel IH]; intros l; cbn [find_ellMax].
  - cbv zeta. split; [lia |]. split; [right; lia |]. intros j Hj. lia.
  - destruct (Z.eqb_spec (N_lm l) size) as [He | Hne].
    + cbv zeta. split; [lia |]. split; [left; exact He |]. intros j Hj. lia.
    + destruct (IH (l + 1)) as (H1 & H2 & H3). cbv zeta in *.
      split; [lia |]. split.
      * destruct H2 as [H2 | H2]; [left; exact H2 | right; lia].
      * intros j Hj. destruct (Z.eq_dec j l) as [-> | Hjl]; [exact Hne |].
        apply H3. lia.
Qed.

(** The constructor from coefficients accepts exactly the lengths
    [(L+1)^2] with [0 <= L < SphericalFunctions::ellMax], and then sets
    [ellMax = L]; every other length, the length [(L+1)^2] of the largest
    degree [L = SphericalFunctions::ellMax] included, is a size mismatch. *)
Theorem Modes_of_data_recognised (SF spin : Z) (Data : list complex) (M : Modes) :
  Modes_of_data SF spin Data = Ok M <->
  exists L, 0 <= L < SF /\ Z.of_nat (length Data) = (L + 1) * (L + 1) /\
            M = mkModes spin L Data.
Proof.
  unfold Modes_of_data. cbv zeta.
  destruct (find_ellMax_spec (Z.of_nat (length Data)) (Z.to_nat (SF + 1)) 0)
    as (H1 & H2 & H3). cbv zeta in *.
  set (r := find_ellMax (Z.of_nat (length Data)) (Z.to_nat (SF + 1)) 0) in *.
  unfold N_lm in *.
  destruct (Z.leb_spec SF r) as [Hle | Hlt]; split.
  - discriminate.
  - intros (L & HL & Hlen & _). exfalso.
    destruct (Z_lt_le_dec L r) as [HLr | HLr].
    + apply (H3 L); [lia | nia].
    + lia.
  - intros H. inversion H. exists r. split; [lia |]. split; [| reflexivity].
    destruct H2 as [H2 | H2]; lia.
  - intros (L & HL & Hlen & ->). do 2 f_equal.
    destruct H2 as [H2 | H2]; [| lia].
    destruct (Z_lt_le_dec L r) as [HLr | HLr].
    + exfalso. apply (H3 L); [lia | nia].
    + nia.
Qed.

(** Going to a grid and back keeps the spin and never lowers the degree;
    with a grid no finer than the default [2*ellMax+1] and a requested
    minimum not above [ellMax], the degree and the number of coefficients
    are those of the field one started from. *)
Theorem Modes_grid_round_trip (M : Modes) (N_t N_p L : Z) :
  0 <= EllMax M ->
  let M' := Modes_of_DataGrid X (DataGrid_of_Modes X M N_t N_p) L in
  m_s M' = m_s M /\ EllMax M <= ellMax M' /\
  (N_t <= 2 * EllMax M + 1 -> N_p <= 2 * EllMax M + 1 -> L <= EllMax M ->
   ellMax M' = EllMax M /\
   Z.of_nat (length (m_data M')) = (EllMax M + 1) * (EllMax M + 1)).
Proof.
  intros He M'. subst M'.
  rewrite Modes_of_DataGrid_length, ellMax_from_grid_quot.
  unfold DataGrid_of_Modes, Spin, EllMax in *. cbn [n_theta n_phi dg_s m_s Modes_of_DataGrid].
  split; [reflexivity |]. split.
  - assert (Hq : forall n, 2 * ellMax M + 1 <= n -> ellMax M <= Z.quot (n - 1) 2).
    { intros n Hn. rewrite Z.quot_div_nonneg by lia.
      apply Z.div_le_lower_bound; lia. }
    assert (H1 := Hq (Z.max N_t (2 * ellMax M + 1)) ltac:(lia)).
    assert (H2 := Hq (Z.max N_p (2 * ellMax M + 1)) ltac:(lia)). lia.
  - intros Ht Hp HL.
    replace (Z.max N_t (2 * ellMax M + 1)) with (2 * ellMax M + 1) by lia.
    replace (Z.max N_p (2 * ellMax M + 1)) with (2 * ellMax M + 1) by lia.
    replace (2 * ellMax M + 1 - 1) with (ellMax M * 2) by lia.
    rewrite Z.quot_mul by lia.
    replace (Z.max (Z.min (ellMax M) (ellMax M)) L) with (ellMax M) by lia.
    unfold N_lm. split; [reflexivity | nia].
Qed.

Lemma conj_conj (a : complex) : conj (conj a) = a.
Proof. apply complex_eq; simpl; ring. Qed.

(** Conjugating twice gives the field back. *)
Theorem Modes_bar_involutive (A : Modes) : Modes_bar (Modes_bar A) = A.
Proof.
  destruct A as [s L d]. unfold Modes_bar. cbn [m_s ellMax m_data].
  rewrite Z.opp_involutive. f_equal.
  rewrite map_map. rewrite <- (map_id d) at 2.
  apply map_ext. intros a. apply conj_conj.
Qed.

Lemma length_combine_into (f : complex -> complex -> complex) (B : list complex) :
  forall C, length (combine_into f C B) = length C.
Proof.
  induction B as [| b B IH]; intros [| c C]; cbn [combine_into length]; auto.
Qed.

Lemma Csub_zero_r (a : complex) : Csub a zero = a.
Proof. apply complex_eq; simpl; ring. Qed.

Lemma Csub_zero_l (a : complex) : Csub zero a = Cneg a.
Proof. apply complex_eq; simpl; ring. Qed.

(** The difference of two fields of equal spin, coefficient by
    coefficient, the shorter one read as zero beyond its end. *)
Lemma Modes_sub_coefficients (M N : Modes) :
  m_s M = m_s N ->
  exists D, Modes_sub M N = Ok D /\ m_s D = m_s M /\
            length (m_data D) = Nat.max (length (m_data M)) (length (m_data N)) /\
            forall i, cget (m_data D) i = Csub (cget (m_data M) i) (cget (m_data N) i).
Proof.
  intros Hs. unfold Modes_sub.
  replace (m_s M =? m_s N) with true by (symmetry; apply Z.eqb_eq; exact Hs).
  cbn [negb].
  destruct (Nat.leb_spec (length (m_data N)) (length (m_data M))) as [Hle | Hgt].
  - eexists. split; [reflexivity |]. cbn [m_s m_data].
    split; [reflexivity |]. rewrite length_combine_into. split; [lia |].
    intros i. rewrite cget_combine_into by exact Hle.
    destruct (Nat.ltb_spec i (length (m_data N))) as [Hi | Hi]; [reflexivity |].
    rewrite (cget_overflow (m_data N) i Hi), Csub_zero_r. reflexivity.
  - eexists. split; [reflexivity |].
    cbn [m_s m_data SetSpin SetEllMax Spin EllMax Modes_of_size].
    rewrite length_map, length_seq, repeat_length, Nat2Z.id.
    split; [symmetry; exact Hs |]. split; [lia |].
    intros i. destruct (Nat.lt_ge_cases i (length (m_data N))) as [Hi | Hi].
    + unfold cget at 1. rewrite (nth_map_in _ _ _ 0%nat) by (rewrite length_seq; exact Hi).
      rewrite seq_nth by exact Hi. cbn [Nat.add].
      destruct (Nat.ltb_spec i (length (m_data M))) as [Hi' | Hi']; [reflexivity |].
      rewrite (cget_overflow (m_data M) i Hi'), Csub_zero_l. reflexivity.
    + rewrite cget_overflow by (rewrite length_map, length_seq; exact Hi).
      rewrite (cget_overflow (m_data N) i Hi), (cget_overflow (m_data M) i) by lia.
      apply complex_eq; simpl; ring.
Qed.

Lemma Modes_add_length (M N P : Modes) :
  Modes_add M N = Ok P ->
  length (m_data P) = Nat.max (length (m_data M)) (length (m_data N)).
Proof.
  unfold Modes_add. destruct (negb (m_s M =? m_s N)); [discriminate |].
  intros H. inversion H. cbn [m_data]. rewrite length_combine_into.
  destruct (Nat.leb_spec (length (m_data N)) (length (m_data M))); lia.
Qed.

(** Sum and difference of two fields of equal spin, whatever their
    degrees: both are returned with that spin, hold as many coefficients
    as the longer operand, and are the coefficientwise sum and difference
    with the shorter operand padded by zeros; adding the subtrahend back
    to the difference gives the coefficients one started from. *)
Theorem Modes_add_sub (M N : Modes) :
  m_s M = m_s N ->
  exists S D R : Modes,
    Modes_add M N = Ok S /\ Modes_sub M N = Ok D /\ Modes_add D N = Ok R /\
    m_s S = m_s M /\ m_s D = m_s M /\
    length (m_data S) = Nat.max (length (m_data M)) (length (m_data N)) /\
    length (m_data D) = Nat.max (length (m_data M)) (length (m_data N)) /\
    forall i,
      cget (m_data S) i = Cadd (cget (m_data M) i) (cget (m_data N) i) /\
      cget (m_data D) i = Csub (cget (m_data M) i) (cget (m_data N) i) /\
      cget (m_data R) i = cget (m_data M) i.
Proof.
  intros Hs.
  destruct (Modes_add_same_spin M N Hs) as (S & HS & HSs & HSi).
  destruct (Modes_sub_coefficients M N Hs) as (D & HD & HDs & HDl & HDi).
  destruct (Modes_add_same_spin D N) as (R & HR & _ & HRi); [congruence |].
  exists S, D, R. repeat (split; [assumption |]).
  split; [apply (Modes_add_length M N S HS) |]. split; [exact HDl |].
  intros i. split; [apply HSi |]. split; [apply HDi |].
  rewrite HRi, HDi. apply complex_eq; simpl; ring.
Qed.

End ModesMore.

Lemma Modes_grid_round_trip_witness :
  let M' := Modes_of_DataGrid (constant_Externals zero)
              (DataGrid_of_Modes (constant_Externals zero) modes_spin2 0 0) (-1) in
  m_s M' = 2%Z /\ (1 <= ellMax M')%Z /\ ellMax M' = 1%Z /\
  Z.of_nat (length (m_data M')) = ((1 + 1) * (1 + 1))%Z.
Proof.
  destruct (Modes_grid_round_trip (constant_Externals zero) modes_spin2 0 0 (-1))
    as (H1 & H2 & H3); [simpl; lia |].
  destruct H3 as (H3 & H4); [simpl; lia | simpl; lia | simpl; lia |].
  repeat split; assumption.
Defined.

Lemma Modes_add_sub_witness :
  exists S D R : Modes,
    Modes_add modes_spin0 delta_ell1 = Ok S /\ Modes_sub modes_spin0 delta_ell1 = Ok D /\
    Modes_add D delta_ell1 = Ok R /\
    m_s S = 0%Z /\ m_s D = 0%Z /\
    length (m_data S) = Nat.max 4 4 /\ length (m_data D) = Nat.max 4 4 /\
    forall i,
      cget (m_data S) i = Cadd (cget (m_data modes_spin0) i) (cget (m_data delta_ell1) i) /\
      cget (m_data D) i = Csub (cget (m_data modes_spin0) i) (cget (m_data delta_ell1) i) /\
      cget (m_data R) i = cget (m_data modes_spin0) i.
Proof.
  apply (Modes_add_sub modes_spin0 delta_ell1). reflexivity.
Defined.

(** ** Composing [edth], [edthbar], [bar] and [edth2edthbar2] *)

Section EdthMore.
Variable X : Externals.
Local Open Scope Z_scope.

Lemma RmulC_RmulC (x y : R) (a : complex) :
  RmulC x (RmulC y a) = RmulC (x * y) a.
Proof. apply complex_eq; simpl; ring. Qed.

Lemma cget_map_conj (d : list complex) (i : nat) :
  cget (map conj d) i = conj (cget d i).
Proof.
  unfold cget. destruct (Nat.lt_ge_cases i (length d)) as [Hlt | Hge].
  - apply (nth_map_in conj d i zero zero Hlt).
  - rewrite !nth_overflow by (rewrite ?length_map; exact Hge).
    apply complex_eq; simpl; ring.
Qed.

Lemma edth_radicand_nonneg (s ell : Z) :
  Z.abs (s + 1) <= ell -> (0 <= IZR (ell - s) * (IZR (ell + s) + 1) / 2)%R.
Proof.
  intros H.
  assert (H1 : (0 <= IZR (ell - s))%R) by (apply IZR_le; lia).
  assert (H2 : (0 <= IZR (ell + s + 1))%R) by (apply IZR_le; lia).
  rewrite plus_IZR in H2.
  assert (H3 := Rmult_le_pos _ _ H1 H2). lra.
Qed.

Lemma edthbar_radicand_nonneg (s ell : Z) :
  Z.abs (s - 1) <= ell -> (0 <= IZR (ell + s) * (IZR (ell - s) + 1) / 2)%R.
Proof.
  intros H.
  assert (H1 : (0 <= IZR (ell + s))%R) by (apply IZR_le; lia).
  assert (H2 : (0 <= IZR (ell - s + 1))%R) by (apply IZR_le; lia).
  rewrite plus_IZR in H2.
  assert (H3 := Rmult_le_pos _ _ H1 H2). lra.
Qed.

(** Lowering after raising: the two square roots meet. *)
Lemma edthbar_edth_factor (s ell : Z) :
  (edthbar_factor (s + 1) ell * edth_factor s ell)%R
  = if Z.abs (s + 1) <=? ell then (- IZR ((ell - s) * (ell + s + 1)) / 2)%R else 0%R.
Proof.
  unfold edthbar_factor, edth_factor. cbv zeta.
  replace (s + 1 - 1) with s by lia.
  destruct (Z.ltb_spec ell (Z.abs (s + 1))) as [H1 | H1];
    destruct (Z.leb_spec (Z.abs (s + 1)) ell) as [H2 | H2]; try lia.
  - ring.
  - destruct (Z.ltb_spec ell (Z.abs s)) as [H3 | H3].
    + replace ((ell - s) * (ell + s + 1)) with 0 by nia. lra.
    + replace (IZR (ell + (s + 1)) * (IZR (ell - (s + 1)) + 1) / 2)%R
        with (IZR (ell - s) * (IZR (ell + s) + 1) / 2)%R
        by (rewrite ?plus_IZR, ?minus_IZR, ?plus_IZR; simpl; field).
      assert (Hn := edth_radicand_nonneg s ell H2).
      replace (- sqrt (IZR (ell - s) * (IZR (ell + s) + 1) / 2)
               * sqrt (IZR (ell - s) * (IZR (ell + s) + 1) / 2))%R
        with (- (sqrt (IZR (ell - s) * (IZR (ell + s) + 1) / 2)
                 * sqrt (IZR (ell - s) * (IZR (ell + s) + 1) / 2)))%R by ring.
      rewrite sqrt_sqrt by exact Hn.
      rewrite mult_IZR, (plus_IZR (ell + s) 1). simpl. field.
Qed.

(** Raising after lowering. *)
Lemma edth_edthbar_factor (s ell : Z) :
  (edth_factor (s - 1) ell * edthbar_factor s ell)%R
  = if Z.abs (s - 1) <=? ell then (- IZR ((ell + s) * (ell - s + 1)) / 2)%R else 0%R.
Proof.
  unfold edthbar_factor, edth_factor. cbv zeta.
  replace (s - 1 + 1) with s by lia.
  destruct (Z.ltb_spec ell (Z.abs (s - 1))) as [H1 | H1];
    destruct (Z.leb_spec (Z.abs (s - 1)) ell) as [H2 | H2]; try lia.
  - ring.
  - destruct (Z.ltb_spec ell (Z.abs s)) as [H3 | H3].
    + replace ((ell + s) * (ell - s + 1)) with 0 by nia. lra.
    + replace (IZR (ell - (s - 1)) * (IZR (ell + (s - 1)) + 1) / 2)%R
        with (IZR (ell + s) * (IZR (ell - s) + 1) / 2)%R
        by (rewrite ?plus_IZR, ?minus_IZR, ?plus_IZR; simpl; field).
      assert (Hn := edthbar_radicand_nonneg s ell H2).
      replace (sqrt (IZR (ell + s) * (IZR (ell - s) + 1) / 2)
               * - sqrt (IZR (ell + s) * (IZR (ell - s) + 1) / 2))%R
        with (- (sqrt (IZR (ell + s) * (IZR (ell - s) + 1) / 2)
                 * sqrt (IZR (ell + s) * (IZR (ell - s) + 1) / 2)))%R by ring.
      rewrite sqrt_sqrt by exact Hn.
      rewrite mult_IZR, (plus_IZR (ell - s) 1). simpl. field.
Qed.

(** Raising then lowering, and lowering then raising, give the spin back
    and multiply the coefficient of [(ell, m)] by a rational number: the
    square roots of the two steps always meet.  From degree [|s|] on, the
    two orders differ by [s] times the coefficient. *)
Theorem edthbar_edth_eigenvalue (A : Modes) (ell m : Z) :
  0 <= ell <= ellMax A -> - ell <= m <= ell ->
  let s := m_s A in
  let i := Z.to_nat (lm_ind ell m (ellMax A)) in
  let a := cget (m_data A) i in
  let down_up := Modes_edthbar (Modes_edth A) in
  let up_down := Modes_edth (Modes_edthbar A) in
  m_s down_up = s /\ m_s up_down = s /\
  cget (m_data down_up) i
  = RmulC (if Z.abs (s + 1) <=? ell
           then (- IZR ((ell - s) * (ell + s + 1)) / 2)%R else 0%R) a /\
  cget (m_data up_down) i
  = RmulC (if Z.abs (s - 1) <=? ell
           then (- IZR ((ell + s) * (ell - s + 1)) / 2)%R else 0%R) a /\
  (Z.abs s <= ell ->
   Csub (cget (m_data down_up) i) (cget (m_data up_down) i) = RmulC (IZR s) a).
Proof.
  intros Hell Hm s i a down_up up_down. subst s i a down_up up_down.
  unfold Modes_edth, Modes_edthbar, Spin. cbn [m_s m_data ellMax].
  rewrite !scale_modes_nth by assumption.
  rewrite !RmulC_RmulC, edthbar_edth_factor, edth_edthbar_factor.
  split; [lia |]. split; [lia |]. split; [reflexivity |]. split; [reflexivity |].
  intros Hs.
  destruct (Z.leb_spec (Z.abs (m_s A + 1)) ell) as [H1 | H1];
    destruct (Z.leb_spec (Z.abs (m_s A - 1)) ell) as [H2 | H2].
  - apply complex_eq; simpl;
      rewrite ?mult_IZR, ?plus_IZR, ?minus_IZR; simpl; field.
  - replace ell with (- m_s A) by lia.
    apply complex_eq; simpl;
      rewrite ?mult_IZR, ?plus_IZR, ?minus_IZR, ?opp_IZR; simpl; field.
  - replace ell with (m_s A) by lia.
    apply complex_eq; simpl;
      rewrite ?mult_IZR, ?plus_IZR, ?minus_IZR; simpl; field.
  - replace (m_s A) with 0 by lia. apply complex_eq; simpl; ring.
Qed.


Lemma edthbar_factor_opp (s ell : Z) :
  edthbar_factor (- s) ell = (- edth_factor s ell)%R.
Proof.
  unfold edthbar_factor, edth_factor. cbv zeta.
  replace (Z.abs (- s - 1)) with (Z.abs (s + 1)) by lia.
  destruct (ell <? Z.abs (s + 1)); [ring |].
  replace (ell + - s) with (ell - s) by lia.
  replace (ell - - s) with (ell + s) by lia. reflexivity.
Qed.

Lemma edth_factor_opp (s ell : Z) :
  edth_factor (- s) ell = (- edthbar_factor s ell)%R.
Proof.
  unfold edthbar_factor, edth_factor. cbv zeta.
  replace (Z.abs (- s + 1)) with (Z.abs (s - 1)) by lia.
  destruct (ell <? Z.abs (s - 1)); [ring |].
  replace (ell + - s) with (ell - s) by lia.
  replace (ell - - s) with (ell + s) by lia. ring.
Qed.

(** Conjugation exchanges raising and lowering, up to a sign: lowering
    the conjugate is minus the conjugate of the raised field, and raising
    the conjugate is minus the conjugate of the lowered field, with the
    same spins on both sides. *)
Theorem bar_exchanges_edth (A : Modes) (ell m : Z) :
  0 <= ell <= ellMax A -> - ell <= m <= ell ->
  let i := Z.to_nat (lm_ind ell m (ellMax A)) in
  m_s (Modes_edthbar (Modes_bar A)) = m_s (Modes_bar (Modes_edth A)) /\
  m_s (Modes_edth (Modes_bar A)) = m_s (Modes_bar (Modes_edthbar A)) /\
  cget (m_data (Modes_edthbar (Modes_bar A))) i
  = Cneg (cget (m_data (Modes_bar (Modes_edth A))) i) /\
  cget (m_data (Modes_edth (Modes_bar A))) i
  = Cneg (cget (m_data (Modes_bar (Modes_edthbar A))) i).
Proof.
  intros Hell Hm i. subst i.
  unfold Modes_edth, Modes_edthbar, Modes_bar, Spin. cbn [m_s m_data ellMax].
  rewrite !cget_map_conj, !scale_modes_nth by assumption.
  rewrite !cget_map_conj, edthbar_factor_opp, edth_factor_opp.
  split; [lia |]. split; [lia |].
  split; apply complex_eq; simpl; ring.
Qed.

(** The accumulation of [EvaluateAtPoint], over any list of indexed
    modes, is additive in the coefficients. *)
Lemma EvaluateAtPoint_loop_add (Y : Z -> Z -> complex) (cS cM cN : nat -> complex) :
  (forall i, cS i = Cadd (cM i) (cN i)) ->
  forall (l : list (nat * (Z * Z))) (dM dN : complex),
  fold_left (fun d '(i_m, (ell, m)) => Cadd d (Cmul (cS i_m) (Y ell m))) l (Cadd dM dN)
  = Cadd (fold_left (fun d '(i_m, (ell, m)) => Cadd d (Cmul (cM i_m) (Y ell m))) l dM)
         (fold_left (fun d '(i_m, (ell, m)) => Cadd d (Cmul (cN i_m) (Y ell m))) l dN).
Proof.
  intros Hc. induction l as [| [i_m [ell m]] l IH]; intros dM dN; [reflexivity |].
  cbn [fold_left]. rewrite <- IH. f_equal. rewrite Hc.
  apply complex_eq; simpl; ring.
Qed.

(** The value at a point of a sum of two fields of equal spin and degree
    is the sum of their values there. *)
Theorem EvaluateAtPoint_add (M N S : Modes) (Rot : Quaternion) :
  m_s M = m_s N -> ellMax M = ellMax N -> Modes_add M N = Ok S ->
  EvaluateAtPoint X S Rot = Cadd (EvaluateAtPoint X M Rot) (EvaluateAtPoint X N Rot).
Proof.
  intros Hs HL HS.
  destruct (Modes_add_same_spin M N Hs) as (S' & HS' & HSs & HSi).
  rewrite HS in HS'. inversion HS'. subst S'. clear HS'.
  assert (HSL : ellMax S = ellMax M).
  { unfold Modes_add in HS. destruct (negb (m_s M =? m_s N)); [discriminate |].
    inversion HS. cbn [ellMax].
    destruct (length (m_data N) <=? length (m_data M))%nat; congruence. }
  unfold EvaluateAtPoint. rewrite HSL, HSs, <- HL, <- Hs.
  replace (mkC 0 0) with (Cadd (mkC 0 0) (mkC 0 0)) at 1
    by (apply complex_eq; simpl; ring).
  apply (EvaluateAtPoint_loop_add (SWSH X (m_s M) Rot)
           (cget (m_data S)) (cget (m_data M)) (cget (m_data N)) HSi).
Qed.

End EdthMore.

Lemma edthbar_edth_eigenvalue_witness :
  m_s (Modes_edthbar (Modes_edth modes_spin0)) = 0%Z /\
  cget (m_data (Modes_edthbar (Modes_edth modes_spin0))) 2
  = RmulC (- IZR ((1 - 0) * (1 + 0 + 1)) / 2) (cget (m_data modes_spin0) 2).
Proof.
  destruct (edthbar_edth_eigenvalue modes_spin0 1 0) as (H1 & _ & H3 & _);
    [simpl; lia | lia |].
  split; [exact H1 | exact H3].
Defined.


Lemma bar_exchanges_edth_witness :
  cget (m_data (Modes_edthbar (Modes_bar modes_spin2))) 2
  = Cneg (cget (m_data (Modes_bar (Modes_edth modes_spin2))) 2).
Proof.
  destruct (bar_exchanges_edth modes_spin2 1 0) as (_ & _ & H3 & _);
    [simpl; lia | lia |].
  exact H3.
Defined.

Lemma EvaluateAtPoint_add_witness :
  exists S, Modes_add modes_spin0 delta_ell1 = Ok S /\
  EvaluateAtPoint ones_Externals S (mkQ 1 0 0 0)
  = Cadd (EvaluateAtPoint ones_Externals modes_spin0 (mkQ 1 0 0 0))
         (EvaluateAtPoint ones_Externals delta_ell1 (mkQ 1 0 0 0)).
Proof.
  eexists. split; [reflexivity |].
  apply (EvaluateAtPoint_add ones_Externals modes_spin0 delta_ell1); reflexivity.
Defined.

(** ** The required times and the window of original slices *)

Section WindowMore.
Variable X : Externals.
Local Open Scope Z_scope.

(** The running maximum and minimum over any list of grid indices. *)
Lemma extent_loop (u : DataGrid) (l : list nat) :
  forall a b : R,
  let r := fold_left
             (fun '(uMax, uMin) i =>
                let u_i := real (cget (dg_data u) i) in
                (if Rgt_b u_i uMax then u_i else uMax,
                 if Rlt_b u_i uMin then u_i else uMin)) l (a, b) in
  (a <= fst r)%R /\ (snd r <= b)%R /\
  (forall i, In i l -> (snd r <= real (cget (dg_data u) i) <= fst r)%R) /\
  (fst r = a \/ exists i, In i l /\ fst r = real (cget (dg_data u) i)) /\
  (snd r = b \/ exists i, In i l /\ snd r = real (cget (dg_data u) i)).
Proof.
  induction l as [| i l IH]; intros a b.
  - cbn. split; [lra |]. split; [lra |]. split; [intros i [] |].
    split; left; reflexivity.
  - cbn [fold_left]. cbv zeta.
    set (x := real (cget (dg_data u) i)).
    pose proof (IH (if Rgt_b x a then x else a) (if Rlt_b x b then x else b)) as H.
    cbv zeta in H. destruct H as (H1 & H2 & H3 & H4 & H5).
    match goal with
    | |- context [fold_left ?f ?l ?p] => set (r := fold_left f l p) in *
    end.
    unfold Rgt_b, Rlt_b in H1, H2, H4, H5.
    destruct (Rgt_dec x a) as [Ha | Ha]; destruct (Rlt_dec x b) as [Hb | Hb].
    all: split; [lra |]; split; [lra |]; split;
      [intros j [<- | Hj]; [fold x; lra | apply H3; exact Hj] |]; split.
    all: try (destruct H4 as [H4 | (j & Hj & H4)];
              [first [left; exact H4 | right; exists i; split; [left; reflexivity | exact H4]]
              | right; exists j; split; [right; exact Hj | exact H4]]).
    all: destruct H5 as [H5 | (j & Hj & H5)];
              [first [left; exact H5 | right; exists i; split; [left; reflexivity | exact H5]]
              | right; exists j; split; [right; exact Hj | exact H5]].
Qed.

(** The extent bounds the required times and is attained. *)
Lemma u_extent_range (u : DataGrid) (N : Z) :
  0 < N ->
  let uMax := fst (u_extent u N) in
  let uMin := snd (u_extent u N) in
  (forall i, (i < Z.to_nat N)%nat -> (uMin <= real (cget (dg_data u) i) <= uMax)%R) /\
  (exists i, (i < Z.to_nat N)%nat /\ uMax = real (cget (dg_data u) i)) /\
  (exists i, (i < Z.to_nat N)%nat /\ uMin = real (cget (dg_data u) i)).
Proof.
  intros HN uMax uMin. subst uMax uMin. unfold u_extent.
  pose proof (extent_loop u (seq 1 (Z.to_nat N - 1))
                (real (cget (dg_data u) 0)) (real (cget (dg_data u) 0))) as H.
  cbv zeta in H. destruct H as (H1 & H2 & H3 & H4 & H5).
  match goal with
  | |- context [fold_left ?f ?l ?p] => set (r := fold_left f l p) in *
  end.
  split; [| split].
  - intros i Hi. destruct i as [| i]; [lra |].
    apply H3. apply in_seq. lia.
  - destruct H4 as [H4 | (j & Hj & H4)].
    + exists 0%nat. split; [lia | exact H4].
    + exists j. apply in_seq in Hj. split; [lia | exact H4].
  - destruct H5 as [H5 | (j & Hj & H5)].
    + exists 0%nat. split; [lia | exact H5].
    + exists j. apply in_seq in Hj. split; [lia | exact H5].
Qed.

(** The extent computed over the points [0 .. N-1] of the grid of
    required times is their true range: every required time lies between
    [uMin] and [uMax], and each of the two is one of the required times. *)
Theorem u_extent_extremes (u : DataGrid) (N : Z) :
  0 < N ->
  let uMax := fst (u_extent u N) in
  let uMin := snd (u_extent u N) in
  (uMin <= uMax)%R /\
  (forall i, (i < Z.to_nat N)%nat -> (uMin <= real (cget (dg_data u) i) <= uMax)%R) /\
  (exists i, (i < Z.to_nat N)%nat /\ uMax = real (cget (dg_data u) i)) /\
  (exists i, (i < Z.to_nat N)%nat /\ uMin = real (cget (dg_data u) i)).
Proof.
  intros HN uMax uMin. split; [apply u_extent_ordered |].
  exact (u_extent_range u N HN).
Qed.

(** The range test fails exactly when some required time lies before the
    first or after the last time of the series. *)
Lemma out_of_range_iff (t : list R) (u : DataGrid) (N : Z) :
  0 < N ->
  out_of_range t (snd (u_extent u N)) (fst (u_extent u N)) = true <->
  exists i, (i < Z.to_nat N)%nat /\
            (real (cget (dg_data u) i) < vget t 0
             \/ last t 0 < real (cget (dg_data u) i))%R.
Proof.
  intros HN.
  destruct (u_extent_range u N HN) as (Hall & (ihi & Hhi & Ehi) & (ilo & Hlo & Elo)).
  cbv zeta in *. unfold out_of_range, Rlt_b, Rgt_b.
  destruct (Rlt_dec (snd (u_extent u N)) (vget t 0)) as [H1 | H1];
    destruct (Rgt_dec (fst (u_extent u N)) (last t 0%R)) as [H2 | H2]; cbn [orb].
  - split; [intros _ | reflexivity]. exists ilo. split; [exact Hlo | left; lra].
  - split; [intros _ | reflexivity]. exists ilo. split; [exact Hlo | left; lra].
  - split; [intros _ | reflexivity]. exists ihi. split; [exact Hhi | right; lra].
  - split; [discriminate |]. intros (i & Hi & Hout). exfalso.
    specialize (Hall i Hi). lra.
Qed.

(** [Scri::BMSTransformation] stops with a value error in step (0) exactly
    when one of the times [u0 + delta] it needs, over the grid of the
    first slice, lies outside the times of the series; no other error
    comes from that step, and nothing is transformed or interpolated then. *)
Theorem Scri_BMSTransformation_time_range
  (S : Scri) (u0 : R) (v : ThreeVector) (delta : Modes) :
  let n := 2 * SliceModes_EllMax (slice_at S 0) + 1 in
  let u := DataGrid_radd u0 (DataGrid_of_Modes X delta n n) in
  let outside :=
    exists i, (i < Z.to_nat (n * n))%nat /\
              (real (cget (dg_data u) i) < vget (t S) 0
               \/ last (t S) 0 < real (cget (dg_data u) i))%R in
  (forall e, Scri_BMSTransformation_window X S u0 delta = Throw e <->
             outside /\ e = GWFrames_ValueError) /\
  (outside -> Scri_BMSTransformation X S u0 v delta = Throw GWFrames_ValueError).
Proof.
  intros n u outside.
  assert (HN : 0 < n * n) by (subst n; nia).
  assert (Hiff := out_of_range_iff (t S) u (n * n) HN). fold outside in Hiff.
  split.
  - intros e. unfold Scri_BMSTransformation_window. cbv zeta. fold n. fold u.
    destruct (u_extent u (n * n)) as [uMax uMin]. cbn [fst snd] in Hiff.
    destruct (out_of_range (t S) uMin uMax).
    + split.
      * intros H. inversion H. split; [apply Hiff; reflexivity | reflexivity].
      * intros [_ ->]. reflexivity.
    + split; [discriminate |]. intros [H _]. apply Hiff in H. discriminate.
  - intros H. apply Scri_BMSTransformation_out_of_range. fold n. fold u.
    apply Hiff. exact H.
Qed.

(** [SuperMomenta::BMSTransform] stops with a value error as soon as one
    of the times [delta] it needs, over the grid of the first
    supermomentum, lies outside the times of the series. *)
Theorem SuperMomenta_BMSTransform_time_range
  (SM : SuperMomenta) (OneOverK delta : Modes) (i : nat) :
  let n := 2 * EllMax (Psi_at SM 0) + 1 in
  let u := DataGrid_of_Modes X delta n n in
  (i < Z.to_nat (n * n))%nat ->
  (real (cget (dg_data u) i) < vget (sm_t SM) 0
   \/ last (sm_t SM) 0 < real (cget (dg_data u) i))%R ->
  SuperMomenta_BMSTransform X SM OneOverK delta = Throw GWFrames_ValueError.
Proof.
  intros n u Hi Hout.
  assert (HN : 0 < n * n) by (subst n; nia).
  apply SuperMomenta_BMSTransform_out_of_range. fold n. fold u.
  apply (out_of_range_iff (sm_t SM) u (n * n) HN).
  exists i. split; assumption.
Qed.

(** The window lies inside the series. *)
Lemma select_window_range (t : list R) (uMin uMax : R) :
  t <> [] ->
  let N := Z.of_nat (length t) in
  let w := select_window t uMin uMax in
  0 <= fst w <= snd w /\ snd w <= N - 1 /\
  Z.min N 4 <= snd w - fst w + 1 /\
  Z.of_nat (length (window_indices w)) = snd w - fst w + 1 /\
  (forall k, In k (window_indices w) <-> fst w <= Z.of_nat k <= snd w).
Proof.
  intros Hne N w.
  assert (HN : 1 <= N) by (subst N; destruct t; [contradiction | simpl; lia]).
  assert (Hlo := iMin_loop_bounds t uMin (length t - 1) 0).
  assert (Hhi := iMax_loop_le t uMax (length t - 1)).
  subst w. unfold window_indices, select_window, iMin_bracket, iMax_bracket.
  cbn [fst snd]. fold N.
  set (b_lo := iMin_loop t uMin (length t - 1) 0) in *.
  set (b_hi := iMax_loop t uMax (length t - 1)) in *.
  rewrite length_seq.
  split; [lia |]. split; [lia |]. split; [lia |]. split; [lia |].
  intros k. rewrite in_seq. lia.
Qed.

(** Whatever range is asked for, the window of a series that is not empty
    lies inside the series, holds at least four slices or the whole
    series, and its indices are the consecutive ones from [iMin] to [iMax]. *)
Theorem select_window_size (t : list R) (uMin uMax : R) :
  t <> [] ->
  let N := Z.of_nat (length t) in
  let w := select_window t uMin uMax in
  0 <= fst w <= snd w /\ snd w <= N - 1 /\
  Z.min N 4 <= snd w - fst w + 1 /\
  Z.of_nat (length (window_indices w)) = snd w - fst w + 1 /\
  (forall k, In k (window_indices w) <-> fst w <= Z.of_nat k <= snd w).
Proof. exact (select_window_range t uMin uMax). Qed.

(** The first and last times of the window enclose the range asked for,
    once that range has passed the test; the times need not be sorted. *)
Lemma select_window_encloses (t : list R) (uMin uMax : R) :
  t <> [] -> out_of_range t uMin uMax = false ->
  let w := select_window t uMin uMax in
  (vget t (Z.to_nat (fst w)) <= uMin)%R /\ (uMax <= vget t (Z.to_nat (snd w)))%R.
Proof.
  intros Hne Hrange w.
  assert (HN : (1 <= length t)%nat) by (destruct t; [contradiction | simpl; lia]).
  destruct (out_of_range_false t uMin uMax Hrange) as [Hfront Hback].
  destruct (iMin_loop_stop t uMin (length t - 1) 0) as [_ Hlo2].
  destruct (iMax_loop_stop t uMax (length t - 1)) as [_ Hhi2].
  assert (Hlo := iMin_loop_bounds t uMin (length t - 1) 0).
  assert (Hhi := iMax_loop_le t uMax (length t - 1)).
  subst w. unfold select_window, iMin_bracket, iMax_bracket. cbn [fst snd].
  set (b_lo := iMin_loop t uMin (length t - 1) 0) in *.
  set (b_hi := iMax_loop t uMax (length t - 1)) in *.
  split.
  - destruct (Nat.eq_dec b_lo 0) as [E | E].
    + replace (Z.to_nat (Z.max 0 (Z.of_nat b_lo - 3))) with 0%nat by lia. exact Hfront.
    + apply Rlt_le. apply Hlo2. lia.
  - set (k := Z.to_nat (Z.min (Z.of_nat (length t) - 1)
                           (Z.max (Z.max 0 (Z.of_nat b_lo - 3) + 7) (Z.of_nat b_hi + 3)))).
    destruct (le_lt_dec k b_hi) as [Hk | Hk].
    + replace k with (length t - 1)%nat by lia. exact Hback.
    + apply Rlt_le. apply Hhi2. lia.
Qed.

(** After the range test, each of the [N] samples of [u] that the scan
    of step (0) has read lies between the times of the first and of the
    last slice of the window.  Nothing is said of a sample past the scan:
    [SuperMomenta::BMSTransform] scans [n_theta*n_phi] samples and in its
    step (2) reads [u] over the product grid, which can be larger. *)
Theorem window_encloses_required_times (t : list R) (u : DataGrid) (N : Z) (i : nat) :
  t <> [] -> 0 < N -> (i < Z.to_nat N)%nat ->
  let uMax := fst (u_extent u N) in
  let uMin := snd (u_extent u N) in
  out_of_range t uMin uMax = false ->
  let w := select_window t uMin uMax in
  (vget t (Z.to_nat (fst w)) <= real (cget (dg_data u) i) <= vget t (Z.to_nat (snd w)))%R.
Proof.
  intros Hne HN Hi uMax uMin Hrange w.
  destruct (u_extent_range u N HN) as (Hall & _).
  specialize (Hall i Hi). cbv zeta in Hall. fold uMax uMin in Hall.
  destruct (select_window_encloses t uMin uMax Hne Hrange) as [H1 H2].
  fold w in H1, H2. lra.
Qed.

End WindowMore.

Section WindowMoreExamples.
Local Open Scope Z_scope.

Lemma u_extent_grid_u_12 : u_extent grid_u_12 2 = (2%R, 1%R).
Proof.
  unfold u_extent. change (seq 1 (Z.to_nat 2 - 1)) with [1%nat].
  cbn [fold_left]. unfold grid_u_12, cget. cbn [dg_data nth real].
  compare_reals. reflexivity.
Qed.

Lemma u_extent_extremes_witness :
  exists i, (i < Z.to_nat 2)%nat /\
            fst (u_extent grid_u_12 2) = real (cget (dg_data grid_u_12) i).
Proof.
  destruct (u_extent_extremes grid_u_12 2) as (_ & _ & H & _); [lia | exact H].
Defined.

Lemma BMSTransform_time_range_witness :
  SuperMomenta_BMSTransform (constant_Externals (mkC 5 0)) track_012
    (OneOverK frame_rest) delta_ell1
  = Throw GWFrames_ValueError.
Proof.
  apply (SuperMomenta_BMSTransform_time_range (constant_Externals (mkC 5 0))
           track_012 (OneOverK frame_rest) delta_ell1 0).
  - change (2 * EllMax (Psi_at track_012 0) + 1) with 3.
    change (Z.to_nat (3 * 3)) with 9%nat. lia.
  - right. change (2 * EllMax (Psi_at track_012 0) + 1) with 3.
    unfold DataGrid_of_Modes. cbn [dg_data].
    change (Z.to_nat (Z.max 3 (2 * EllMax delta_ell1 + 1)
                      * Z.max 3 (2 * EllMax delta_ell1 + 1))) with 9%nat.
    cbn [seq map cget nth]. unfold cget. cbn [nth]. cbn [constant_Externals spinsfast_salm2map real].
    change (last (sm_t track_012) 0%R) with 2%R. lra.
Defined.

Lemma select_window_size_witness :
  let w := select_window times_012 1 1 in
  0 <= fst w <= snd w /\ snd w <= 3 - 1 /\ Z.min 3 4 <= snd w - fst w + 1.
Proof.
  intros w.
  destruct (select_window_size times_012 1 1) as (H1 & H2 & H3 & _);
    [discriminate |].
  split; [exact H1 | split; [exact H2 | exact H3]].
Defined.

Lemma window_encloses_required_times_witness :
  let w := select_window times_012 (snd (u_extent grid_u_12 2))
                         (fst (u_extent grid_u_12 2)) in
  (vget times_012 (Z.to_nat (fst w)) <= real (cget (dg_data grid_u_12) 1)
   <= vget times_012 (Z.to_nat (snd w)))%R.
Proof.
  apply (window_encloses_required_times times_012 grid_u_12 2 1).
  - discriminate.
  - lia.
  - cbn. lia.
  - rewrite u_extent_grid_u_12. cbn [fst snd].
    unfold out_of_range, times_012. cbn [vget nth last]. compare_reals. reflexivity.
Defined.

End WindowMoreExamples.

(** ** The track-level Moreschi step, further *)

Section MoreschiMore.
Variable X : Externals.
Local Open Scope Z_scope.





Lemma Modes_add_raises (M N : Modes) (e : GWFrames_error) :
  Modes_add M N = Throw e -> m_s M <> m_s N /\ e = GWFrames_BadWaveformInformation.
Proof.
  intros H. destruct (Z.eq_dec (m_s M) (m_s N)) as [E | E].
  - destruct (Modes_add_same_spin M N E) as (S & HS & _). congruence.
  - rewrite (Modes_add_spin_mismatch M N E) in H. inversion H. auto.
Qed.

(** [SuperMomenta::MoreschiIteration] writes to its two arguments only
    after everything that can raise has been computed: whenever the call
    is left by an exception, [OneOverK] and [delta] are as they were, and
    the exception is the one of the transform or the spin mismatch of the
    sum for [deltaderiv]. *)
Theorem SuperMomenta_MoreschiIteration_raises
  (SM : SuperMomenta) (f : Frame) (e : GWFrames_error) :
  snd (SuperMomenta_MoreschiIteration X SM f) = Throw e ->
  fst (SuperMomenta_MoreschiIteration X SM f) = f /\
  (SuperMomenta_BMSTransform X SM (OneOverK f) (delta f) = Throw e \/
   exists Psi_i,
     SuperMomenta_BMSTransform X SM (OneOverK f) (delta f) = Ok Psi_i /\
     m_s Psi_i <> m_s (OneOverK f) /\ e = GWFrames_BadWaveformInformation).
Proof.
  destruct (SuperMomenta_BMSTransform X SM (OneOverK f) (delta f)) as [Psi_i | e0] eqn:HB.
  - destruct (Modes_add Psi_i
                (Modes_of_DataGrid X
                   (DataGrid_rdiv (Mass_of (FourMomentum_of Psi_i))
                      (DataGrid_pow (DataGrid_of_Modes X (OneOverK f) 7 7) 3))
                   (Modes_L X))) as [dd | e1] eqn:HA.
    + rewrite (SuperMomenta_MoreschiIteration_run X SM f Psi_i dd HB HA).
      cbn [snd]. discriminate.
    + assert (Hrun : SuperMomenta_MoreschiIteration X SM f = (f, Throw e1)).
      { unfold SuperMomenta_MoreschiIteration, bindF, read, lift.
        rewrite HB, HA. reflexivity. }
      rewrite Hrun. cbn [fst snd]. intros H. inversion H. subst e1.
      split; [reflexivity |]. right. exists Psi_i.
      destruct (Modes_add_raises _ _ _ HA) as [Hs He].
      split; [reflexivity |]. split; [exact Hs | exact He].
  - rewrite (SuperMomenta_MoreschiIteration_early X SM f e0 HB).
    cbn [fst snd]. intros H. inversion H.
    split; [reflexivity | left; reflexivity].
Qed.

End MoreschiMore.

Section NextBoost.
Variable X : Externals.
Local Open Scope R_scope.





End NextBoost.

Section GridPowers.
Local Open Scope Z_scope.

Lemma Cmul_one_l (z : complex) : Cmul (mkC 1 0) z = z.
Proof. apply complex_eq; simpl; ring. Qed.

Lemma Cmul_assoc (a b c : complex) : Cmul a (Cmul b c) = Cmul (Cmul a b) c.
Proof. apply complex_eq; simpl; ring. Qed.

Lemma Cpow_nat_add (z : complex) (p q : nat) :
  Cpow_nat z (p + q) = Cmul (Cpow_nat z p) (Cpow_nat z q).
Proof.
  induction p as [| p IH]; cbn [Nat.add Cpow_nat].
  - symmetry. apply Cmul_one_l.
  - rewrite IH. apply Cmul_assoc.
Qed.

Lemma Cpow_add (z : complex) (p q : Z) :
  0 <= p -> 0 <= q -> Cpow z (p + q) = Cmul (Cpow z p) (Cpow z q).
Proof.
  intros Hp Hq. unfold Cpow.
  replace (p + q <? 0) with false by (symmetry; apply Z.ltb_ge; lia).
  replace (p <? 0) with false by (symmetry; apply Z.ltb_ge; lia).
  replace (q <? 0) with false by (symmetry; apply Z.ltb_ge; lia).
  rewrite Z2Nat.inj_add by assumption. apply Cpow_nat_add.
Qed.

(** Powers compose on the samples but not on the spin: the product of the
    [p]-th and [q]-th powers of a grid has the samples of its [(p+q)]-th
    power, while [pow] leaves the spin weight [s] as it is and the product
    carries [2 s]. *)
Theorem DataGrid_pow_product (n_t n_p : Z) (g : DataGrid) (p q : Z) :
  sized n_t n_p g -> 0 <= p -> 0 <= q ->
  exists P,
    DataGrid_mul (DataGrid_pow g p) (DataGrid_pow g q) = Ok P /\
    dg_s P = dg_s g + dg_s g /\
    dg_s (DataGrid_pow g (p + q)) = dg_s g /\
    forall i, (i < Z.to_nat (n_p * n_t))%nat ->
              sample P i = sample (DataGrid_pow g (p + q)) i.
Proof.
  intros Hg Hp Hq.
  destruct (sized_map n_t n_p (fun z => Cpow z p) g Hg) as (Sp & Hsp & Vp).
  destruct (sized_map n_t n_p (fun z => Cpow z q) g Hg) as (Sq & Hsq & Vq).
  destruct (sized_map n_t n_p (fun z => Cpow z (p + q)) g Hg) as (_ & Hspq & Vpq).
  fold (DataGrid_pow g p) in Sp, Hsp, Vp.
  fold (DataGrid_pow g q) in Sq, Hsq, Vq.
  fold (DataGrid_pow g (p + q)) in Hspq, Vpq.
  destruct (sized_mul n_t n_p (DataGrid_pow g p) (DataGrid_pow g q) Sp Sq)
    as (P & HP & _ & HPs & HPv).
  exists P. split; [exact HP |]. split; [rewrite HPs, Hsp, Hsq; reflexivity |].
  split; [exact Hspq |].
  intros i Hi. rewrite HPv, Vp, Vq, Vpq by exact Hi.
  symmetry. apply Cpow_add; assumption.
Qed.

End GridPowers.

Section MoreschiMoreExamples.
Local Open Scope Z_scope.

(** On the three-slice track, numerics that return [5] everywhere ask for
    the time [5], past the last time [2]. *)
Lemma BMSTransform_track_012_late :
  SuperMomenta_BMSTransform (constant_Externals (mkC 5 0)) track_012
    (OneOverK frame_rest) (delta frame_rest)
  = Throw GWFrames_ValueError.
Proof.
  apply SuperMomenta_BMSTransform_out_of_range.
  change (2 * EllMax (Psi_at track_012 0) + 1) with 3.
  rewrite (u_extent_constant _ (3 * 3) 5%R).
  - cbn [fst snd]. unfold out_of_range. change (sm_t track_012) with times_012.
    unfold times_012. cbn [vget nth last]. compare_reals. reflexivity.
  - intros i Hi. unfold DataGrid_of_Modes. cbn [dg_data]. unfold cget.
    rewrite (nth_map_in _ _ _ 0%nat) by (rewrite length_seq; exact Hi).
    reflexivity.
  - lia.
Qed.

Lemma SuperMomenta_MoreschiIteration_raises_witness :
  fst (SuperMomenta_MoreschiIteration (constant_Externals (mkC 5 0)) track_012 frame_rest)
  = frame_rest.
Proof.
  destruct (SuperMomenta_MoreschiIteration_raises (constant_Externals (mkC 5 0))
              track_012 frame_rest GWFrames_ValueError) as [H _].
  - rewrite (SuperMomenta_MoreschiIteration_early _ _ _ _ BMSTransform_track_012_late).
    reflexivity.
  - exact H.
Defined.


Lemma DataGrid_pow_product_witness :
  exists P,
    DataGrid_mul (DataGrid_pow grid_spin2 1) (DataGrid_pow grid_spin2 2) = Ok P /\
    dg_s P = 2 + 2 /\
    dg_s (DataGrid_pow grid_spin2 (1 + 2)) = 2 /\
    forall i, (i < Z.to_nat (1 * 1))%nat ->
              sample P i = sample (DataGrid_pow grid_spin2 (1 + 2)) i.
Proof.
  apply (DataGrid_pow_product 1 1 grid_spin2 1 2); [| lia | lia].
  repeat split.
Defined.

End MoreschiMoreExamples.

(** ** Boosted grids *)

Section BoostedGridsMore.
Variable X : Externals.
Local Open Scope Z_scope.

(** The constructors on a boosted grid hand [Boost] the direction of a
    grid point, which is not the zero vector: the value error of [Boost]
    on a zero direction cannot occur, and for sizes that are not negative
    the three constructors return for every velocity, with the spin and
    the size they were asked for.  (With a negative size the product
    [n_phi*n_theta] can be negative, and [std::vector] then throws
    [std::length_error] before the loop; that path is not modelled.) *)
Theorem boosted_grids_never_raise
  (M : Modes) (v : ThreeVector) (Spin N_t N_p : Z) (f : Quaternion -> R) :
  0 <= N_t -> 0 <= N_p ->
  (exists g, DataGrid_boosted X M v N_t N_p = Ok g /\ dg_s g = m_s M /\
             sized (Z.max N_t (2 * EllMax M + 1)) (Z.max N_p (2 * EllMax M + 1)) g) /\
  (exists g, DataGrid_of_functor X Spin N_t N_p v f = Ok g /\ dg_s g = Spin /\
             sized N_t N_p g) /\
  (exists g, InverseConformalFactorBoostedGrid X v N_t N_p = Ok g /\ dg_s g = 0 /\
             sized N_t N_p g).
Proof.
  intros _ _.
  split; [apply DataGrid_boosted_total |].
  split; [apply DataGrid_of_functor_total |].
  unfold InverseConformalFactorBoostedGrid. apply DataGrid_of_functor_total.
Qed.

Lemma fill_from_ext (f f' : Z -> Z -> result complex) (pts : list (Z * Z)) :
  (forall a b, f a b = f' a b) ->
  forall (i : nat) (d : list complex), fill_from f pts i d = fill_from f' pts i d.
Proof.
  intros H. induction pts as [| [a b] pts IH]; intros i d; [reflexivity |].
  cbn [fill_from]. rewrite H. destruct (f' a b); cbn [bind]; [apply IH | reflexivity].
Qed.

(** The grid point stored at the running index of [(i_theta, i_phi)]. *)
Lemma nth_rows {A B C : Type} (g : A -> B -> C) (l2 : list B) (dA : A) (dB : B) (dC : C) :
  forall (l1 : list A) (a b : nat),
  (a < length l1)%nat -> (b < length l2)%nat ->
  nth (a * length l2 + b) (flat_map (fun x => map (g x) l2) l1) dC
  = g (nth a l1 dA) (nth b l2 dB).
Proof.
  induction l1 as [| x l1 IH]; intros a b Ha Hb; [simpl in Ha; lia |].
  cbn [flat_map]. destruct a as [| a].
  - cbn [Nat.mul Nat.add nth]. rewrite app_nth1 by (rewrite length_map; exact Hb).
    apply nth_map_in. exact Hb.
  - rewrite app_nth2 by (rewrite length_map; simpl; lia).
    rewrite length_map. cbn [nth].
    replace (S a * length l2 + b - length l2)%nat with (a * length l2 + b)%nat
      by (simpl; lia).
    apply IH; [simpl in Ha; lia | exact Hb].
Qed.

Lemma nth_range (n : Z) (k : nat) :
  (k < Z.to_nat n)%nat -> nth k (range n) 0 = Z.of_nat k.
Proof.
  intros H. unfold range.
  rewrite (nth_map_in _ _ _ 0%nat) by (rewrite length_seq; exact H).
  rewrite seq_nth by exact H. reflexivity.
Qed.

Lemma nth_grid_points (n_t n_p i_theta i_phi : Z) :
  0 <= i_theta < n_t -> 0 <= i_phi < n_p ->
  nth (Z.to_nat (i_theta * n_p + i_phi)) (grid_points n_t n_p) (0, 0)
  = (i_theta, i_phi).
Proof.
  intros Ht Hp. unfold grid_points.
  replace (Z.to_nat (i_theta * n_p + i_phi))
    with (Z.to_nat i_theta * length (range n_p) + Z.to_nat i_phi)%nat
    by (rewrite length_range; nia).
  rewrite (nth_rows (fun a b => (a, b)) (range n_p) 0 0 (0, 0))
    by (rewrite length_range; lia).
  rewrite !nth_range by lia. f_equal; lia.
Qed.

Lemma mul_one_l (q : Quaternion) : mul (mkQ 1 0 0 0) q = q.
Proof.
  destruct q as [w x y z]. unfold mul. cbn [qw qx qy qz]. f_equal; ring.
Qed.

(** With a negligible velocity the boosted grid of a spectral field is
    its plain evaluation on the grid: the sample stored for
    [(i_theta, i_phi)] is the value of the field at the rotor of the
    angles [(dtheta*i_theta, dphi*i_phi)], with no boost in between. *)
Theorem DataGrid_boosted_at_rest
  (M : Modes) (v : ThreeVector) (N_t N_p i_theta i_phi : Z) :
  Boost_negligible (binary64 X) (vneg v) = true ->
  let n_t := Z.max N_t (2 * EllMax M + 1) in
  let n_p := Z.max N_p (2 * EllMax M + 1) in
  0 <= i_theta < n_t -> 0 <= i_phi < n_p ->
  exists g,
    DataGrid_boosted X M v N_t N_p = Ok g /\
    sample g (Z.to_nat (i_theta * n_p + i_phi))
    = EvaluateAtPoint X M (of_angles (PI / IZR (n_t - 1) * IZR i_theta)
                                     (2 * PI / IZR n_p * IZR i_phi)).
Proof.
  intros Hv n_t n_p Ht Hp.
  unfold DataGrid_boosted, fill_grid. cbv zeta. fold n_t n_p.
  rewrite (fill_from_ext _
             (fun a b => Ok (EvaluateAtPoint X M
                               (of_angles (PI / IZR (n_t - 1) * IZR a)
                                          (2 * PI / IZR n_p * IZR b))))).
  2:{ intros a b. unfold boosted_point. cbv zeta.
      rewrite (Boost_of_negligible _ _ _ Hv). cbn [bind]. rewrite mul_one_l.
      reflexivity. }
  destruct (fill_from_pure
              (fun a b => EvaluateAtPoint X M
                            (of_angles (PI / IZR (n_t - 1) * IZR a)
                                       (2 * PI / IZR n_p * IZR b)))
              (grid_points n_t n_p) 0 (repeat zero (Z.to_nat (n_p * n_t))))
    as (data' & Hfill & Hlen & Hval & _).
  rewrite Hfill. cbn [bind]. eexists. split; [reflexivity |].
  unfold sample. cbn [dg_data].
  specialize (Hval (Z.to_nat (i_theta * n_p + i_phi))).
  rewrite length_grid_points, repeat_length in Hval.
  cbn [Nat.add] in Hval. rewrite Hval by nia.
  rewrite nth_grid_points by assumption. reflexivity.
Qed.

End BoostedGridsMore.

Lemma boosted_grids_never_raise_witness :
  (exists g, DataGrid_boosted ones_Externals modes_spin0 [0; 0; 0]%R 3 3 = Ok g /\
             dg_s g = m_s modes_spin0 /\
             sized (Z.max 3 (2 * EllMax modes_spin0 + 1))
                   (Z.max 3 (2 * EllMax modes_spin0 + 1)) g) /\
  (exists g, DataGrid_of_functor ones_Externals 0 3 3 [0; 0; 0]%R (fun _ => 1%R) = Ok g /\
             dg_s g = 0%Z /\ sized 3 3 g) /\
  (exists g, InverseConformalFactorBoostedGrid ones_Externals [0; 0; 0]%R 3 3 = Ok g /\
             dg_s g = 0%Z /\ sized 3 3 g).
Proof.
  apply (boosted_grids_never_raise ones_Externals modes_spin0 [0; 0; 0]%R 0 3 3
           (fun _ => 1%R)); lia.
Defined.

Lemma DataGrid_boosted_at_rest_witness :
  exists g,
    DataGrid_boosted ones_Externals modes_spin0 [0; 0; 0]%R 0 0 = Ok g /\
    sample g (Z.to_nat (1 * 3 + 2))
    = EvaluateAtPoint ones_Externals modes_spin0
        (of_angles (PI / IZR (3 - 1) * IZR 1) (2 * PI / IZR 3 * IZR 2)).
Proof.
  apply (DataGrid_boosted_at_rest ones_Externals modes_spin0 [0; 0; 0]%R 0 0 1 2).
  - apply Boost_negligible_small.
    rewrite norm3_zero by (unfold vneg, vget; cbn [map nth]; lra). lra.
  - simpl. lia.
  - simpl. lia.
Defined.

(** ** The constructor of [Scri] *)

Section ScriConstructor.
Local Open Scope Z_scope.

Lemma In_lm_from (n : nat) :
  forall ell0 ell m,
  In (ell, m) (lm_from n ell0) -> ell0 <= ell < ell0 + Z.of_nat n /\ - ell <= m <= ell.
Proof.
  induction n as [| n IH]; intros ell0 ell m H; cbn [lm_from] in H; [contradiction |].
  apply in_app_or in H. destruct H as [H | H].
  - apply in_map_iff in H. destruct H as (m' & E & Hm'). inversion E; subst.
    unfold m_range in Hm'. apply in_map_iff in Hm'. destruct Hm' as (k & <- & Hk).
    apply in_seq in Hk. split; lia.
  - apply IH in H. lia.
Qed.

Lemma In_lm_indexed (i0 : nat) (L : Z) (i : nat) (ell m : Z) :
  In (i, (ell, m)) (lm_indexed i0 0 L) -> 0 <= ell <= L /\ - ell <= m <= ell.
Proof.
  unfold lm_indexed, lm_range. intros H. apply in_combine_r in H.
  apply In_lm_from in H. lia.
Qed.

Lemma assign_modes_shape (g : nat -> Z -> Z -> complex) (l : list (nat * (Z * Z))) :
  forall d,
  m_s (assign_modes g l d) = m_s d /\ ellMax (assign_modes g l d) = ellMax d /\
  length (m_data (assign_modes g l d)) = length (m_data d).
Proof.
  unfold assign_modes.
  induction l as [| [i [ell m]] l IH]; intros d; [cbn; auto |].
  cbn [fold_left]. destruct (IH (Modes_set d i (g i ell m))) as (H1 & H2 & H3).
  rewrite H1, H2, H3. unfold Modes_set. cbn [m_s ellMax m_data].
  rewrite length_upd. auto.
Qed.

Lemma assign_modes_nth (g : nat -> Z -> Z -> complex) (xs : list (Z * Z)) :
  forall (i0 : nat) (d : Modes) (k : nat),
  cget (m_data (assign_modes g (combine (seq i0 (length xs)) xs) d)) k
  = if ((i0 <=? k) && (k <? i0 + length xs) && (k <? length (m_data d)))%nat
    then g k (fst (nth (k - i0) xs (0, 0))) (snd (nth (k - i0) xs (0, 0)))
    else cget (m_data d) k.
Proof.
  unfold assign_modes.
  induction xs as [| [ell m] xs IH]; intros i0 d k.
  - simpl. destruct (i0 <=? k)%nat eqn:E; simpl; [| reflexivity].
    replace (k <? i0 + 0)%nat with false; [reflexivity |].
    symmetry. apply Nat.ltb_ge. apply Nat.leb_le in E. lia.
  - cbn [length seq combine fold_left]. rewrite IH.
    unfold Modes_set. cbn [m_data]. rewrite length_upd.
    destruct (Nat.eq_dec k i0) as [-> | Hne].
    + replace (S i0 <=? i0)%nat with false by (symmetry; apply Nat.leb_gt; lia).
      rewrite Nat.leb_refl.
      replace (i0 <? i0 + S (length xs))%nat with true
        by (symmetry; apply Nat.ltb_lt; lia).
      rewrite Nat.sub_diag. cbn [andb nth fst snd].
      destruct (Nat.ltb_spec i0 (length (m_data d))) as [Hlt | Hge].
      * unfold cget at 1. rewrite nth_upd_same by assumption. reflexivity.
      * rewrite upd_beyond by assumption. reflexivity.
    + assert (Hk : forall x, cget (upd i0 x (m_data d)) k = cget (m_data d) k)
        by (intros x; unfold cget; apply nth_upd_other; lia).
      rewrite Hk.
      destruct (i0 <=? k)%nat eqn:E1.
      * apply Nat.leb_le in E1.
        replace (S i0 <=? k)%nat with true by (symmetry; apply Nat.leb_le; lia).
        replace (k <? i0 + S (length xs))%nat with (k <? S i0 + length xs)%nat
          by (f_equal; lia).
        replace (k - i0)%nat with (S (k - S i0)) by lia. reflexivity.
      * apply Nat.leb_gt in E1.
        replace (S i0 <=? k)%nat with false by (symmetry; apply Nat.leb_gt; lia).
        reflexivity.
Qed.

(** The coefficient of [(ell, m)] after an assignment loop over [0 .. L]. *)
Lemma assign_modes_lm (g : nat -> Z -> Z -> complex) (L : Z) (d : Modes) (ell m : Z) :
  0 <= ell <= L -> - ell <= m <= ell ->
  (Z.to_nat (lm_ind ell m L) < length (m_data d))%nat ->
  cget (m_data (assign_modes g (lm_indexed 0 0 L) d)) (Z.to_nat (lm_ind ell m L))
  = g (Z.to_nat (lm_ind ell m L)) ell m.
Proof.
  intros Hell Hm Hi. unfold lm_indexed, lm_range.
  rewrite assign_modes_nth. cbn [Nat.leb andb].
  assert (Hlen := length_lm_from (Z.to_nat (L - 0 + 1)) 0 (Z.le_refl 0)).
  assert (Hnth := nth_lm_from (Z.to_nat (L - 0 + 1)) 0 ell m (Z.le_refl 0)).
  replace (Z.to_nat (lm_ind ell m L) <? 0 + length (lm_from (Z.to_nat (L - 0 + 1)) 0))%nat
    with true by (symmetry; apply Nat.ltb_lt; unfold lm_ind; nia).
  replace (Z.to_nat (lm_ind ell m L) <? length (m_data d))%nat with true
    by (symmetry; apply Nat.ltb_lt; exact Hi).
  cbn [andb]. rewrite Nat.sub_0_r. unfold lm_ind at 2 3.
  replace (ell * (ell + 1) + m) with (ell * ell + ell + m - 0 * 0) by lia.
  rewrite Hnth by lia. reflexivity.
Qed.

Lemma slice_get_assign (S : SliceModes) (k j i : nat) (x : complex) :
  slice_get (slice_assign S k i x) j
  = if (Nat.min 6 j =? Nat.min 6 k)%nat then Modes_set (slice_get S j) i x
    else slice_get S j.
Proof.
  destruct k as [| [| [| [| [| [| k]]]]]];
    destruct j as [| [| [| [| [| [| j]]]]]]; reflexivity.
Qed.

Lemma fill_slice_step_get (W : nat -> Waveform) (find : nat -> Z -> Z -> Z)
  (i_t : nat) (slice : SliceModes) (i : nat) (ell m : Z) (j : nat) :
  slice_get (fill_slice_step W find i_t slice (i, (ell, m))) j
  = if (j <? 6)%nat
    then Modes_set (slice_get slice j) i (wf_Data (W j) (find j ell m) i_t)
    else slice_get slice j.
Proof.
  unfold fill_slice_step. cbn [seq fold_left].
  rewrite !slice_get_assign.
  destruct j as [| [| [| [| [| [| j]]]]]]; reflexivity.
Qed.

(** The first loop nest, field by field. *)
Lemma fill_slice_fields (W : nat -> Waveform) (find : nat -> Z -> Z -> Z) (i_t : nat)
  (l : list (nat * (Z * Z))) :
  forall (slice : SliceModes) (j : nat),
  slice_get (fold_left (fill_slice_step W find i_t) l slice) j
  = if (j <? 6)%nat
    then assign_modes (fun _ ell m => wf_Data (W j) (find j ell m) i_t) l (slice_get slice j)
    else slice_get slice j.
Proof.
  induction l as [| [i [ell m]] l IH]; intros slice j.
  - unfold assign_modes. cbn [fold_left]. destruct (j <? 6)%nat; reflexivity.
  - cbn [fold_left]. rewrite IH, fill_slice_step_get.
    unfold assign_modes. cbn [fold_left]. destruct (j <? 6)%nat; reflexivity.
Qed.

Lemma length_update_each {A : Type} (G : nat -> list A -> A) (l : list nat) :
  forall sl : list A,
  length (fold_left (fun sl i => upd i (G i sl) sl) l sl) = length sl.
Proof.
  induction l as [| i l IH]; intros sl; [reflexivity |].
  cbn [fold_left]. rewrite IH. apply length_upd.
Qed.

(** A loop over [i = a .. a+n-1] that rewrites the entry [i] from its own
    old value rewrites each entry once and independently. *)
Lemma nth_update_each {A : Type} (G : nat -> A -> A) (d : A) (n : nat) :
  forall (a : nat) (sl : list A) (j : nat),
  (a + n <= length sl)%nat ->
  nth j (fold_left (fun sl i => upd i (G i (nth i sl d)) sl) (seq a n) sl) d
  = if ((a <=? j) && (j <? a + n))%nat then G j (nth j sl d) else nth j sl d.
Proof.
  induction n as [| n IH]; intros a sl j Hlen.
  - cbn [seq fold_left].
    destruct (Nat.leb_spec a j); destruct (Nat.ltb_spec j (a + 0)); try reflexivity; lia.
  - cbn [seq fold_left]. rewrite IH by (rewrite length_upd; lia).
    destruct (Nat.eq_dec j a) as [-> | Hne].
    + replace (S a <=? a)%nat with false by (symmetry; apply Nat.leb_gt; lia).
      rewrite Nat.leb_refl.
      replace (a <? a + S n)%nat with true by (symmetry; apply Nat.ltb_lt; lia).
      cbn [andb]. apply nth_upd_same. lia.
    + rewrite !(nth_upd_other A d a j) by lia.
      destruct (Nat.leb_spec a j); destruct (Nat.leb_spec (S a) j); try lia;
        destruct (Nat.ltb_spec j (S a + n)); destruct (Nat.ltb_spec j (a + S n));
        try lia; reflexivity.
Qed.

(** The second loop nest seen from one slice: the modes in order. *)
Lemma fill_sigmadot_nth (sigma : Waveform) (find : Z -> Z -> Z) (ntimes : nat)
  (l : list (nat * (Z * Z))) :
  forall (slices : list SliceModes) (j : nat),
  (j < ntimes)%nat -> (ntimes <= length slices)%nat ->
  nth j (fold_left (fill_sigmadot_step sigma find ntimes) l slices)
        (SliceModes_of_ellMax 0)
  = fold_left (fun s '(i, (ell, m)) =>
                 slice_assign s 6 i (cget (wf_DataDot sigma (find ell m)) j))
              l (nth j slices (SliceModes_of_ellMax 0)).
Proof.
  induction l as [| [i [ell m]] l IH]; intros slices j Hj Hlen; [reflexivity |].
  cbn [fold_left]. rewrite IH.
  - f_equal. unfold fill_sigmadot_step.
    rewrite (nth_update_each
               (fun i_t s => slice_assign s 6 i (cget (wf_DataDot sigma (find ell m)) i_t))
               (SliceModes_of_ellMax 0) ntimes 0 slices j) by (simpl; lia).
    replace ((0 <=? j) && (j <? 0 + ntimes))%nat with true; [reflexivity |].
    symmetry. apply andb_true_intro. split; [reflexivity | apply Nat.ltb_lt; lia].
  - exact Hj.
  - unfold fill_sigmadot_step.
    rewrite (length_update_each
               (fun i_t sl => slice_assign (nth i_t sl (SliceModes_of_ellMax 0)) 6 i
                                (cget (wf_DataDot sigma (find ell m)) i_t))).
    exact Hlen.
Qed.

Lemma length_fill_sigmadot (sigma : Waveform) (find : Z -> Z -> Z) (ntimes : nat)
  (l : list (nat * (Z * Z))) :
  forall slices : list SliceModes,
  length (fold_left (fill_sigmadot_step sigma find ntimes) l slices) = length slices.
Proof.
  induction l as [| [i [ell m]] l IH]; intros slices; [reflexivity |].
  cbn [fold_left]. rewrite IH. unfold fill_sigmadot_step.
  apply (length_update_each
           (fun i_t sl => slice_assign (nth i_t sl (SliceModes_of_ellMax 0)) 6 i
                            (cget (wf_DataDot sigma (find ell m)) i_t))).
Qed.

(** The mode-by-mode assignments to [sigmadot] of one slice. *)
Lemma sigmadot_fields (val : Z -> Z -> complex) (l : list (nat * (Z * Z))) :
  forall (s : SliceModes) (k : nat),
  slice_get (fold_left (fun s '(i, (ell, m)) => slice_assign s 6 i (val ell m)) l s) k
  = if (k <? 6)%nat then slice_get s k
    else assign_modes (fun _ ell m => val ell m) l (slice_get s k).
Proof.
  induction l as [| [i [ell m]] l IH]; intros s k.
  - unfold assign_modes. cbn [fold_left]. destruct (k <? 6)%nat; reflexivity.
  - cbn [fold_left]. rewrite IH, slice_get_assign.
    unfold assign_modes. cbn [fold_left].
    destruct k as [| [| [| [| [| [| k]]]]]]; reflexivity.
Qed.

Section Build.
Variables w0 w1 w2 w3 w4 ws : Waveform.
Variable find : nat -> Z -> Z -> Z.

(** The six waveforms agree on the number of times and on the degree. *)
Hypothesis agree :
  forall k, (k <= 5)%nat ->
    wf_NTimes (waveform_of w0 w1 w2 w3 w4 ws k) = wf_NTimes w0 /\
    wf_EllMax (waveform_of w0 w1 w2 w3 w4 ws k) = wf_EllMax w0.

(** Every mode up to the degree is found in every waveform. *)
Hypothesis found :
  forall k ell m, (k <= 5)%nat -> 0 <= ell <= wf_EllMax w0 -> - ell <= m <= ell ->
    wf_FindModeIndex (waveform_of w0 w1 w2 w3 w4 ws k) ell m
    = Ok (find k ell m).

Lemma Scri_fill_slice_run (i_t : nat) (slice : SliceModes) :
  Scri_fill_slice w0 w1 w2 w3 w4 ws (wf_EllMax w0) i_t slice
  = Ok (fold_left (fill_slice_step (waveform_of w0 w1 w2 w3 w4 ws) find i_t)
                  (lm_indexed 0 0 (wf_EllMax w0)) slice).
Proof.
  unfold Scri_fill_slice. apply foldM_pure.
  intros a [i [ell m]] Hin. apply In_lm_indexed in Hin. destruct Hin as [Hell Hm].
  assert (H0 := found 0 ell m ltac:(lia) Hell Hm).
  assert (H1 := found 1 ell m ltac:(lia) Hell Hm).
  assert (H2 := found 2 ell m ltac:(lia) Hell Hm).
  assert (H3 := found 3 ell m ltac:(lia) Hell Hm).
  assert (H4 := found 4 ell m ltac:(lia) Hell Hm).
  assert (H5 := found 5 ell m ltac:(lia) Hell Hm).
  cbn [waveform_of] in H0, H1, H2, H3, H4, H5.
  rewrite H0. cbn [bind]. rewrite H1. cbn [bind]. rewrite H2. cbn [bind].
  rewrite H3. cbn [bind]. rewrite H4. cbn [bind]. rewrite H5. cbn [bind].
  reflexivity.
Qed.

Lemma Scri_fill_sigmadot_run (ntimes : nat) (slices : list SliceModes) :
  Scri_fill_sigmadot ws (wf_EllMax w0) ntimes slices
  = Ok (fold_left (fill_sigmadot_step ws (find 5) ntimes)
                  (lm_indexed 0 0 (wf_EllMax w0)) slices).
Proof.
  unfold Scri_fill_sigmadot. apply foldM_pure.
  intros a [i [ell m]] Hin. apply In_lm_indexed in Hin. destruct Hin as [Hell Hm].
  assert (H5 := found 5 ell m ltac:(lia) Hell Hm). cbn [waveform_of] in H5.
  rewrite H5. reflexivity.
Qed.

(** The constructor on consistent input: both loop nests run to the end. *)
Lemma Scri_of_Waveforms_run :
  Scri_of_Waveforms w0 w1 w2 w3 w4 ws
  = Ok (mkScri (wf_T w0)
          (fold_left (fill_sigmadot_step ws (find 5) (length (wf_T w0)))
             (lm_indexed 0 0 (wf_EllMax w0))
             (fold_left
                (fun sl i =>
                   upd i (fold_left
                            (fill_slice_step (waveform_of w0 w1 w2 w3 w4 ws)
                                             find i)
                            (lm_indexed 0 0 (wf_EllMax w0))
                            (nth i sl (SliceModes_of_ellMax 0))) sl)
                (seq 0 (length (wf_T w0)))
                (repeat (SliceModes_of_ellMax (wf_EllMax w0)) (length (wf_T w0)))))).
Proof.
  unfold Scri_of_Waveforms. cbv zeta.
  destruct (agree 1 ltac:(lia)) as [N1 E1]. destruct (agree 2 ltac:(lia)) as [N2 E2].
  destruct (agree 3 ltac:(lia)) as [N3 E3]. destruct (agree 4 ltac:(lia)) as [N4 E4].
  destruct (agree 5 ltac:(lia)) as [N5 E5].
  cbn [waveform_of] in N1, N2, N3, N4, N5, E1, E2, E3, E4, E5.
  rewrite N1, N2, N3, N4, N5, E1, E2, E3, E4, E5, !Z.eqb_refl. cbn [negb orb].
  rewrite (foldM_pure _
             (fun sl i =>
                upd i (fold_left
                         (fill_slice_step (waveform_of w0 w1 w2 w3 w4 ws)
                                          find i)
                         (lm_indexed 0 0 (wf_EllMax w0))
                         (nth i sl (SliceModes_of_ellMax 0))) sl)).
  2:{ intros a i _. rewrite Scri_fill_slice_run. reflexivity. }
  cbn [bind]. rewrite Scri_fill_sigmadot_run. reflexivity.
Qed.

(** What the track built by the constructor holds. *)
Lemma Scri_of_Waveforms_built :
  exists S,
    Scri_of_Waveforms w0 w1 w2 w3 w4 ws = Ok S /\
    t S = wf_T w0 /\ length (slices S) = length (wf_T w0) /\
    forall i_t, (i_t < length (wf_T w0))%nat ->
      slice_spins (slice_at S i_t) /\
      (forall k, EllMax (slice_get (slice_at S i_t) k) = wf_EllMax w0) /\
      forall ell m, 0 <= ell <= wf_EllMax w0 -> - ell <= m <= ell ->
        let i := Z.to_nat (lm_ind ell m (wf_EllMax w0)) in
        (forall k, (k <= 5)%nat ->
           cget (m_data (slice_get (slice_at S i_t) k)) i
           = wf_Data (waveform_of w0 w1 w2 w3 w4 ws k) (find k ell m) i_t) /\
        cget (m_data (sigmadot (slice_at S i_t))) i
        = cget (wf_DataDot ws (find 5 ell m)) i_t.
Proof.
  eexists. split; [apply Scri_of_Waveforms_run |]. cbn [t slices].
  split; [reflexivity |]. split.
  { rewrite length_fill_sigmadot.
    rewrite (length_update_each
               (fun i sl =>
                  fold_left (fill_slice_step (waveform_of w0 w1 w2 w3 w4 ws)
                                             find i)
                            (lm_indexed 0 0 (wf_EllMax w0))
                            (nth i sl (SliceModes_of_ellMax 0)))).
    apply repeat_length. }
  intros i_t Hi. unfold slice_at. cbn [slices].
  set (n := length (wf_T w0)) in *. set (L := wf_EllMax w0) in *.
  set (W := waveform_of w0 w1 w2 w3 w4 ws) in *.
  set (init := SliceModes_of_ellMax L).
  rewrite fill_sigmadot_nth.
  2:{ exact Hi. }
  2:{ rewrite (length_update_each
                 (fun i sl => fold_left (fill_slice_step W find i) (lm_indexed 0 0 L)
                                (nth i sl (SliceModes_of_ellMax 0)))).
      rewrite repeat_length. lia. }
  rewrite (nth_update_each
             (fun i s => fold_left (fill_slice_step W find i) (lm_indexed 0 0 L) s)
             (SliceModes_of_ellMax 0) n 0 (repeat init n) i_t)
    by (rewrite repeat_length; lia).
  replace ((0 <=? i_t) && (i_t <? 0 + n))%nat with true
    by (symmetry; apply andb_true_intro; split; [reflexivity | apply Nat.ltb_lt; lia]).
  rewrite (nth_repeat_lt init (SliceModes_of_ellMax 0) Hi).
  set (first := fold_left (fill_slice_step W find i_t) (lm_indexed 0 0 L) init).
  set (final := fold_left _ (lm_indexed 0 0 L) first).
  assert (Hget : forall k,
    slice_get final k
    = if (k <? 6)%nat
      then assign_modes (fun _ ell m => wf_Data (W k) (find k ell m) i_t)
             (lm_indexed 0 0 L) (slice_get init k)
      else assign_modes (fun _ ell m => cget (wf_DataDot ws (find 5 ell m)) i_t)
             (lm_indexed 0 0 L) (slice_get init k)).
  { intros k. subst final.
    rewrite (sigmadot_fields (fun ell m => cget (wf_DataDot ws (find 5 ell m)) i_t)).
    subst first. rewrite fill_slice_fields.
    destruct (k <? 6)%nat; reflexivity. }
  assert (Hshape : forall k,
    m_s (slice_get final k) = m_s (slice_get init k) /\
    ellMax (slice_get final k) = L /\
    length (m_data (slice_get final k)) = Z.to_nat (lm_ind L L L + 1)).
  { intros k. rewrite Hget.
    assert (Hinit : ellMax (slice_get init k) = L /\
                    length (m_data (slice_get init k)) = Z.to_nat (lm_ind L L L + 1)).
    { subst init. unfold SliceModes_of_ellMax.
      destruct k as [| [| [| [| [| [| k]]]]]]; cbn; rewrite repeat_length; auto. }
    destruct (k <? 6)%nat;
      match goal with
      | |- context [assign_modes ?g ?l ?d] =>
          destruct (assign_modes_shape g l d) as (H1 & H2 & H3)
      end; rewrite H1, H2, H3; tauto. }
  split; [| split].
  - unfold slice_spins.
    change (psi0 final) with (slice_get final 0).
    change (psi1 final) with (slice_get final 1).
    change (psi2 final) with (slice_get final 2).
    change (psi3 final) with (slice_get final 3).
    change (psi4 final) with (slice_get final 4).
    change (sigma final) with (slice_get final 5).
    change (sigmadot final) with (slice_get final 6).
    rewrite (proj1 (Hshape 0%nat)), (proj1 (Hshape 1%nat)), (proj1 (Hshape 2%nat)),
      (proj1 (Hshape 3%nat)), (proj1 (Hshape 4%nat)), (proj1 (Hshape 5%nat)),
      (proj1 (Hshape 6%nat)).
    subst init. cbn. tauto.
  - intros k. unfold EllMax. apply (Hshape k).
  - intros ell m Hell Hm. set (i := Z.to_nat (lm_ind ell m L)).
    assert (Hi' : forall k, (i < length (m_data (slice_get init k)))%nat).
    { intros k. subst init i. unfold SliceModes_of_ellMax.
      destruct k as [| [| [| [| [| [| k]]]]]]; cbn; rewrite repeat_length;
        unfold lm_ind; nia. }
    split.
    + intros k Hk. rewrite Hget.
      replace (k <? 6)%nat with true by (symmetry; apply Nat.ltb_lt; lia).
      subst i. rewrite assign_modes_lm by (try assumption; apply Hi'). reflexivity.
    + change (sigmadot final) with (slice_get final 6). rewrite Hget.
      cbn [Nat.ltb Nat.leb]. subst i.
      rewrite assign_modes_lm by (try assumption; apply Hi'). reflexivity.
Qed.

End Build.

End ScriConstructor.

Section ScriConstructorProperties.
Variable X : Externals.
Local Open Scope Z_scope.

(** The constructor compares the number of times and the degree of the
    five other waveforms with those of [psi0] before it looks up any mode:
    a disagreement is a size mismatch, whatever the waveforms hold. *)
Theorem Scri_of_Waveforms_mismatch (w0 w1 w2 w3 w4 ws : Waveform) (k : nat) :
  (k <= 5)%nat ->
  wf_NTimes (waveform_of w0 w1 w2 w3 w4 ws k) <> wf_NTimes w0 \/
  wf_EllMax (waveform_of w0 w1 w2 w3 w4 ws k) <> wf_EllMax w0 ->
  Scri_of_Waveforms w0 w1 w2 w3 w4 ws = Throw GWFrames_VectorSizeMismatch.
Proof.
  intros Hk H. unfold Scri_of_Waveforms. cbv zeta.
  destruct (Z.eqb_spec (wf_NTimes w0) (wf_NTimes w1)); [| reflexivity].
  destruct (Z.eqb_spec (wf_NTimes w0) (wf_NTimes w2)); [| reflexivity].
  destruct (Z.eqb_spec (wf_NTimes w0) (wf_NTimes w3)); [| reflexivity].
  destruct (Z.eqb_spec (wf_NTimes w0) (wf_NTimes w4)); [| reflexivity].
  destruct (Z.eqb_spec (wf_NTimes w0) (wf_NTimes ws)); [| reflexivity].
  cbn [negb orb].
  destruct (Z.eqb_spec (wf_EllMax w0) (wf_EllMax w1)); [| reflexivity].
  destruct (Z.eqb_spec (wf_EllMax w0) (wf_EllMax w2)); [| reflexivity].
  destruct (Z.eqb_spec (wf_EllMax w0) (wf_EllMax w3)); [| reflexivity].
  destruct (Z.eqb_spec (wf_EllMax w0) (wf_EllMax w4)); [| reflexivity].
  destruct (Z.eqb_spec (wf_EllMax w0) (wf_EllMax ws)); [| reflexivity].
  exfalso.
  destruct k as [| [| [| [| [| [| k]]]]]]; cbn [waveform_of] in H; try lia;
    destruct H as [H | H]; apply H; congruence.
Qed.

(** On six waveforms that agree on the number of times and on the degree
    and hold every mode up to that degree, the constructor returns a track
    with the times of [psi0] and one slice per time; in the slice of time
    [i_t] the seven fields have the spins [2, 1, 0, -1, -2, 2, 2] and the
    common degree, the coefficient of [(ell, m)] of each of the first six is
    the sample of its waveform for that mode at [i_t], and that of
    [sigmadot] is the time derivative the shear waveform reports. *)
Theorem Scri_of_Waveforms_content
  (w0 w1 w2 w3 w4 ws : Waveform) (find : nat -> Z -> Z -> Z) :
  (forall k, (k <= 5)%nat ->
     wf_NTimes (waveform_of w0 w1 w2 w3 w4 ws k) = wf_NTimes w0 /\
     wf_EllMax (waveform_of w0 w1 w2 w3 w4 ws k) = wf_EllMax w0) ->
  (forall k ell m, (k <= 5)%nat -> 0 <= ell <= wf_EllMax w0 -> - ell <= m <= ell ->
     wf_FindModeIndex (waveform_of w0 w1 w2 w3 w4 ws k) ell m = Ok (find k ell m)) ->
  exists S,
    Scri_of_Waveforms w0 w1 w2 w3 w4 ws = Ok S /\
    t S = wf_T w0 /\ length (slices S) = length (wf_T w0) /\
    forall i_t, (i_t < length (wf_T w0))%nat ->
      slice_spins (slice_at S i_t) /\
      (forall k, EllMax (slice_get (slice_at S i_t) k) = wf_EllMax w0) /\
      forall ell m, 0 <= ell <= wf_EllMax w0 -> - ell <= m <= ell ->
        let i := Z.to_nat (lm_ind ell m (wf_EllMax w0)) in
        (forall k, (k <= 5)%nat ->
           cget (m_data (slice_get (slice_at S i_t) k)) i
           = wf_Data (waveform_of w0 w1 w2 w3 w4 ws k) (find k ell m) i_t) /\
        cget (m_data (sigmadot (slice_at S i_t))) i
        = cget (wf_DataDot ws (find 5%nat ell m)) i_t.
Proof. exact (Scri_of_Waveforms_built w0 w1 w2 w3 w4 ws find). Qed.

Lemma mapM_each {A B : Type} (f : A -> result B) (dA : A) (dB : B) (l : list A) :
  (forall a, In a l -> exists b, f a = Ok b) ->
  exists bs, mapM f l = Ok bs /\ length bs = length l /\
             forall i, (i < length l)%nat -> f (nth i l dA) = Ok (nth i bs dB).
Proof.
  induction l as [| a l IH]; intros H.
  - exists []. split; [reflexivity |]. split; [reflexivity |].
    intros i Hi. simpl in Hi. lia.
  - destruct (H a (or_introl eq_refl)) as [b Hb].
    destruct IH as (bs & Hbs & Hlen & Hnth).
    { intros a' Ha'. apply H. right. exact Ha'. }
    exists (b :: bs). cbn [mapM]. rewrite Hb. cbn [bind]. rewrite Hbs. cbn [bind].
    split; [reflexivity |]. split; [simpl; lia |].
    intros [| i] Hi; [exact Hb |]. cbn [nth]. apply Hnth. simpl in Hi. lia.
Qed.

(** A track built by the constructor from waveforms of a degree that is
    not negative always has its supermomenta: [SuperMomenta(Scri(...))]
    does not raise, keeps the times, and holds for each time the
    supermomentum of that slice, of spin [0]. *)
Theorem SuperMomenta_of_Scri_of_Waveforms
  (w0 w1 w2 w3 w4 ws : Waveform) (find : nat -> Z -> Z -> Z) :
  (forall k, (k <= 5)%nat ->
     wf_NTimes (waveform_of w0 w1 w2 w3 w4 ws k) = wf_NTimes w0 /\
     wf_EllMax (waveform_of w0 w1 w2 w3 w4 ws k) = wf_EllMax w0) ->
  (forall k ell m, (k <= 5)%nat -> 0 <= ell <= wf_EllMax w0 -> - ell <= m <= ell ->
     wf_FindModeIndex (waveform_of w0 w1 w2 w3 w4 ws k) ell m = Ok (find k ell m)) ->
  0 <= wf_EllMax w0 ->
  exists S SM,
    Scri_of_Waveforms w0 w1 w2 w3 w4 ws = Ok S /\
    SuperMomenta_of_Scri X S = Ok SM /\
    sm_t SM = wf_T w0 /\ length (Psi SM) = length (wf_T w0) /\
    forall i_t, (i_t < length (wf_T w0))%nat ->
      SuperMomentum X (slice_at S i_t) = Ok (Psi_at SM i_t) /\
      m_s (Psi_at SM i_t) = 0.
Proof.
  intros Hagree Hfound HL.
  destruct (Scri_of_Waveforms_built w0 w1 w2 w3 w4 ws find Hagree Hfound)
    as (S & HS & Ht & Hlen & Hsl).
  assert (Heach : forall i_t, (i_t < length (wf_T w0))%nat ->
            exists Psi_i, SuperMomentum X (slice_at S i_t) = Ok Psi_i /\ m_s Psi_i = 0).
  { intros i_t Hi. destruct (Hsl i_t Hi) as (Hspins & HE & _).
    destruct (SuperMomentum_total X (slice_at S i_t) Hspins) as (_ & Psi_i & _ & HP & Hs & _).
    - change (sigma (slice_at S i_t)) with (slice_get (slice_at S i_t) 5).
      rewrite HE. exact HL.
    - change (sigmadot (slice_at S i_t)) with (slice_get (slice_at S i_t) 6).
      rewrite HE. exact HL.
    - exists Psi_i. split; assumption. }
  destruct (mapM_each (fun i => SuperMomentum X (slice_at S i)) 0%nat (Modes_of_size 0)
              (seq 0 (length (t S)))) as (Ps & HPs & HPlen & HPnth).
  { intros a Ha. apply in_seq in Ha. rewrite Ht in Ha.
    destruct (Heach a ltac:(lia)) as (Psi_i & HP & _). exists Psi_i. exact HP. }
  exists S, (mkSuperMomenta (t S) Ps).
  split; [exact HS |]. split.
  { unfold SuperMomenta_of_Scri. rewrite HPs. reflexivity. }
  cbn [sm_t Psi]. split; [exact Ht |].
  rewrite length_seq in HPlen, HPnth. rewrite Ht in HPlen, HPnth.
  split; [exact HPlen |].
  intros i_t Hi. specialize (HPnth i_t Hi). rewrite seq_nth in HPnth by exact Hi.
  cbn [Nat.add] in HPnth. unfold Psi_at. cbn [Psi].
  split; [exact HPnth |].
  destruct (Heach i_t Hi) as (Psi_i & HP & Hs). congruence.
Qed.

End ScriConstructorProperties.

Section ScriConstructorExamples.
Local Open Scope Z_scope.

Lemma waveform_ones_agree :
  forall k, (k <= 5)%nat ->
    wf_NTimes (waveform_of waveform_ones waveform_ones waveform_ones waveform_ones
                           waveform_ones waveform_ones k) = wf_NTimes waveform_ones /\
    wf_EllMax (waveform_of waveform_ones waveform_ones waveform_ones waveform_ones
                           waveform_ones waveform_ones k) = wf_EllMax waveform_ones.
Proof.
  intros k _. destruct k as [| [| [| [| [| [| k]]]]]]; split; reflexivity.
Qed.

Lemma waveform_ones_found :
  forall k ell m, (k <= 5)%nat -> 0 <= ell <= wf_EllMax waveform_ones -> - ell <= m <= ell ->
    wf_FindModeIndex (waveform_of waveform_ones waveform_ones waveform_ones waveform_ones
                                  waveform_ones waveform_ones k) ell m
    = Ok ((fun _ ell m => lm_ind ell m 1) k ell m).
Proof.
  intros k ell m _ _ _. destruct k as [| [| [| [| [| [| k]]]]]]; reflexivity.
Qed.

Lemma Scri_of_Waveforms_mismatch_witness :
  Scri_of_Waveforms waveform_ones waveform_ones waveform_longer waveform_ones
                    waveform_ones waveform_ones
  = Throw GWFrames_VectorSizeMismatch.
Proof.
  apply (Scri_of_Waveforms_mismatch waveform_ones waveform_ones waveform_longer
           waveform_ones waveform_ones waveform_ones 2); [lia |].
  left. cbn. lia.
Defined.

Lemma Scri_of_Waveforms_content_witness :
  exists S,
    Scri_of_Waveforms waveform_ones waveform_ones waveform_ones waveform_ones
                      waveform_ones waveform_ones = Ok S /\
    t S = times_012 /\ length (slices S) = 3%nat /\
    slice_spins (slice_at S 1) /\
    cget (m_data (psi2 (slice_at S 1))) 2 = mkC 1 0.
Proof.
  destruct (Scri_of_Waveforms_content waveform_ones waveform_ones waveform_ones
              waveform_ones waveform_ones waveform_ones (fun _ ell m => lm_ind ell m 1)
              waveform_ones_agree waveform_ones_found)
    as (S & HS & Ht & Hlen & Hsl).
  exists S. split; [exact HS |]. split; [exact Ht |]. split; [exact Hlen |].
  destruct (Hsl 1%nat ltac:(simpl; lia)) as (Hspins & _ & Hval).
  split; [exact Hspins |].
  destruct (Hval 1 0 ltac:(simpl; lia) ltac:(lia)) as [Hk _].
  exact (Hk 2%nat ltac:(lia)).
Defined.

Lemma SuperMomenta_of_Scri_of_Waveforms_witness :
  exists S SM,
    Scri_of_Waveforms waveform_ones waveform_ones waveform_ones waveform_ones
                      waveform_ones waveform_ones = Ok S /\
    SuperMomenta_of_Scri (constant_Externals zero) S = Ok SM /\
    sm_t SM = times_012 /\ length (Psi SM) = 3%nat.
Proof.
  destruct (SuperMomenta_of_Scri_of_Waveforms (constant_Externals zero)
              waveform_ones waveform_ones waveform_ones
              waveform_ones waveform_ones waveform_ones (fun _ ell m => lm_ind ell m 1)
              waveform_ones_agree waveform_ones_found ltac:(simpl; lia))
    as (S & SM & HS & HSM & Ht & Hlen & _).
  exists S, SM. repeat split; assumption.
Defined.

End ScriConstructorExamples.

(** ** When the two transformations return *)

Section TransformationsReturn.
Variable X : Externals.
Local Open Scope Z_scope.

Lemma slice_get_set {D : Type} (G : SliceOfScri D) (k j : nat) (x : D) :
  slice_get (slice_set G k x) j
  = if (Nat.min 6 j =? Nat.min 6 k)%nat then x else slice_get G j.
Proof.
  destruct k as [| [| [| [| [| [| k]]]]]];
    destruct j as [| [| [| [| [| [| j]]]]]]; reflexivity.
Qed.

(** The interpolation loops write samples; the spins of the seven grids stay. *)
Lemma interpolation_keeps_spins (val : nat -> nat -> complex) (l1 l2 : list nat) :
  forall (G : SliceGrid) (k : nat),
  dg_s (slice_get
          (fold_left
             (fun G i_g =>
                fold_left
                  (fun G i_D =>
                     slice_set G i_D (DataGrid_set (slice_get G i_D) i_g (val i_g i_D)))
                  l2 G)
             l1 G) k)
  = dg_s (slice_get G k).
Proof.
  assert (Hinner : forall i_g (l : list nat) (G : SliceGrid) (k : nat),
    dg_s (slice_get
            (fold_left
               (fun G i_D =>
                  slice_set G i_D (DataGrid_set (slice_get G i_D) i_g (val i_g i_D)))
               l G) k)
    = dg_s (slice_get G k)).
  { intros i_g l. induction l as [| i_D l IH]; intros G k; [reflexivity |].
    cbn [fold_left]. rewrite IH, slice_get_set.
    destruct (Nat.min 6 k =? Nat.min 6 i_D)%nat eqn:E; [| reflexivity].
    unfold DataGrid_set. cbn [dg_s]. f_equal.
    apply Nat.eqb_eq in E.
    destruct k as [| [| [| [| [| [| k]]]]]];
      destruct i_D as [| [| [| [| [| [| i_D]]]]]]; cbn in E; try discriminate;
      reflexivity. }
  induction l1 as [| i_g l1 IH]; intros G k; [reflexivity |].
  cbn [fold_left]. rewrite IH. apply Hinner.
Qed.

Lemma back_to_modes_spins (G : SliceGrid) (B0 : SliceModes) (L : Z) :
  dg_s (slice_get G 0) = 2 -> dg_s (slice_get G 1) = 1 -> dg_s (slice_get G 2) = 0 ->
  dg_s (slice_get G 3) = -1 -> dg_s (slice_get G 4) = -2 ->
  dg_s (slice_get G 5) = 2 -> dg_s (slice_get G 6) = 2 ->
  slice_spins
    (fold_left (fun B i_D => slice_set B i_D (Modes_of_DataGrid X (slice_get G i_D) L))
               (seq 0 7) B0).
Proof.
  intros H0 H1 H2 H3 H4 H5 H6. cbn [seq fold_left].
  unfold slice_spins, slice_set.
  cbn [psi0 psi1 psi2 psi3 psi4 sigma sigmadot].
  unfold Modes_of_DataGrid. cbn [m_s]. tauto.
Qed.

Lemma in_range_passes (t : list R) (u : DataGrid) (N : Z) :
  0 < N ->
  (forall i, (i < Z.to_nat N)%nat ->
     (vget t 0 <= real (cget (dg_data u) i) <= last t 0)%R) ->
  out_of_range t (snd (u_extent u N)) (fst (u_extent u N)) = false.
Proof.
  intros HN Hall.
  destruct (out_of_range t (snd (u_extent u N)) (fst (u_extent u N))) eqn:E;
    [| reflexivity].
  apply (out_of_range_iff t u N HN) in E. destruct E as (i & Hi & Hout).
  specialize (Hall i Hi). lra.
Qed.

(** On a series of at least three increasing times that has passed the
    range test, the two splines are allocated, and at every scanned
    sample of [u] no call of GSL fails. *)
Lemma window_interpolation (t : list R) (u : DataGrid) (N : Z) :
  (3 <= length t)%nat -> strictly_increasing t = true -> 0 < N ->
  let uMax := fst (u_extent u N) in
  let uMin := snd (u_extent u N) in
  out_of_range t uMin uMax = false ->
  let u_original := map (vget t) (window_indices (select_window t uMin uMax)) in
  gsl_spline_alloc (length u_original) = Ok tt /\
  forall (i_g : nat) (samples : list complex), (i_g < Z.to_nat N)%nat ->
    interpolate_point X u_original samples (real (cget (dg_data u) i_g))
    = Ok (spline_value X u_original samples (real (cget (dg_data u) i_g))).
Proof.
  intros Hlen Hinc HN uMax uMin Hr u_original.
  assert (Hne : t <> []) by (destruct t; [simpl in Hlen; lia | discriminate]).
  destruct (select_window_range t uMin uMax Hne) as (Hlo & Hhi & Hsize & _).
  destruct (select_window_encloses t uMin uMax Hne Hr) as [He1 He2].
  destruct (u_extent_range u N HN) as (Hall & _).
  cbv zeta in Hlo, Hhi, Hsize, He1, He2, Hall. fold uMax uMin in Hall.
  subst u_original. unfold window_indices.
  set (w := select_window t uMin uMax) in *.
  split.
  - apply gsl_spline_alloc_ok. rewrite length_map, length_seq. lia.
  - intros i_g samples Hi. apply interpolate_point_ok.
    + apply strictly_increasing_window; [exact Hinc | lia].
    + destruct (window_knots t (Z.to_nat (fst w)) (Z.to_nat (snd w - fst w + 1)))
        as [K1 K2]; [lia |].
      rewrite K1, K2.
      replace (Z.to_nat (fst w) + Z.to_nat (snd w - fst w + 1) - 1)%nat
        with (Z.to_nat (snd w)) by lia.
      specialize (Hall i_g Hi). lra.
Qed.

(** [Scri::BMSTransformation] returns when the series holds at least
    three slices at strictly increasing times, every required time
    [u0 + delta] lies within the times of the series, all slices have the
    degree of the first one, and the degree of [delta] (not negative) and
    the default degree of the grid-to-spectral constructor do not exceed
    it; the seven fields it returns have the spins [2, 1, 0, -1, -2, 2, 2].
    Under these conditions the grids of [u] and of every transformed
    slice have one size, the splines have at least three increasing
    knots, and every point of evaluation lies between the end knots. *)
Theorem Scri_BMSTransformation_returns
  (S : Scri) (u0 : R) (v : ThreeVector) (delta : Modes) :
  let L := SliceModes_EllMax (slice_at S 0) in
  let n := 2 * L + 1 in
  let u := DataGrid_radd u0 (DataGrid_of_Modes X delta n n) in
  (3 <= length (t S))%nat ->
  length (slices S) = length (t S) ->
  strictly_increasing (t S) = true ->
  (forall i, (i < Z.to_nat (n * n))%nat ->
     (vget (t S) 0 <= real (cget (dg_data u) i) <= last (t S) 0)%R) ->
  (forall i, (i < length (t S))%nat -> SliceModes_EllMax (slice_at S i) = L) ->
  0 <= EllMax delta <= L -> Modes_L X <= L ->
  exists B, Scri_BMSTransformation X S u0 v delta = Ok B /\ slice_spins B.
Proof.
  intros L n u Hlen _ Hinc Hin Hdeg Hd HL.
  assert (Hne : t S <> []) by (destruct (t S); [simpl in Hlen; lia | discriminate]).
  assert (HN : 0 < n * n) by (subst n; nia).
  assert (Hr := in_range_passes (t S) u (n * n) HN Hin).
  destruct (window_interpolation (t S) u (n * n) Hlen Hinc HN Hr) as [Halloc Hpt].
  cbv zeta in Halloc, Hpt.
  unfold Scri_BMSTransformation, Scri_BMSTransformation_window. cbv zeta.
  fold L. fold n. fold u.
  destruct (u_extent u (n * n)) as [uMax uMin]. cbn [fst snd] in Hr, Halloc, Hpt.
  rewrite Hr. cbn [bind].
  destruct (select_window_range (t S) uMin uMax Hne) as (Hlo & Hhi & Hsize & Hlw & Hw).
  cbv zeta in Hlo, Hhi, Hsize, Hlw, Hw.
  set (w := select_window (t S) uMin uMax) in *.
  destruct (mapM_each
              (fun i => BMSTransformationOnSlice X (slice_at S i) (vget (t S) i) v delta)
              0%nat (SliceGrid_of_size X 0) (window_indices w))
    as (G & HG & _ & Hnth).
  { intros i Hi. apply Hw in Hi.
    apply BMSTransformationOnSlice_total; rewrite (Hdeg i) by lia; [lia | exact HL]. }
  rewrite HG. cbn [bind].
  (* the grid of the first slice of the window *)
  assert (H0 : (0 < length (window_indices w))%nat) by lia.
  specialize (Hnth 0%nat H0). cbv beta in Hnth.
  destruct (BMSTransformationOnSlice_inv X _ _ _ _ _ Hnth)
    as (_ & _ & _ & _ & _ & _ & _ & _ & _ & _ & _ & _ & _ & _ & _ & _ & _ & _ & _ & _ & Hsz & _).
  rewrite (Hdeg (nth 0 (window_indices w) 0%nat)) in Hsz.
  2:{ assert (Hin0 : In (nth 0 (window_indices w) 0%nat) (window_indices w))
        by (apply nth_In; exact H0).
      apply Hw in Hin0. lia. }
  fold n in Hsz. destruct Hsz as ((Ht0 & Hp0 & _) & _).
  unfold N_theta, N_phi. cbn [slice_get]. rewrite Ht0, Hp0.
  rewrite Halloc. cbn [bind].
  rewrite (foldM_pure _
             (fun G0 i_g =>
                fold_left
                  (fun G1 i_D =>
                     slice_set G1 i_D
                       (DataGrid_set (slice_get G1 i_D) i_g
                          (spline_value X (map (vget (t S)) (window_indices w))
                             (map (fun sl => cget (dg_data (slice_get sl i_D)) i_g) G)
                             (real (cget (dg_data u) i_g)))))
                  (seq 0 7) G0)).
  2:{ intros G0 i_g Hi. apply in_seq in Hi.
      rewrite length_grid_points in Hi.
      apply foldM_pure. intros G1 i_D _.
      rewrite Hpt by nia. reflexivity. }
  cbn [bind]. eexists. split; [reflexivity |].
  apply back_to_modes_spins;
    rewrite (interpolation_keeps_spins
               (fun i_g i_D =>
                  spline_value X
                    (map (vget (t S)) (window_indices w))
                    (map (fun sl => cget (dg_data (slice_get sl i_D)) i_g) G)
                    (real (cget (dg_data u) i_g))));
    reflexivity.
Qed.

(** [SuperMomenta::BMSTransform] returns when the series holds at least
    three supermomenta at strictly increasing times, every required time
    lies within the times of the series, every supermomentum has the spin
    of [delta] and the degree of the first one, the degree of [delta] is
    not negative and not above it, [1/K] holds the four coefficients the
    velocity is read from, and the cube of [1/K] has degree [0].  The
    last condition keeps the grid of the product as small as the grid of
    [u]: with a cube of a higher degree the product grid is larger, and
    step (2) reads [u] past its end. *)
Theorem SuperMomenta_BMSTransform_returns
  (SM : SuperMomenta) (OneOverK delta : Modes) :
  let L := EllMax (Psi_at SM 0) in
  let n := 2 * L + 1 in
  let u := DataGrid_of_Modes X delta n n in
  (3 <= length (sm_t SM))%nat ->
  length (Psi SM) = length (sm_t SM) ->
  strictly_increasing (sm_t SM) = true ->
  (forall i, (i < Z.to_nat (n * n))%nat ->
     (vget (sm_t SM) 0 <= real (cget (dg_data u) i) <= last (sm_t SM) 0)%R) ->
  (forall i, (i < length (sm_t SM))%nat ->
     m_s (Psi_at SM i) = m_s delta /\ EllMax (Psi_at SM i) = L) ->
  0 <= EllMax delta <= L ->
  (4 <= length (m_data OneOverK))%nat ->
  EllMax (Modes_pow X OneOverK 3) = 0 ->
  exists Psi', SuperMomenta_BMSTransform X SM OneOverK delta = Ok Psi'.
Proof.
  intros L n u Hlen _ Hinc Hin Hpsi Hd _ HK.
  assert (Hne : sm_t SM <> [])
    by (destruct (sm_t SM); [simpl in Hlen; lia | discriminate]).
  assert (HN : 0 < n * n) by (subst n; nia).
  assert (Hr := in_range_passes (sm_t SM) u (n * n) HN Hin).
  destruct (window_interpolation (sm_t SM) u (n * n) Hlen Hinc HN Hr) as [Halloc Hpt].
  cbv zeta in Halloc, Hpt.
  unfold SuperMomenta_BMSTransform. cbv zeta. fold L. fold n. fold u.
  destruct (u_extent u (n * n)) as [uMax uMin]. cbn [fst snd] in Hr, Halloc, Hpt.
  rewrite Hr.
  destruct (select_window_range (sm_t SM) uMin uMax Hne)
    as (Hlo & Hhi & Hsize & Hlw & Hw).
  cbv zeta in Hlo, Hhi, Hsize, Hlw, Hw.
  set (w := select_window (sm_t SM) uMin uMax) in *.
  set (f := fun i : nat =>
              d <- Modes_sub (Psi_at SM i) (Modes_edth2edthbar2 delta) ;;
              p <- Modes_mul X d (Modes_pow X OneOverK 3) ;;
              DataGrid_boosted X p (vFromOneOverK OneOverK) n n).
  assert (Hstep : forall i, (i < length (sm_t SM))%nat ->
                  exists g, f i = Ok g /\ sized n n g).
  { intros i Hi. subst f. cbv beta.
    destruct (Hpsi i Hi) as [Hs He].
    destruct (Modes_sub_same_spin (Psi_at SM i) (Modes_edth2edthbar2 delta))
      as (d & Hdd & _ & Hde); [exact Hs |].
    rewrite Hdd. cbn [bind].
    assert (Hd' : 0 <= EllMax d <= L).
    { unfold EllMax in *. rewrite Hde.
      destruct (length (m_data (Modes_edth2edthbar2 delta))
                <=? length (m_data (Psi_at SM i)))%nat;
        [rewrite He; lia | exact Hd]. }
    destruct (Modes_mul_total X d (Modes_pow X OneOverK 3)) as (p & Hp & _ & Hpe & _);
      [lia | lia |].
    rewrite Hp. cbn [bind].
    destruct (DataGrid_boosted_total X p (vFromOneOverK OneOverK) n n)
      as (g & Hg & _ & Hgs).
    exists g. split; [exact Hg |].
    unfold EllMax in Hgs at 1 2. rewrite Hpe, HK in Hgs.
    replace (Z.max n (2 * (EllMax d + 0) + 1)) with n in Hgs by (subst n; lia).
    exact Hgs. }
  destruct (mapM_each f 0%nat (DataGrid_of_size X 0) (window_indices w))
    as (G & HG & _ & Hnth).
  { intros i Hi. apply Hw in Hi.
    destruct (Hstep i ltac:(lia)) as (g & Hg & _). exists g. exact Hg. }
  rewrite HG. cbn [bind].
  assert (H0 : (0 < length (window_indices w))%nat) by lia.
  specialize (Hnth 0%nat H0).
  destruct (Hstep (nth 0 (window_indices w) 0%nat)) as (g0 & Hg0 & Ht0 & Hp0 & _).
  { assert (Hin0 : In (nth 0 (window_indices w) 0%nat) (window_indices w))
      by (apply nth_In; exact H0).
    apply Hw in Hin0. lia. }
  rewrite Hg0 in Hnth. injection Hnth as Hnth.
  unfold N_theta, N_phi. rewrite <- Hnth, Ht0, Hp0.
  rewrite Halloc. cbn [bind].
  rewrite (foldM_pure _
             (fun G0 i_g =>
                DataGrid_set G0 i_g
                  (spline_value X (map (vget (sm_t SM)) (window_indices w))
                     (map (fun sl => cget (dg_data sl) i_g) G)
                     (real (cget (dg_data u) i_g))))).
  2:{ intros G0 i_g Hi. apply in_seq in Hi.
      rewrite length_grid_points in Hi.
      rewrite Hpt by nia. reflexivity. }
  cbn [bind]. eexists. reflexivity.
Qed.

End TransformationsReturn.

Section TransformationsReturnExamples.
Local Open Scope Z_scope.

Lemma strictly_increasing_times_012 : strictly_increasing times_012 = true.
Proof.
  unfold times_012. cbn [strictly_increasing]. compare_reals. reflexivity.
Qed.

Lemma Scri_BMSTransformation_returns_witness :
  exists B, Scri_BMSTransformation ones_Externals scri_012 0 [0; 0; 0]%R delta_ell1 = Ok B /\
            slice_spins B.
Proof.
  apply (Scri_BMSTransformation_returns ones_Externals scri_012 0 [0; 0; 0]%R delta_ell1).
  - simpl. lia.
  - reflexivity.
  - exact strictly_increasing_times_012.
  - change (2 * SliceModes_EllMax (slice_at scri_012 0) + 1) with 3.
    change (Z.to_nat (3 * 3)) with 9%nat. intros i Hi.
    unfold DataGrid_radd, DataGrid_map, DataGrid_of_Modes. cbn [dg_data n_theta n_phi N_theta N_phi].
    change (Z.max 3 (2 * EllMax delta_ell1 + 1)) with 3.
    change (Z.to_nat (3 * 3)) with 9%nat.
    unfold cget. rewrite nth_map_upto by (rewrite ?length_map, ?length_seq; exact Hi).
    rewrite (nth_map_in _ _ _ 0%nat) by (rewrite length_seq; exact Hi).
    cbn. lra.
  - intros i Hi. change (length (t scri_012)) with 3%nat in Hi.
    destruct i as [| [| [| i]]]; [| | | lia]; reflexivity.
  - cbn. lia.
  - cbn. lia.
Defined.

Lemma SuperMomenta_BMSTransform_returns_witness :
  exists Psi',
    SuperMomenta_BMSTransform monopole_pow_Externals track_012 (OneOverK frame_rest)
                              delta_ell1
    = Ok Psi'.
Proof.
  apply (SuperMomenta_BMSTransform_returns monopole_pow_Externals track_012
           (OneOverK frame_rest) delta_ell1).
  - simpl. lia.
  - reflexivity.
  - exact strictly_increasing_times_012.
  - change (2 * EllMax (Psi_at track_012 0) + 1) with 3.
    change (Z.to_nat (3 * 3)) with 9%nat. intros i Hi.
    unfold DataGrid_of_Modes. cbn [dg_data].
    change (Z.max 3 (2 * EllMax delta_ell1 + 1)) with 3.
    change (Z.to_nat (3 * 3)) with 9%nat.
    unfold cget. rewrite (nth_map_in _ _ _ 0%nat) by (rewrite length_seq; exact Hi).
    cbn. lra.
  - intros i Hi. change (length (sm_t track_012)) with 3%nat in Hi.
    destruct i as [| [| [| i]]]; [| | | lia]; split; reflexivity.
  - cbn. lia.
  - simpl. lia.
  - reflexivity.
Defined.

End TransformationsReturnExamples.
